(** * feynman-bot: history rotation, selection policy and the mode router

    A shallow embedding of [bot.py].  Python [str] values are sequences of
    Unicode code points, post records are dictionaries from field names to
    scalars, the history aggregate is the document kept in [HISTORY_FILE],
    and everything the bot does to the outside (clock, random source,
    language model, chat channel, history file) goes through an explicit
    [world] that is threaded through a small state-and-exception monad. *)

From Stdlib Require Import ZArith List Ascii String Lia.
From stdpp Require Import base tactics option list strings gmap pretty.

Open Scope Z_scope.
Open Scope list_scope.

(** ** Python strings *)

(** A Python [str] is a sequence of code points. *)
Abbreviation pystr := (list N).

(** An ASCII literal of the source as a [str]. *)
Definition lit (s : string) : pystr :=
  map N_of_ascii (list_ascii_of_string s).
Arguments lit : simpl never.

(** [str.isspace] on one code point (CPython's [_PyUnicode_IsWhitespace]). *)
Definition isspace (c : N) : bool :=
  ((9 <=? c) && (c <=? 13) || (28 <=? c) && (c <=? 32)
   || (c =? 133) || (c =? 160) || (c =? 5760)
   || (8192 <=? c) && (c <=? 8202)
   || (c =? 8232) || (c =? 8233) || (c =? 8239) || (c =? 8287)
   || (c =? 12288))%N.

Fixpoint lstrip (s : pystr) : pystr :=
  match s with
  | c :: s' => if isspace c then lstrip s' else s
  | [] => []
  end.

Definition rstrip (s : pystr) : pystr := rev (lstrip (rev s)).

(** [s.strip()] *)
Definition strip (s : pystr) : pystr := rstrip (lstrip s).

(** [s.startswith(pat)] *)
Fixpoint startswith (pat s : pystr) : bool :=
  match pat, s with
  | [], _ => true
  | _ :: _, [] => false
  | a :: pat', b :: s' => (a =? b)%N && startswith pat' s'
  end.

(** [s.find(pat)]: index of the first occurrence of [pat] in [s]. *)
Fixpoint str_find (pat s : pystr) : option nat :=
  if startswith pat s then Some 0%nat
  else match s with
       | [] => None
       | _ :: s' => S <$> str_find pat s'
       end.

(** [pat in s] *)
Definition contains (pat s : pystr) : bool := bool_decide (is_Some (str_find pat s)).

(** [s.split(pat, 1)] where [pat in s]: the two parts around the first
    occurrence; [None] when [pat] does not occur (the list then has a
    single element and [parts[1]] does not exist). *)
Definition split_once (pat s : pystr) : option (pystr * pystr) :=
  i ← str_find pat s; Some (take i s, drop (i + length pat) s).

(** [sep.join(lines)] *)
Fixpoint join (sep : pystr) (lines : list pystr) : pystr :=
  match lines with
  | [] => []
  | [l] => l
  | l :: ls => l ++ sep ++ join sep ls
  end.

(** [l[-n:]] for a positive literal [n]: the last [n] elements, the whole
    list when it is shorter. *)
Definition last_n {A} (n : nat) (l : list A) : list A :=
  drop (length l - n) l.

(** ** Scalars, post records and the history aggregate *)

(** The values a field of a post record holds: what the generators write
    ([str], [bool]) and JSON [null]. *)
Inductive scalar :=
| SNone
| SBool (b : bool)
| SStr (s : pystr).

#[global] Instance scalar_eq_dec : EqDecision scalar.
Proof. solve_decision. Defined.

(** Python truthiness. *)
Definition truthy (v : scalar) : bool :=
  match v with
  | SNone => false
  | SBool b => b
  | SStr s => negb (bool_decide (s = []))
  end.

(** [str(v)], as an f-string renders a value. *)
Definition py_str (v : scalar) : pystr :=
  match v with
  | SNone => lit "None"
  | SBool true => lit "True"
  | SBool false => lit "False"
  | SStr s => s
  end.

(** A post record is a dictionary. *)
Abbreviation post := (gmap string scalar).

(** [d.get(k)]: [None] when the key is absent. *)
Definition get (d : post) (k : string) : scalar := default SNone (d !! k).

(** [d.get(k, dflt)] *)
Definition get_or (d : post) (k : string) (dflt : pystr) : scalar :=
  default (SStr dflt) (d !! k).

(** The history aggregate, as [load_history] builds it and [HISTORY_FILE]
    stores it.  [temp_answer] is a key that only [!puzzle] adds: [None]
    stands for its absence.  The four other keys are always there: this is
    what the bot writes, every aggregate it saves being the default one or
    a loaded one with fields replaced.  An aggregate that lacks one of
    them (on which [history["posts"]] and the like raise [KeyError]) is
    not represented; the posts themselves are arbitrary records. *)
Record history := History {
  posts : list post;
  used_wonders : list scalar;
  used_topics : list scalar;
  pending_puzzle_answer : scalar;
  temp_answer : option scalar;
}.

#[global] Instance history_eq_dec : EqDecision history.
Proof. solve_decision. Defined.

(** The aggregate [load_history] returns when there is no file. *)
Definition empty_history : history :=
  {| posts := []; used_wonders := []; used_topics := [];
     pending_puzzle_answer := SNone; temp_answer := None |}.

Definition set_posts (l : list post) (h : history) : history :=
  {| posts := l; used_wonders := used_wonders h; used_topics := used_topics h;
     pending_puzzle_answer := pending_puzzle_answer h;
     temp_answer := temp_answer h |}.

Definition set_used_wonders (l : list scalar) (h : history) : history :=
  {| posts := posts h; used_wonders := l; used_topics := used_topics h;
     pending_puzzle_answer := pending_puzzle_answer h;
     temp_answer := temp_answer h |}.

Definition set_used_topics (l : list scalar) (h : history) : history :=
  {| posts := posts h; used_wonders := used_wonders h; used_topics := l;
     pending_puzzle_answer := pending_puzzle_answer h;
     temp_answer := temp_answer h |}.

Definition set_pending (v : scalar) (h : history) : history :=
  {| posts := posts h; used_wonders := used_wonders h;
     used_topics := used_topics h;
     pending_puzzle_answer := v; temp_answer := temp_answer h |}.

Definition set_temp_answer (v : scalar) (h : history) : history :=
  {| posts := posts h; used_wonders := used_wonders h;
     used_topics := used_topics h;
     pending_puzzle_answer := pending_puzzle_answer h;
     temp_answer := Some v |}.

(** ** Exceptions and the outside world *)

Inductive exn :=
| KeyError        (* [d[k]] on an absent key *)
| TypeError
| ValueError      (* [datetime.fromisoformat] on a malformed string *)
| IndexError      (* [random.choice] on an empty sequence *)
| AttributeError
| ModelError      (* the language-model call raised *)
| SendError.      (* the chat API refused the message *)

Inductive res (A : Type) :=
| Ok (a : A)
| Raise (e : exn).
Arguments Ok {A} a.
Arguments Raise {A} e.

Definition is_ok {A} (r : res A) : bool :=
  match r with Ok _ => true | Raise _ => false end.

#[global] Instance res_ret : MRet res := fun A a => Ok a.
#[global] Instance res_bind : MBind res := fun A B k m =>
  match m with Ok a => k a | Raise e => Raise e end.

(** A [datetime]: microseconds since the epoch and whether it carries a
    UTC offset ([utcnow] never does). *)
Record datetime := DateTime { dt_us : Z; dt_aware : bool }.

Definition day_us : Z := 86400000000.

(** [(now - d).days] for the naive [now] of [utcnow]: a [timedelta] is
    normalised with its remainder non-negative, so [days] is the floor;
    subtracting an offset-aware value from a naive one raises. *)
Definition days_since (now : Z) (d : datetime) : res Z :=
  if dt_aware d then Raise TypeError else Ok ((now - dt_us d) / day_us).

(** [now.weekday()]: 0 is Monday; the epoch fell on a Thursday. *)
Definition weekday (now : Z) : Z := (now / day_us + 3) mod 7.

(** The two model tiers. *)
Inductive model := Sonnet | Haiku.

(** The prompt templates of the source, each with the values its f-string
    interpolates.  The callback paragraph of the fact prompt is empty
    ([None]) or carries the age in days and the summary of the post called
    back to. *)
Inductive prompt :=
| FactPrompt (context topic wonder : pystr) (callback_text : option (Z * scalar))
| WhatIfPrompt (context topic : pystr)
| PuzzlePrompt (context topic : pystr)
| ConnectionsPrompt (summaries : pystr)
| SummaryPrompt (content : pystr)
| CustomFactPrompt (topic : pystr).

(** One [claude.messages.create] call and how it ended ([None]: it raised). *)
Record request := Request {
  rq_model : model;
  rq_max_tokens : Z;
  rq_prompt : prompt;
  rq_reply : option pystr;
}.

(** A [discord.Embed]. *)
Record embed := Embed {
  e_title : pystr;
  e_description : scalar;
  e_color : Z;
  e_timestamp : option Z;
  e_footer : option pystr;
  e_fields : list (pystr * pystr * bool);   (* name, value, inline *)
}.

(** What [send] is given: an embed or plain text. *)
Inductive message :=
| MsgEmbed (e : embed)
| MsgText (s : pystr).

(** Lines written by [print]. *)
Inductive logline :=
| LogNoChannel
| LogPosted (mode : pystr) (topic : scalar)
| LogError (e : exn).

(** Everything outside the process.  The oracles answer the [w_step]-th
    interaction: the clock reading, the model's reply ([None]: the call
    raises), the raw random draw, the outcome of [random.random() < 0.3]
    and whether a message is delivered. *)
Record world := World {
  w_file : option history;
  w_channel : bool;
  w_step : nat;
  w_clock : nat -> Z;
  w_llm : nat -> option pystr;
  w_rand : nat -> nat;
  w_coin : nat -> bool;
  w_send_ok : nat -> bool;
  w_requests : list request;
  w_sent : list message;
  w_log : list logline;
}.

Definition tick (w : world) : world :=
  {| w_file := w_file w; w_channel := w_channel w; w_step := S (w_step w);
     w_clock := w_clock w; w_llm := w_llm w; w_rand := w_rand w;
     w_coin := w_coin w; w_send_ok := w_send_ok w;
     w_requests := w_requests w; w_sent := w_sent w; w_log := w_log w |}.

(** The world with [f] as the contents of [HISTORY_FILE]. *)
Definition put_file (f : option history) (w : world) : world :=
  {| w_file := f; w_channel := w_channel w; w_step := w_step w;
     w_clock := w_clock w; w_llm := w_llm w; w_rand := w_rand w;
     w_coin := w_coin w; w_send_ok := w_send_ok w;
     w_requests := w_requests w; w_sent := w_sent w; w_log := w_log w |}.

Definition write_file (h : history) (w : world) : world := put_file (Some h) w.

Definition record_request (r : request) (w : world) : world :=
  {| w_file := w_file w; w_channel := w_channel w; w_step := w_step w;
     w_clock := w_clock w; w_llm := w_llm w; w_rand := w_rand w;
     w_coin := w_coin w; w_send_ok := w_send_ok w;
     w_requests := w_requests w ++ [r]; w_sent := w_sent w; w_log := w_log w |}.

Definition record_sent (e : message) (w : world) : world :=
  {| w_file := w_file w; w_channel := w_channel w; w_step := w_step w;
     w_clock := w_clock w; w_llm := w_llm w; w_rand := w_rand w;
     w_coin := w_coin w; w_send_ok := w_send_ok w;
     w_requests := w_requests w; w_sent := w_sent w ++ [e]; w_log := w_log w |}.

Definition record_log (l : logline) (w : world) : world :=
  {| w_file := w_file w; w_channel := w_channel w; w_step := w_step w;
     w_clock := w_clock w; w_llm := w_llm w; w_rand := w_rand w;
     w_coin := w_coin w; w_send_ok := w_send_ok w;
     w_requests := w_requests w; w_sent := w_sent w; w_log := w_log w ++ [l] |}.

(** The number of model calls that raised so far. *)
Definition failed_calls (w : world) : nat :=
  length (filter (fun r => rq_reply r = None) (w_requests w)).

(** ** The monad of the bot's procedures *)

Definition M (A : Type) : Type := world -> res A * world.

#[global] Instance M_ret : MRet M := fun A a w => (Ok a, w).
#[global] Instance M_bind : MBind M := fun A B k m w =>
  match m w with
  | (Ok a, w') => k a w'
  | (Raise e, w') => (Raise e, w')
  end.

(** A pure step that may raise. *)
Definition lift {A} (r : res A) : M A := fun w => (r, w).

(** [try: m except Exception as e: handler(e)] *)
Definition try_except {A} (m : M A) (handler : exn -> M A) : M A := fun w =>
  match m w with
  | (Ok a, w') => (Ok a, w')
  | (Raise e, w') => handler e w'
  end.

(** [datetime.utcnow()], in microseconds. *)
Definition utcnow : M Z := fun w => (Ok (w_clock w (w_step w)), tick w).

(** The index [random.choice] draws for a sequence of length [n]: uniform
    on the indices below [n]. *)
Definition randbelow (w : world) (n : nat) : nat := (w_rand w (w_step w) mod n)%nat.

(** [random.choice(l)]: [l[randbelow(len(l))]]; an empty [l] raises. *)
Definition random_choice {A} (l : list A) : M A := fun w =>
  match l !! randbelow w (length l) with
  | Some x => (Ok x, tick w)
  | None => (Raise IndexError, w)
  end.

(** [random.random() < 0.3] *)
Definition random_lt_03 : M bool := fun w => (Ok (w_coin w (w_step w)), tick w).

(** [claude.messages.create(model, max_tokens, messages)] followed by
    [message.content[0].text]. *)
Definition claude_create (m : model) (max_tokens : Z) (p : prompt) : M pystr := fun w =>
  let reply := w_llm w (w_step w) in
  let w' := tick (record_request (Request m max_tokens p reply) w) in
  match reply with
  | Some text => (Ok text, w')
  | None => (Raise ModelError, w')
  end.

(** Handing a message to the chat API. *)
Definition send_message (m : message) : M unit := fun w =>
  if w_send_ok w (w_step w) then (Ok tt, tick (record_sent m w))
  else (Raise SendError, tick w).

(** [channel.send(embed=e)] and [ctx.send(embed=e)] *)
Definition send (e : embed) : M unit := send_message (MsgEmbed e).

(** [ctx.send(text)] *)
Definition send_text (s : pystr) : M unit := send_message (MsgText s).

Definition print (l : logline) : M unit := fun w => (Ok tt, record_log l w).

(** ** Content configuration *)

Definition WONDER_TYPES : list pystr := [
  lit "something that seems impossible but is mathematically proven true";
  lit "a simple question with a surprisingly complex or unsolved answer";
  lit "a pattern that appears unexpectedly across unrelated domains";
  lit "a problem that stumped mathematicians or physicists for decades (or centuries)";
  lit "something proven to exist but never directly observed";
  lit "two seemingly unrelated things that turn out to be mathematically equivalent";
  lit "a result that contradicts everyday intuition about how the world works";
  lit "a physical phenomenon that has no complete explanation yet";
  lit "an everyday object or experience that hides deep mathematical structure";
  lit "a limit or bound that nature seems to respect for mysterious reasons"
].

Definition TOPICS : list pystr := [
  lit "quantum mechanics"; lit "number theory"; lit "thermodynamics"; lit "topology";
  lit "special or general relativity"; lit "probability paradoxes"; lit "chaos theory";
  lit "electromagnetism"; lit "group theory and symmetry"; lit "fluid dynamics";
  lit "prime numbers"; lit "cosmology and the early universe"; lit "game theory";
  lit "optics and light"; lit "combinatorics"; lit "statistical mechanics";
  lit "black holes"; lit "wave phenomena"; lit "graph theory"; lit "orbital mechanics"
].

(** [MODE_SCHEDULE.get(weekday, "fact")]: 0 is Monday, 6 is Sunday. *)
Definition MODE_SCHEDULE (wd : Z) : pystr :=
  if wd =? 0 then lit "fact"
  else if wd =? 1 then lit "fact"
  else if wd =? 2 then lit "what_if"
  else if wd =? 3 then lit "fact"
  else if wd =? 4 then lit "puzzle"
  else if wd =? 5 then lit "fact"
  else if wd =? 6 then lit "connections"
  else lit "fact".

(** ** History management *)

(** [load_history()]: the default aggregate when there is no file, the
    stored aggregate otherwise.  The file is absent or holds an aggregate:
    a file that is not valid JSON, on which [json.load] raises, is not
    represented, so every property below is about a file that can be
    read. *)
Definition load_history : M history := fun w =>
  (Ok (default empty_history (w_file w)), w).

(** [save_history(history)]: the write itself is taken to succeed. *)
Definition save_history (h : history) : M unit := fun w => (Ok tt, write_file h w).

(** [d[k]] *)
Definition getitem (d : post) (k : string) : res scalar :=
  match d !! k with
  | Some v => Ok v
  | None => Raise KeyError
  end.

(** The in-memory part of [add_to_history]. *)
Definition append_post (h : history) (post_data : post) : res history :=
  let h := set_posts (posts h ++ [post_data]) h in
  h ← (if truthy (get post_data "wonder_type") then
         v ← getitem post_data "wonder_type";
         Ok (set_used_wonders (last_n 5 (used_wonders h ++ [v])) h)
       else Ok h);
  h ← (if truthy (get post_data "topic") then
         v ← getitem post_data "topic";
         Ok (set_used_topics (last_n 8 (used_topics h ++ [v])) h)
       else Ok h);
  Ok h.

(** [add_to_history(history, post_data)]: the aggregate is changed in place
    and saved; the changed aggregate is the result.  On an aggregate with
    its keys, the only kind represented, none of its steps raises. *)
Definition add_to_history (h : history) (post_data : post) : M history :=
  h ← lift (append_post h post_data);
  save_history h;;
  mret h.

(** [pick_fresh(options, recently_used)] *)
Definition fresh_options (options : list pystr) (recently_used : list scalar) : list pystr :=
  filter (fun o => SStr o ∉ recently_used) options.

Definition pick_fresh (options : list pystr) (recently_used : list scalar) : M pystr :=
  let fresh := fresh_options options recently_used in
  match fresh with
  | _ :: _ => random_choice fresh
  | [] => random_choice options
  end.

Section Bot.

#[local] Set Default Proof Using "Type".

(** Library functions of the Python runtime: [datetime.fromisoformat]
    ([None]: it raises [ValueError]), [datetime.isoformat] and
    [str.title]. *)
Variable fromisoformat : pystr -> option datetime.
Variable isoformat : Z -> pystr.
Variable str_title : pystr -> pystr.

(** [datetime.fromisoformat(post["date"])] *)
Definition post_date (p : post) : res datetime :=
  d ← getitem p "date";
  match d with
  | SStr s =>
      match fromisoformat s with
      | Some t => Ok t
      | None => Raise ValueError
      end
  | _ => Raise TypeError
  end.

(** [(now - datetime.fromisoformat(post["date"])).days] *)
Definition days_ago (now : Z) (p : post) : res Z :=
  d ← post_date p; days_since now d.

(** The body of a [for post in posts: if test(post): out.append(post)]
    loop whose test may raise. *)
Fixpoint select (test : post -> res bool) (l : list post) : res (list post) :=
  match l with
  | [] => Ok []
  | p :: l' =>
      b ← test p;
      rest ← select test l';
      Ok (if b : bool then p :: rest else rest)
  end.

Definition is_callback (now : Z) (p : post) : res bool :=
  d ← days_ago now p;
  Ok ((7 <=? d) && (d <=? 21) && bool_decide (get p "mode" = SStr (lit "fact"))).

(** [get_callback_candidate(history)] *)
Definition get_callback_candidate (h : history) : M (option post) :=
  if (length (posts h) <? 7)%nat then mret None
  else
    now ← utcnow;
    candidates ← lift (select (is_callback now) (posts h));
    match candidates with
    | _ :: _ => p ← random_choice candidates; mret (Some p)
    | [] => mret None
    end.

Definition is_recent (now : Z) (days : Z) (p : post) : res bool :=
  d ← days_ago now p; Ok (d <=? days).

(** [get_recent_posts(history, days)] *)
Definition get_recent_posts (h : history) (days : Z) : M (list post) :=
  match posts h with
  | [] => mret []
  | _ :: _ =>
      now ← utcnow;
      lift (select (is_recent now days) (posts h))
  end.

(** ** Content generation *)

Definition nl : pystr := [10%N].

(** [v[:n]] on a field that must be a [str]. *)
Definition str_prefix (n : nat) (v : scalar) : res pystr :=
  match v with
  | SStr s => Ok (take n s)
  | _ => Raise TypeError
  end.

(** [generate_summary(content)] *)
Definition generate_summary (content : pystr) : M pystr :=
  text ← claude_create Haiku 100 (SummaryPrompt content);
  mret (strip text).

(** One line of the context block:
    [f"[{date}] ({mode}) {topic}: {summary}"]. *)
Definition context_line (p : post) : res pystr :=
  d ← getitem p "date";
  date ← str_prefix 10 d;
  let mode := get_or p "mode" (lit "fact") in
  let topic := get_or p "topic" (lit "unknown") in
  summary ← str_prefix 200 (get_or p "summary" []);
  Ok (lit "[" ++ date ++ lit "] (" ++ py_str mode ++ lit ") " ++ py_str topic
        ++ lit ": " ++ summary).

(** [[f(p) for p in l]] where [f] may raise. *)
Fixpoint map_res {A B} (f : A -> res B) (l : list A) : res (list B) :=
  match l with
  | [] => Ok []
  | a :: l' => b ← f a; bs ← map_res f l'; Ok (b :: bs)
  end.

(** [build_context_block(history)] *)
Definition build_context_block (h : history) : M pystr :=
  recent ← get_recent_posts h 14;
  match recent with
  | [] => mret []
  | _ :: _ =>
      lines ← lift (map_res context_line (last_n 10 recent));
      mret (join nl ([lit "<recent_posts>"] ++ lines ++ [lit "</recent_posts>"]))
  end.

(** The dictionary literal a generator returns. *)
Definition dict (l : list (string * scalar)) : post := list_to_map l.

(** [generate_fact(history)] *)
Definition generate_fact (h : history) : M post :=
  topic ← pick_fresh TOPICS (used_topics h);
  wonder ← pick_fresh WONDER_TYPES (used_wonders h);
  context ← build_context_block h;
  coin ← random_lt_03;
  cb ← (if coin : bool then
          callback ← get_callback_candidate h;
          match callback with
          | Some c =>
              now ← utcnow;
              d ← lift (days_ago now c);
              mret (Some c, Some (d, get_or c "summary" []))
          | None => mret (None, None)
          end
        else mret (None, None));
  let '(callback, callback_text) := cb in
  content ← claude_create Sonnet 1024 (FactPrompt context topic wonder callback_text);
  summary ← generate_summary content;
  mret (dict [("content", SStr content);
              ("mode", SStr (lit "fact"));
              ("topic", SStr topic);
              ("wonder_type", SStr wonder);
              ("summary", SStr summary);
              ("had_callback", SBool (bool_decide (is_Some callback)))]).

(** [generate_what_if(history)] *)
Definition generate_what_if (h : history) : M post :=
  topic ← pick_fresh TOPICS (used_topics h);
  context ← build_context_block h;
  content ← claude_create Sonnet 1024 (WhatIfPrompt context topic);
  summary ← generate_summary content;
  mret (dict [("content", SStr content);
              ("mode", SStr (lit "what_if"));
              ("topic", SStr topic);
              ("summary", SStr summary)]).

Definition ANSWER_MARKER : pystr := lit "ANSWER:".
Definition ANSWER_PLACEHOLDER : pystr := lit "(Answer coming tomorrow)".

(** The parse of the model's reply in [generate_puzzle]: the puzzle and
    its answer. *)
Definition parse_puzzle (full_response : pystr) : res (pystr * pystr) :=
  if contains ANSWER_MARKER full_response then
    match split_once ANSWER_MARKER full_response with
    | Some (before, after) => Ok (strip before, strip after)
    | None => Raise IndexError
    end
  else Ok (full_response, ANSWER_PLACEHOLDER).

(** [generate_puzzle(history)] *)
Definition generate_puzzle (h : history) : M post :=
  topic ← pick_fresh TOPICS (used_topics h);
  context ← build_context_block h;
  full_response ← claude_create Sonnet 1024 (PuzzlePrompt context topic);
  parsed ← lift (parse_puzzle full_response);
  let '(puzzle, answer) := parsed in
  summary ← generate_summary puzzle;
  mret (dict [("content", SStr puzzle);
              ("mode", SStr (lit "puzzle"));
              ("topic", SStr topic);
              ("summary", SStr summary);
              ("answer", SStr answer)]).

(** One bullet of the week's digest:
    [f"- ({mode}) {topic}: {summary}"]. *)
Definition digest_line (p : post) : res pystr :=
  let mode := get_or p "mode" (lit "fact") in
  let topic := get_or p "topic" (lit "unknown") in
  summary ← str_prefix 200 (get_or p "summary" []);
  Ok (lit "- (" ++ py_str mode ++ lit ") " ++ py_str topic ++ lit ": " ++ summary).

(** [generate_connections(history)] *)
Definition generate_connections (h : history) : M post :=
  recent ← get_recent_posts h 7;
  if (length recent <? 3)%nat then generate_fact h
  else
    lines ← lift (map_res digest_line recent);
    content ← claude_create Sonnet 1024 (ConnectionsPrompt (join nl lines));
    summary ← generate_summary content;
    mret (dict [("content", SStr content);
                ("mode", SStr (lit "connections"));
                ("topic", SStr (lit "weekly synthesis"));
                ("summary", SStr summary)]).

(** [generate_content(mode, history)] *)
Definition generate_content (mode : pystr) (h : history) : M post :=
  if bool_decide (mode = lit "fact") then generate_fact h
  else if bool_decide (mode = lit "what_if") then generate_what_if h
  else if bool_decide (mode = lit "puzzle") then generate_puzzle h
  else if bool_decide (mode = lit "connections") then generate_connections h
  else generate_fact h.

(** ** The scheduled post *)

(** [v.title()] on a field that must be a [str]. *)
Definition title (v : scalar) : res pystr :=
  match v with
  | SStr s => Ok (str_title s)
  | _ => Raise AttributeError
  end.

(** [bot.get_channel(CHANNEL_ID) is not None] *)
Definition get_channel : M bool := fun w => (Ok (w_channel w), w).

(** The "previous answer reveal" block put before today's content. *)
Definition reveal (answer_text content : scalar) : pystr :=
  lit "**Yesterday's puzzle answer:**" ++ nl ++ py_str answer_text
    ++ nl ++ nl ++ lit "---" ++ nl ++ nl ++ py_str content.

(** [title_map.get(mode, "Daily Post")] *)
Definition title_map (fact_title puzzle_title mode : pystr) : pystr :=
  if bool_decide (mode = lit "fact") then fact_title
  else if bool_decide (mode = lit "what_if") then lit "What If...?"
  else if bool_decide (mode = lit "puzzle") then puzzle_title
  else if bool_decide (mode = lit "connections")
       then lit "Weekly Connections " ++ [240; 376; 167; 181]%N
  else lit "Daily Post".

(** [color_map.get(mode, 0x5865F2)] *)
Definition color_map (mode : pystr) : Z :=
  if bool_decide (mode = lit "fact") then 0x5865F2
  else if bool_decide (mode = lit "what_if") then 0xEB459E
  else if bool_decide (mode = lit "puzzle") then 0xFEE75C
  else if bool_decide (mode = lit "connections") then 0x57F287
  else 0x5865F2.

(** The [try] block of [daily_post]. *)
Definition daily_post_body : M unit :=
  history ← load_history;
  let answer_text :=
    if truthy (pending_puzzle_answer history) then pending_puzzle_answer history
    else SNone in
  let history :=
    if truthy (pending_puzzle_answer history) then set_pending SNone history
    else history in
  now ← utcnow;
  let mode := MODE_SCHEDULE (weekday now) in
  result ← generate_content mode history;
  history ← (if bool_decide (mode = lit "puzzle") && truthy (get result "answer") then
               a ← lift (getitem result "answer");
               mret (set_pending a history)
             else mret history);
  content ← lift (getitem result "content");
  let content :=
    if truthy answer_text then SStr (reveal answer_text content) else content in
  fact_topic ← lift (title (get_or result "topic" (lit "Physics & Math")));
  puzzle_topic ← lift (title (get_or result "topic" (lit "Physics & Math")));
  stamp ← utcnow;
  let e := {| e_title := title_map (lit "Daily Wonder: " ++ fact_topic)
                                   (lit "Puzzle: " ++ puzzle_topic) mode;
              e_description := content;
              e_color := color_map mode;
              e_timestamp := Some stamp;
              e_footer := Some (lit "Powered by Claude");
              e_fields := [] |} in
  send e;;
  print (LogPosted mode (get_or result "topic" (lit "unknown")));;
  today ← utcnow;
  let result := <["date" := SStr (isoformat today)]> result in
  add_to_history history result;;
  mret tt.

(** [daily_post()] *)
Definition daily_post : M unit :=
  channel ← get_channel;
  if negb channel then print LogNoChannel
  else try_except daily_post_body (fun e => print (LogError e)).

(** ** Manual commands *)

(** [!fact [topic]]; [author] is [ctx.author.display_name]. *)
Definition get_fact (author : pystr) (topic : option pystr) : M unit :=
  history ← load_history;
  cu ← (match topic with
        | Some (c :: t) =>
            content ← claude_create Sonnet 1024 (CustomFactPrompt (c :: t));
            mret (SStr content, SStr (c :: t))
        | _ =>
            result ← generate_fact history;
            content ← lift (getitem result "content");
            mret (content, get_or result "topic" (lit "Physics & Math"))
        end);
  let '(content, used_topic) := cu in
  t ← lift (title used_topic);
  stamp ← utcnow;
  send {| e_title := lit "Fact: " ++ t;
          e_description := content;
          e_color := 0x5865F2;
          e_timestamp := Some stamp;
          e_footer := Some (lit "Requested by " ++ author);
          e_fields := [] |}.

(** [!whatif] *)
Definition get_what_if (author : pystr) : M unit :=
  history ← load_history;
  result ← generate_what_if history;
  content ← lift (getitem result "content");
  stamp ← utcnow;
  send {| e_title := lit "What If...?";
          e_description := content;
          e_color := 0xEB459E;
          e_timestamp := Some stamp;
          e_footer := Some (lit "Requested by " ++ author);
          e_fields := [] |}.

(** [!puzzle] *)
Definition get_puzzle (author : pystr) : M unit :=
  history ← load_history;
  result ← generate_puzzle history;
  t ← lift (title (get_or result "topic" (lit "Math & Physics")));
  content ← lift (getitem result "content");
  stamp ← utcnow;
  let e := {| e_title := lit "Puzzle: " ++ t;
              e_description := content;
              e_color := 0xFEE75C;
              e_timestamp := Some stamp;
              e_footer := Some (lit "Requested by " ++ author
                                  ++ lit " | Answer: use !answer");
              e_fields := [] |} in
  let history :=
    set_temp_answer (get_or result "answer" (lit "No answer available")) history in
  save_history history;;
  send e.

(** [!answer] *)
Definition get_answer : M unit :=
  history ← load_history;
  let answer := default (SStr (lit "No recent puzzle to answer!")) (temp_answer history) in
  send {| e_title := lit "Puzzle Answer";
          e_description := answer;
          e_color := 0x57F287;
          e_timestamp := None;
          e_footer := None;
          e_fields := [] |}.

(** [l[-count:]] for any integer [count]. *)
Definition tail_slice {A} (count : Z) (l : list A) : list A :=
  if 0 <? count then last_n (Z.to_nat count) l
  else drop (Z.to_nat (- count)) l.

(** One line of [!history]: [f"`{date}` **{mode}**: {topic}"]. *)
Definition history_line (p : post) : res pystr :=
  date ← str_prefix 10 (get_or p "date" []);
  let mode := get_or p "mode" (lit "fact") in
  let topic := get_or p "topic" (lit "unknown") in
  Ok (lit "`" ++ date ++ lit "` **" ++ py_str mode ++ lit "**: " ++ py_str topic).

(** [!history [count]] *)
Definition show_history (count : Z) : M unit :=
  history ← load_history;
  let recent := tail_slice count (posts history) in
  match recent with
  | [] => send_text (lit "No posting history yet!")
  | _ :: _ =>
      lines ← lift (map_res history_line (rev recent));
      send {| e_title := lit "Last " ++ lit (pretty (length recent)) ++ lit " Posts";
              e_description := SStr (join nl lines);
              e_color := 0x5865F2;
              e_timestamp := None;
              e_footer := None;
              e_fields := [] |}
  end.

Definition day_names : list pystr :=
  [lit "Monday"; lit "Tuesday"; lit "Wednesday"; lit "Thursday"; lit "Friday";
   lit "Saturday"; lit "Sunday"].

(** [!schedule] *)
Definition show_schedule : M unit :=
  let lines :=
    imap (fun i day => lit "**" ++ day ++ lit "**: " ++ MODE_SCHEDULE (Z.of_nat i))
         day_names in
  send {| e_title := lit "Weekly Schedule";
          e_description := SStr (join nl lines);
          e_color := 0x5865F2;
          e_timestamp := None;
          e_footer := None;
          e_fields :=
            [(lit "Commands",
              lit "`!fact [topic]` - Get a fact" ++ nl
                ++ lit "`!whatif` - Absurd hypothetical" ++ nl
                ++ lit "`!puzzle` / `!answer` - Puzzle mode" ++ nl
                ++ lit "`!history [n]` - Recent posts",
              false)] |}.

(** The invocations: the daily timer and the commands. *)
Inductive invocation :=
| Scheduled
| CmdFact (author : pystr) (topic : option pystr)
| CmdWhatIf (author : pystr)
| CmdPuzzle (author : pystr)
| CmdAnswer
| CmdHistory (count : Z)
| CmdSchedule.

Definition run (i : invocation) : M unit :=
  match i with
  | Scheduled => daily_post
  | CmdFact author topic => get_fact author topic
  | CmdWhatIf author => get_what_if author
  | CmdPuzzle author => get_puzzle author
  | CmdAnswer => get_answer
  | CmdHistory count => show_history count
  | CmdSchedule => show_schedule
  end.

(** The posts appended one after the other, as successive invocations do. *)
Fixpoint add_all (h : history) (ps : list post) : M history :=
  match ps with
  | [] => mret h
  | p :: ps' => h' ← add_to_history h p; add_all h' ps'
  end.

(** The values of field [k] that the posts of [ps] carry. *)
Definition carried (k : string) (ps : list post) : list scalar :=
  filter (fun v => truthy v = true) (map (fun p => get p k) ps).

(** The rotation bounds. *)
Definition bounded (h : history) : Prop :=
  (length (used_wonders h) <= 5)%nat /\ (length (used_topics h) <= 8)%nat.

(** A post whose [date] field parses to a naive [datetime], as
    [isoformat] of [utcnow] writes it. *)
Definition dated (p : post) : Prop :=
  exists t, post_date p = Ok t /\ dt_aware t = false.

(** The whole-day age of [p] is at most [days]. *)
Definition within (now days : Z) (p : post) : bool :=
  match days_ago now p with
  | Ok d => d <=? days
  | Raise _ => false
  end.

(** [p] is a fact whose whole-day age lies in the band from 7 to 21. *)
Definition in_band (now : Z) (p : post) : bool :=
  match days_ago now p with
  | Ok d => (7 <=? d) && (d <=? 21) && bool_decide (get p "mode" = SStr (lit "fact"))
  | Raise _ => false
  end.

(** A post as the bot writes it: dated, and with a [summary] that is a
    [str] when present. *)
Definition well_formed (p : post) : Prop :=
  dated p /\ exists s, get_or p "summary" [] = SStr s.

(** The model answers every call. *)
Definition llm_total (w : world) : Prop := forall k, is_Some (w_llm w k).

(** ** Vocabulary of the properties *)

(** The aggregate an invocation loads. *)
Definition loaded (w : world) : history := default empty_history (w_file w).

(** What a procedure leaves alone.  [same_outside w w']: the file, the
    channel, the oracles, the delivered messages and the log of [w'] are
    those of [w]. *)
Definition same_outside (w w' : world) : Prop :=
  w_file w' = w_file w /\ w_channel w' = w_channel w /\
  w_clock w' = w_clock w /\ w_llm w' = w_llm w /\ w_rand w' = w_rand w /\
  w_coin w' = w_coin w /\ w_send_ok w' = w_send_ok w /\
  w_sent w' = w_sent w /\ w_log w' = w_log w.

(** A quiet procedure only consumes clock readings and random draws. *)
Definition quiet {A} (m : M A) : Prop :=
  forall w, same_outside w (m w).2 /\ w_requests (m w).2 = w_requests w.

(** A calm procedure talks to nothing but the model, and when it returns
    no model call has raised. *)
Definition calm {A} (m : M A) : Prop :=
  forall w, same_outside w (m w).2 /\
            (is_ok (m w).1 = true -> failed_calls (m w).2 = failed_calls w).

(** [succeeds m Q]: while the model answers, [m] returns a value that
    satisfies [Q]. *)
Definition succeeds {A} (m : M A) (Q : A -> Prop) : Prop :=
  forall w, llm_total w ->
            exists a w', m w = (Ok a, w') /\ llm_total w' /\ Q a.

(** A procedure that issues no model call. *)
Definition callfree {A} (m : M A) : Prop :=
  forall w, w_requests (m w).2 = w_requests w.

(** A procedure that leaves the file as it was, and has sent nothing,
    whenever one of its model calls raised. *)
Definition atomic {A} (m : M A) : Prop :=
  forall w, failed_calls (m w).2 <> failed_calls w ->
            w_file (m w).2 = w_file w /\ w_sent (m w).2 = w_sent w.

(** A procedure that neither reads nor writes the file. *)
Definition fileless {A} (m : M A) : Prop :=
  forall f w, m (put_file f w) = ((m w).1, put_file f (m w).2).

(** ** Example data *)

(** Stand-ins for the library functions on the timestamps of the examples:
    [iso_parse] reads the 19 characters [YYYY-MM-DDTHH:MM:SS] that
    [isoformat] writes for a time with no microseconds, [iso_format]
    writes them, and [ascii_title] is [str.title] on ASCII text. *)
Definition digit (c : N) : option Z :=
  if ((48 <=? c) && (c <=? 57))%N then Some (Z.of_N c - 48) else None.

Fixpoint number (acc : Z) (s : pystr) : option Z :=
  match s with
  | [] => Some acc
  | c :: s' => d ← digit c; number (10 * acc + d) s'
  end.

(** Days from the epoch to a civil date. *)
Definition days_from_civil (y m d : Z) : Z :=
  let y := if m <=? 2 then y - 1 else y in
  let era := y / 400 in
  let yoe := y - era * 400 in
  let doy := (153 * (if 2 <? m then m - 3 else m + 9) + 2) / 5 + d - 1 in
  let doe := yoe * 365 + yoe / 4 - yoe / 100 + doy in
  era * 146097 + doe - 719468.

Definition iso_parse (s : pystr) : option datetime :=
  if bool_decide (length s = 19%nat)
     && bool_decide (s !! 4%nat = Some 45%N) && bool_decide (s !! 7%nat = Some 45%N)
     && bool_decide (s !! 10%nat = Some 84%N)
     && bool_decide (s !! 13%nat = Some 58%N) && bool_decide (s !! 16%nat = Some 58%N)
  then
    y ← number 0 (take 4 s);
    mo ← number 0 (take 2 (drop 5 s));
    d ← number 0 (take 2 (drop 8 s));
    hh ← number 0 (take 2 (drop 11 s));
    mi ← number 0 (take 2 (drop 14 s));
    ss ← number 0 (take 2 (drop 17 s));
    Some {| dt_us := (((days_from_civil y mo d * 24 + hh) * 60 + mi) * 60 + ss)
                     * 1000000;
            dt_aware := false |}
  else None.

(** [z] in [n] decimal digits. *)
Fixpoint pad (n : nat) (z : Z) : pystr :=
  match n with
  | O => []
  | S n' => pad n' (z / 10) ++ [Z.to_N (48 + z mod 10)]
  end.

Definition iso_format (t : Z) : pystr :=
  let z := t / day_us + 719468 in
  let secs := (t mod day_us) / 1000000 in
  let era := z / 146097 in
  let doe := z - era * 146097 in
  let yoe := (doe - doe / 1460 + doe / 36524 - doe / 146096) / 365 in
  let doy := doe - (365 * yoe + yoe / 4 - yoe / 100) in
  let mp := (5 * doy + 2) / 153 in
  let d := doy - (153 * mp + 2) / 5 + 1 in
  let m := if mp <? 10 then mp + 3 else mp - 9 in
  let y := yoe + era * 400 + (if m <=? 2 then 1 else 0) in
  pad 4 y ++ lit "-" ++ pad 2 m ++ lit "-" ++ pad 2 d ++ lit "T"
    ++ pad 2 (secs / 3600) ++ lit ":" ++ pad 2 (secs / 60 mod 60) ++ lit ":"
    ++ pad 2 (secs mod 60).

Fixpoint title_from (cased_before : bool) (s : pystr) : pystr :=
  match s with
  | [] => []
  | c :: s' =>
      let upper := ((65 <=? c) && (c <=? 90))%N in
      let lower := ((97 <=? c) && (c <=? 122))%N in
      (if cased_before then (if upper then c + 32 else c)
       else (if lower then c - 32 else c))%N
        :: title_from (upper || lower) s'
  end.

Definition ascii_title (s : pystr) : pystr := title_from false s.

(** Friday 15 March 2024, 19:00 UTC, when the timer fires. *)
Definition friday_7pm : Z := (days_from_civil 2024 3 15 * 86400 + 68400) * 1000000.

(** A world on that Friday: every clock reading of the run falls in the
    same microsecond, the model gives [llm k] to the call made at step [k],
    the draws are [0, 1, 2, ...], every coin flip proposes a callback and
    every message is delivered. *)
Definition friday_world (f : option history) (llm : nat -> option pystr) : world :=
  {| w_file := f; w_channel := true; w_step := 0;
     w_clock := fun _ => friday_7pm;
     w_llm := llm; w_rand := fun k => k; w_coin := fun _ => true;
     w_send_ok := fun _ => true;
     w_requests := []; w_sent := []; w_log := [] |}.

(** A stored post. *)
Definition stored (date mode topic wonder : string) : post :=
  dict [("content", SStr (lit "...")); ("mode", SStr (lit mode));
        ("topic", SStr (lit topic)); ("wonder_type", SStr (lit wonder));
        ("summary", SStr (lit "a summary")); ("date", SStr (lit date))].

Definition post_today : post :=
  stored "2024-03-15T19:00:00" "fact" "topology" "a limit".
Definition post_6_days : post :=
  stored "2024-03-09T19:00:00" "what_if" "black holes" "".
Definition post_8_days : post :=
  stored "2024-03-07T19:00:00" "fact" "game theory" "a pattern".
Definition post_10_days : post :=
  stored "2024-03-05T19:00:00" "fact" "prime numbers" "a bound".

Definition three_posts : history :=
  set_posts [post_today; post_6_days; post_8_days] empty_history.

Definition eight_posts : history :=
  set_posts [post_10_days; post_8_days; post_8_days; post_8_days;
             post_6_days; post_6_days; post_today; post_today] empty_history.

(** A model that answers every call with a puzzle and its answer, one
    that leaves the answer section empty, and one that is down. *)
Definition answering : nat -> option pystr :=
  fun _ => Some (lit "Why is the sky dark at night? ANSWER: The universe is young.").
Definition answer_missing : nat -> option pystr :=
  fun _ => Some (lit "Riddle me this. ANSWER:").
Definition unreachable : nat -> option pystr := fun _ => None.

(** An aggregate holding yesterday's answer. *)
Definition awaiting_reveal : history :=
  set_pending (SStr (lit "It is 42.")) empty_history.

(** Sunday 17 March 2024, 19:00 UTC, and a world on that Sunday. *)
Definition sunday_7pm : Z := (days_from_civil 2024 3 17 * 86400 + 68400) * 1000000.

Definition sunday_world (f : option history) (llm : nat -> option pystr) : world :=
  {| w_file := f; w_channel := true; w_step := 0;
     w_clock := fun _ => sunday_7pm;
     w_llm := llm; w_rand := fun k => k; w_coin := fun _ => true;
     w_send_ok := fun _ => true;
     w_requests := []; w_sent := []; w_log := [] |}.

(** The Friday world when the chat API refuses every message. *)
Definition undelivered_world (f : option history) (llm : nat -> option pystr) : world :=
  {| w_file := f; w_channel := true; w_step := 0;
     w_clock := fun _ => friday_7pm;
     w_llm := llm; w_rand := fun k => k; w_coin := fun _ => true;
     w_send_ok := fun _ => false;
     w_requests := []; w_sent := []; w_log := [] |}.

(** A post that lacks its date, and a history that holds it. *)
Definition post_undated : post :=
  dict [("content", SStr (lit "...")); ("mode", SStr (lit "fact"));
        ("topic", SStr (lit "topology")); ("summary", SStr (lit "a summary"))].

Definition with_undated : history :=
  set_posts [post_today; post_undated] empty_history.

(** Seven posts, the last one undated, none of them in the callback
    band. *)
Definition seven_with_undated : history :=
  set_posts (replicate 6 post_today ++ [post_undated]) empty_history.

(** ** Vocabulary of the further properties *)

(** The two requests of a generation: the prompt [p] answered by
    [content], then the summary of [summarised] answered by [reply]. *)
Definition two_calls (p : prompt) (content summarised reply : pystr) : list request :=
  [Request Sonnet 1024 p (Some content);
   Request Haiku 100 (SummaryPrompt summarised) (Some reply)].

(** A record as the generators return it: [content], [summary] and a
    non-empty [topic] that are [str], no [date] yet, and either mode "fact"
    with a wonder type or another mode without one. *)
Definition generated (r : post) : Prop :=
  exists content summary topic,
    r !! "content" = Some (SStr content) /\
    r !! "summary" = Some (SStr summary) /\
    r !! "topic" = Some (SStr topic) /\ topic <> [] /\
    (topic ∈ TOPICS \/ topic = lit "weekly synthesis") /\
    r !! "date" = None /\
    ((r !! "mode" = Some (SStr (lit "fact")) /\
      exists wonder, r !! "wonder_type" = Some (SStr wonder) /\ wonder <> [] /\
                     wonder ∈ WONDER_TYPES) \/
     (r !! "wonder_type" = None /\
      exists mode, r !! "mode" = Some (SStr mode) /\
                   mode ∈ [lit "what_if"; lit "puzzle"; lit "connections"])).

(** Every reading of the clock survives [isoformat] followed by
    [fromisoformat]. *)
Definition clock_round_trips (w : world) : Prop :=
  forall k, fromisoformat (isoformat (w_clock w k))
            = Some {| dt_us := w_clock w k; dt_aware := false |}.

(** Invocations one after the other, each on the world the previous one
    left. *)
Fixpoint run_all (invocations : list invocation) (w : world) : world :=
  match invocations with
  | [] => w
  | i :: rest => run_all rest (run i w).2
  end.

(** A procedure that leaves the oracles and the channel alone. *)
Definition steady {A} (m : M A) : Prop :=
  forall w, w_channel (m w).2 = w_channel w /\ w_clock (m w).2 = w_clock w /\
            w_llm (m w).2 = w_llm w /\ w_rand (m w).2 = w_rand w /\
            w_coin (m w).2 = w_coin w /\ w_send_ok (m w).2 = w_send_ok w.

(** A procedure that, when it raises, has not written the file, sent
    nothing and logged nothing. *)
Definition abort_clean {A} (m : M A) : Prop :=
  forall w e w', m w = (Raise e, w') ->
                 w_file w' = w_file w /\ w_sent w' = w_sent w /\
                 w_log w' = w_log w.

(** A procedure that never writes the file. *)
Definition read_only {A} (m : M A) : Prop :=
  forall w, w_file (m w).2 = w_file w.

(** A procedure that never raises. *)
Definition never_raises {A} (m : M A) : Prop :=
  forall w, is_ok (m w).1 = true.

(** The message [!answer] sends for the stored answer [answer]. *)
Definition answer_embed (answer : scalar) : embed :=
  {| e_title := lit "Puzzle Answer";
     e_description := answer;
     e_color := 0x57F287;
     e_timestamp := None;
     e_footer := None;
     e_fields := [] |}.

(** [line] is the context line of the post [p]: its date cut to 10
    characters, its mode and topic with their defaults, its summary cut to
    200 characters. *)
Definition is_context_line (p : post) (line : pystr) : Prop :=
  exists date summary,
    p !! "date" = Some (SStr date) /\
    get_or p "summary" [] = SStr summary /\
    line = lit "[" ++ take 10 date ++ lit "] ("
             ++ py_str (get_or p "mode" (lit "fact")) ++ lit ") "
             ++ py_str (get_or p "topic" (lit "unknown")) ++ lit ": "
             ++ take 200 summary.

(** [line] is the line of [!history] for the post [p]. *)
Definition is_history_line (p : post) (line : pystr) : Prop :=
  exists date,
    get_or p "date" [] = SStr date /\
    line = lit "`" ++ take 10 date ++ lit "` **"
             ++ py_str (get_or p "mode" (lit "fact")) ++ lit "**: "
             ++ py_str (get_or p "topic" (lit "unknown")).

(** Whitespace only. *)
Definition blank (s : pystr) : Prop := Forall (fun c => isspace c = true) s.

(** No whitespace at either end. *)
Definition trimmed (s : pystr) : Prop :=
  (forall c, head s = Some c -> isspace c = false) /\
  (forall c, last s = Some c -> isspace c = false).

(** [line] is the digest bullet of the post [p]: its mode and topic with
    their defaults, its summary cut to 200 characters. *)
Definition is_digest_line (p : post) (line : pystr) : Prop :=
  exists summary,
    get_or p "summary" [] = SStr summary /\
    line = lit "- (" ++ py_str (get_or p "mode" (lit "fact")) ++ lit ") "
             ++ py_str (get_or p "topic" (lit "unknown")) ++ lit ": "
             ++ take 200 summary.

(** * Properties *)

(** ** Lists and strings *)

Lemma last_n_length {A} (n : nat) (l : list A) :
  length (last_n n l) = Nat.min (length l) n.
Proof. unfold last_n. rewrite length_drop. lia. Qed.

Lemma last_n_short {A} (n : nat) (l : list A) :
  (length l <= n)%nat -> last_n n l = l.
Proof.
  intros Hl. unfold last_n. replace (length l - n)%nat with 0%nat by lia.
  reflexivity.
Qed.

Lemma last_n_app {A} (n : nat) (l1 l2 : list A) :
  last_n n (last_n n l1 ++ l2) = last_n n (l1 ++ l2).
Proof.
  destruct (decide (length l1 <= n)%nat) as [Hle|Hgt].
  - by rewrite (last_n_short n l1).
  - unfold last_n at 1 3. rewrite !length_app, last_n_length.
    unfold last_n.
    replace (Nat.min (length l1) n + length l2 - n)%nat with (length l2) by lia.
    replace (length l1 + length l2 - n)%nat
      with ((length l1 - n) + length l2)%nat by lia.
    rewrite <- drop_drop. rewrite (drop_app_le l1) by lia. reflexivity.
Qed.

Lemma last_n_snoc {A} (n : nat) (l1 l2 : list A) (x : A) :
  last_n n (last_n n (l1 ++ l2) ++ [x]) = last_n n (l1 ++ l2 ++ [x]).
Proof. by rewrite last_n_app, <- app_assoc. Qed.

Lemma startswith_app (pat s : pystr) :
  startswith pat s = true <-> exists rest, s = pat ++ rest.
Proof.
  revert s. induction pat as [|a pat IH]; intros s; simpl.
  - split; [intros _; by exists s | done].
  - destruct s as [|b s]; simpl.
    + split; [done | intros [rest Hr]; discriminate].
    + rewrite andb_true_iff, N.eqb_eq, IH. split.
      * intros [-> [rest ->]]. by exists rest.
      * intros [rest Hr]. injection Hr as -> ->. split; [done | by exists rest].
Qed.

Lemma str_find_unfold (pat s : pystr) :
  str_find pat s =
  if startswith pat s then Some 0%nat
  else match s with
       | [] => None
       | _ :: s' => S <$> str_find pat s'
       end.
Proof. by destruct s. Qed.

Lemma str_find_occurs (pat before after : pystr) :
  exists k, str_find pat (before ++ pat ++ after) = Some k /\ (k <= length before)%nat.
Proof.
  induction before as [|c before IH]; simpl.
  - exists 0%nat. split; [|lia].
    assert (startswith pat (pat ++ after) = true) as Hs
      by (apply startswith_app; by exists after).
    by rewrite str_find_unfold, Hs.
  - destruct (startswith pat (c :: before ++ pat ++ after)).
    + exists 0%nat. split; [done | lia].
    + destruct IH as (k & -> & Hk). exists (S k). split; [done | lia].
Qed.

Lemma str_find_split (pat s : pystr) (i : nat) :
  str_find pat s = Some i ->
  exists after, s = take i s ++ pat ++ after /\ length (take i s) = i.
Proof.
  revert i. induction s as [|c s IH]; intros i; simpl.
  - destruct (startswith pat []) eqn:Hs; [|done].
    intros [= <-]. apply startswith_app in Hs as [rest Hr]. by exists rest.
  - destruct (startswith pat (c :: s)) eqn:Hs.
    + intros [= <-]. apply startswith_app in Hs as [rest Hr]. by exists rest.
    + destruct (str_find pat s) as [j|]; [|done]. simpl.
      intros [= <-]. destruct (IH j eq_refl) as (after & Heq & Hlen).
      exists after. simpl. by rewrite <- Heq, Hlen.
Qed.

(** [str_find] returns the index of the first occurrence. *)
Lemma str_find_first (pat s before after : pystr) :
  s = before ++ pat ++ after ->
  (forall before' after', s = before' ++ pat ++ after' ->
                          (length before <= length before')%nat) ->
  str_find pat s = Some (length before).
Proof.
  intros Heq Hmin.
  destruct (str_find_occurs pat before after) as (k & Hk & Hle).
  rewrite <- Heq in Hk. rewrite Hk. f_equal.
  destruct (str_find_split _ _ _ Hk) as (after' & Heq' & Hlen).
  apply Hmin in Heq'. lia.
Qed.

Lemma str_find_absent (pat s : pystr) :
  (forall before after, s <> before ++ pat ++ after) -> str_find pat s = None.
Proof.
  intros Hno. destruct (str_find pat s) as [i|] eqn:Hf; [|done].
  destruct (str_find_split _ _ _ Hf) as (after & Heq & _).
  by apply Hno in Heq.
Qed.

Lemma split_once_first (pat before after : pystr) :
  (forall before' after', before ++ pat ++ after = before' ++ pat ++ after' ->
                          (length before <= length before')%nat) ->
  split_once pat (before ++ pat ++ after) = Some (before, after).
Proof.
  intros Hmin. unfold split_once.
  rewrite (str_find_first pat _ before after eq_refl Hmin). simpl.
  rewrite take_app_length. do 2 f_equal.
  rewrite <- drop_drop, drop_app_length. apply drop_app_length.
Qed.

(** ** The monad *)

Lemma bind_unfold {A B} (m : M A) (k : A -> M B) (w : world) :
  (m ≫= k) w =
  match m w with
  | (Ok a, w') => k a w'
  | (Raise e, w') => (Raise e, w')
  end.
Proof. reflexivity. Qed.

Lemma bind_Ok {A B} (m : M A) (k : A -> M B) (w w' : world) (b : B) :
  (m ≫= k) w = (Ok b, w') ->
  exists a w1, m w = (Ok a, w1) /\ k a w1 = (Ok b, w').
Proof.
  rewrite bind_unfold. destruct (m w) as [[a|e] w1]; [|done].
  intros Hk. by exists a, w1.
Qed.

Lemma bind_Ok_intro {A B} (m : M A) (k : A -> M B) (w w1 : world) (a : A) :
  m w = (Ok a, w1) -> (m ≫= k) w = k a w1.
Proof. intros Hm. by rewrite bind_unfold, Hm. Qed.

Lemma lift_Ok {A} (r : res A) (w w' : world) (a : A) :
  lift r w = (Ok a, w') -> r = Ok a /\ w' = w.
Proof. unfold lift. by intros [= -> ->]. Qed.

Lemma same_outside_refl (w : world) : same_outside w w.
Proof. by repeat split. Qed.

Lemma same_outside_trans (w1 w2 w3 : world) :
  same_outside w1 w2 -> same_outside w2 w3 -> same_outside w1 w3.
Proof. unfold same_outside. intuition congruence. Qed.

Lemma quiet_calm {A} (m : M A) : quiet m -> calm m.
Proof.
  intros Hq w. destruct (Hq w) as [Ho Hr]. split; [done|].
  intros _. unfold failed_calls. by rewrite Hr.
Qed.

Lemma quiet_bind {A B} (m : M A) (k : A -> M B) :
  quiet m -> (forall a, quiet (k a)) -> quiet (m ≫= k).
Proof.
  intros Hm Hk w. rewrite bind_unfold. specialize (Hm w).
  destruct (m w) as [[a|e] w1]; simpl in *; [|done].
  destruct Hm as [Ho Hr]. destruct (Hk a w1) as [Ho' Hr'].
  split; [by eapply same_outside_trans | congruence].
Qed.

Lemma calm_bind {A B} (m : M A) (k : A -> M B) :
  calm m -> (forall a, calm (k a)) -> calm (m ≫= k).
Proof.
  intros Hm Hk w. rewrite bind_unfold. specialize (Hm w).
  destruct (m w) as [[a|e] w1]; simpl in *.
  - destruct Hm as [Ho Hf]. destruct (Hk a w1) as [Ho' Hf'].
    split; [by eapply same_outside_trans|].
    intros Hok. rewrite Hf' by done. by apply Hf.
  - destruct Hm as [Ho _]. by split.
Qed.

Lemma quiet_ret {A} (a : A) : quiet (mret a : M A).
Proof. intros w. split; [apply same_outside_refl | done]. Qed.

Lemma quiet_lift {A} (r : res A) : quiet (lift r).
Proof. intros w. split; [apply same_outside_refl | done]. Qed.

Lemma quiet_utcnow : quiet utcnow.
Proof. intros w. by repeat split. Qed.

Lemma quiet_random_lt_03 : quiet random_lt_03.
Proof. intros w. by repeat split. Qed.

Lemma quiet_random_choice {A} (l : list A) : quiet (random_choice l).
Proof.
  intros w. unfold random_choice.
  destruct (l !! randbelow w (length l)); by repeat split.
Qed.

Lemma calm_claude_create (m : model) (n : Z) (p : prompt) :
  calm (claude_create m n p).
Proof.
  intros w. unfold claude_create.
  destruct (w_llm w (w_step w)) as [text|] eqn:Hr; simpl.
  - split; [by repeat split|]. intros _. unfold failed_calls. simpl.
    rewrite filter_app, length_app, filter_cons_False by done.
    rewrite filter_nil. simpl. lia.
  - split; [by repeat split | done].
Qed.

Create HintDb quiet_db.
Create HintDb calm_db.

#[local] Hint Resolve quiet_ret quiet_lift quiet_utcnow quiet_random_lt_03
  quiet_random_choice : quiet_db.

(** Walk down a procedure, splitting at every bind and case. *)
Ltac walk bind_lemma db :=
  repeat first
    [ solve [auto with db]
    | apply bind_lemma; [| intros ?]
    | match goal with
      | |- context [match ?x with _ => _ end] => destruct x
      end ].

Lemma quiet_pick_fresh (options : list pystr) (used : list scalar) :
  quiet (pick_fresh options used).
Proof. unfold pick_fresh. walk @quiet_bind quiet_db. Qed.

Lemma quiet_get_callback_candidate (h : history) :
  quiet (get_callback_candidate h).
Proof. unfold get_callback_candidate. walk @quiet_bind quiet_db. Qed.

Lemma quiet_get_recent_posts (h : history) (days : Z) :
  quiet (get_recent_posts h days).
Proof. unfold get_recent_posts. walk @quiet_bind quiet_db. Qed.

#[local] Hint Resolve quiet_pick_fresh quiet_get_callback_candidate
  quiet_get_recent_posts : quiet_db.

Lemma quiet_build_context_block (h : history) : quiet (build_context_block h).
Proof. unfold build_context_block. walk @quiet_bind quiet_db. Qed.

#[local] Hint Resolve quiet_build_context_block : quiet_db.

#[local] Hint Resolve calm_claude_create : calm_db.
#[local] Hint Extern 1 (calm _) => apply quiet_calm; solve [auto with quiet_db] : calm_db.

Lemma calm_generate_summary (content : pystr) : calm (generate_summary content).
Proof. unfold generate_summary. walk @calm_bind calm_db. Qed.

#[local] Hint Resolve calm_generate_summary : calm_db.

Lemma calm_generate_fact (h : history) : calm (generate_fact h).
Proof. unfold generate_fact. walk @calm_bind calm_db. Qed.

Lemma calm_generate_what_if (h : history) : calm (generate_what_if h).
Proof. unfold generate_what_if. walk @calm_bind calm_db. Qed.

Lemma calm_generate_puzzle (h : history) : calm (generate_puzzle h).
Proof. unfold generate_puzzle. walk @calm_bind calm_db. Qed.

#[local] Hint Resolve calm_generate_fact calm_generate_what_if
  calm_generate_puzzle : calm_db.

Lemma calm_generate_connections (h : history) : calm (generate_connections h).
Proof. unfold generate_connections. walk @calm_bind calm_db. Qed.

#[local] Hint Resolve calm_generate_connections : calm_db.

Lemma calm_generate_content (mode : pystr) (h : history) :
  calm (generate_content mode h).
Proof. unfold generate_content. walk @calm_bind calm_db. Qed.

(** ** The history store *)

Lemma getitem_get (d : post) (k : string) :
  truthy (get d k) = true -> getitem d k = Ok (get d k).
Proof. unfold get, getitem. by destruct (d !! k). Qed.

(** [append_post] never raises; its result field by field. *)
Lemma append_post_Ok (h : history) (p : post) :
  append_post h p =
  Ok {| posts := posts h ++ [p];
        used_wonders :=
          if truthy (get p "wonder_type")
          then last_n 5 (used_wonders h ++ [get p "wonder_type"])
          else used_wonders h;
        used_topics :=
          if truthy (get p "topic")
          then last_n 8 (used_topics h ++ [get p "topic"])
          else used_topics h;
        pending_puzzle_answer := pending_puzzle_answer h;
        temp_answer := temp_answer h |}.
Proof.
  unfold append_post.
  destruct (truthy (get p "wonder_type")) eqn:Hw;
    destruct (truthy (get p "topic")) eqn:Ht;
    rewrite ?(getitem_get _ _ Hw), ?(getitem_get _ _ Ht); reflexivity.
Qed.

Lemma add_to_history_Ok (h : history) (p : post) (w : world) :
  exists h', append_post h p = Ok h' /\
             add_to_history h p w = (Ok h', write_file h' w).
Proof.
  eexists. split; [apply append_post_Ok|].
  unfold add_to_history. rewrite append_post_Ok. reflexivity.
Qed.

Lemma carried_cons (k : string) (p : post) (ps : list post) :
  carried k (p :: ps) =
  if truthy (get p k) then get p k :: carried k ps else carried k ps.
Proof.
  unfold carried. simpl. rewrite filter_cons.
  destruct (truthy (get p k)); by case_decide.
Qed.

Lemma carried_all (k : string) (ps : list post) :
  Forall (fun p => truthy (get p k) = true) ps ->
  carried k ps = map (fun p => get p k) ps.
Proof.
  induction 1 as [|p ps Hp _ IH]; [done|].
  by rewrite carried_cons, Hp, IH.
Qed.

Lemma add_all_closed (ps : list post) (h : history) (w : world) :
  bounded h ->
  exists h' w',
    add_all h ps w = (Ok h', w') /\
    posts h' = posts h ++ ps /\
    used_wonders h' = last_n 5 (used_wonders h ++ carried "wonder_type" ps) /\
    used_topics h' = last_n 8 (used_topics h ++ carried "topic" ps) /\
    pending_puzzle_answer h' = pending_puzzle_answer h /\
    temp_answer h' = temp_answer h /\
    (ps <> [] -> w_file w' = Some h').
Proof.
  revert h w. induction ps as [|p ps IH]; intros h w [Hw Ht].
  - exists h, w. simpl. rewrite !app_nil_r, !last_n_short by done. done.
  - destruct (add_to_history_Ok h p w) as (h1 & Hap & Hadd).
    rewrite append_post_Ok in Hap. injection Hap as Hh1.
    assert (Hb1 : bounded h1).
    { subst h1. split; simpl.
      - destruct (truthy _); [rewrite last_n_length; lia | done].
      - destruct (truthy (get p "topic")); [rewrite last_n_length; lia | done]. }
    destruct (IH h1 (write_file h1 w) Hb1)
      as (h' & w' & Hall & Hposts & Hws & Hts & Hpend & Htemp & Hfile).
    exists h', w'. simpl. rewrite (bind_Ok_intro _ _ _ _ _ Hadd).
    split; [done|]. rewrite Hposts, Hws, Hts, Hpend, Htemp, !carried_cons.
    subst h1; simpl. repeat split.
    + by rewrite <- app_assoc.
    + destruct (truthy (get p "wonder_type")); [|done].
      by rewrite last_n_app, <- app_assoc.
    + destruct (truthy (get p "topic")); [|done].
      by rewrite last_n_app, <- app_assoc.
    + intros _. destruct ps as [|q ps]; [|by apply Hfile].
      simpl in Hall. by injection Hall as <- <-.
Qed.

(** C4. Rotation window: after appending the posts [ps], one at a time, to
    the empty aggregate, [used_wonders] holds the last 5 of the wonder
    types the posts carried and [used_topics] the last 8 of their topics,
    in order; when all [N] posts carry a wonder type the list has length
    [min N 5]; and an append keeps the two bounds, so they hold in every
    state reached by appends. *)
Theorem rotation_window (ps : list post) (w : world) :
  (exists h w',
    add_all empty_history ps w = (Ok h, w') /\
    posts h = ps /\
    used_wonders h = last_n 5 (carried "wonder_type" ps) /\
    used_topics h = last_n 8 (carried "topic" ps) /\
    bounded h /\
    (Forall (fun p => truthy (get p "wonder_type") = true) ps ->
     length (used_wonders h) = Nat.min (length ps) 5 /\
     used_wonders h = last_n 5 (map (fun p => get p "wonder_type") ps)) /\
    (Forall (fun p => truthy (get p "topic") = true) ps ->
     length (used_topics h) = Nat.min (length ps) 8 /\
     used_topics h = last_n 8 (map (fun p => get p "topic") ps))) /\
  (forall h p w0, bounded h ->
     exists h', add_to_history h p w0 = (Ok h', write_file h' w0) /\ bounded h').
Proof.
  split.
  - destruct (add_all_closed ps empty_history w)
      as (h & w' & Hall & Hposts & Hws & Hts & _); [split; simpl; lia|].
    simpl in *. exists h, w'.
    assert (Hb : bounded h).
    { split; [rewrite Hws | rewrite Hts]; rewrite last_n_length; lia. }
    rewrite Hws, Hts.
    split; [done|]. split; [done|]. split; [done|]. split; [done|].
    split; [done|]. split; intros Hall'; rewrite carried_all by done;
      (split; [|done]); by rewrite last_n_length, length_map.
  - intros h p w0 [Hw Ht].
    destruct (add_to_history_Ok h p w0) as (h' & Hap & Hadd).
    exists h'. split; [done|].
    rewrite append_post_Ok in Hap. injection Hap as <-. split; simpl.
    + destruct (truthy _); [rewrite last_n_length; lia | done].
    + destruct (truthy (get p "topic")); [rewrite last_n_length; lia | done].
Qed.

(** C10. [add_to_history] returns, saves its result, and changes nothing but
    [posts], [used_wonders] and [used_topics]: the pending answer and the
    manual answer slot of the saved aggregate are those it was given. *)
Theorem add_to_history_frame (h : history) (p : post) (w : world) :
  exists h',
    add_to_history h p w = (Ok h', write_file h' w) /\
    w_file (add_to_history h p w).2 = Some h' /\
    pending_puzzle_answer h' = pending_puzzle_answer h /\
    temp_answer h' = temp_answer h.
Proof.
  destruct (add_to_history_Ok h p w) as (h' & Hap & Hadd).
  exists h'. rewrite Hadd. rewrite append_post_Ok in Hap.
  injection Hap as <-. done.
Qed.

(** ** Puzzle parsing *)

Lemma contains_occurs (pat before after : pystr) :
  contains pat (before ++ pat ++ after) = true.
Proof.
  unfold contains. apply bool_decide_eq_true.
  destruct (str_find_occurs pat before after) as (k & -> & _). by eexists.
Qed.

Lemma contains_absent (pat s : pystr) :
  (forall before after, s <> before ++ pat ++ after) -> contains pat s = false.
Proof.
  intros Hno. unfold contains. apply bool_decide_eq_false.
  rewrite (str_find_absent _ _ Hno). by intros [? ?].
Qed.

Lemma parse_puzzle_total (raw : pystr) :
  exists puzzle answer, parse_puzzle raw = Ok (puzzle, answer).
Proof.
  unfold parse_puzzle, contains, split_once. case_bool_decide as Hc.
  - destruct Hc as [i ->]. simpl. by eexists _, _.
  - by eexists _, _.
Qed.

(** The two requests a successful [generate_puzzle] issues and the record
    it builds from the first reply. *)
Lemma generate_puzzle_Ok (h : history) (w w' : world) (p : post) :
  generate_puzzle h w = (Ok p, w') ->
  exists context topic raw puzzle answer reply,
    w_requests w' = w_requests w ++
      [Request Sonnet 1024 (PuzzlePrompt context topic) (Some raw);
       Request Haiku 100 (SummaryPrompt puzzle) (Some reply)] /\
    parse_puzzle raw = Ok (puzzle, answer) /\
    p = dict [("content", SStr puzzle); ("mode", SStr (lit "puzzle"));
              ("topic", SStr topic); ("summary", SStr (strip reply));
              ("answer", SStr answer)].
Proof.
  unfold generate_puzzle. intros Hg.
  apply bind_Ok in Hg as (topic & w1 & Hpick & Hg).
  apply bind_Ok in Hg as (context & w2 & Hctx & Hg).
  apply bind_Ok in Hg as (raw & w3 & Hcall & Hg).
  apply bind_Ok in Hg as ([puzzle answer] & w4 & Hparse & Hg).
  apply lift_Ok in Hparse as [Hparse ->].
  apply bind_Ok in Hg as (summary & w5 & Hsum & Hg).
  injection Hg as <- <-.
  unfold generate_summary in Hsum.
  apply bind_Ok in Hsum as (reply & w6 & Hcall2 & Hsum).
  injection Hsum as <- <-.
  exists context, topic, raw, puzzle, answer, reply.
  split; [|done].
  pose proof (quiet_pick_fresh TOPICS (used_topics h) w) as [_ Hr1].
  pose proof (quiet_build_context_block h w1) as [_ Hr2].
  rewrite Hpick in Hr1. rewrite Hctx in Hr2. simpl in Hr1, Hr2.
  unfold claude_create in Hcall, Hcall2.
  destruct (w_llm w2 (w_step w2)) as [t|] eqn:Hl; [|done].
  injection Hcall as -> <-. simpl in Hcall2.
  destruct (w_llm w2 (S (w_step w2))) as [t'|] eqn:Hl'; [|done].
  injection Hcall2 as -> <-. simpl.
  by rewrite Hr2, Hr1, <- app_assoc.
Qed.

(** C7. Puzzle parsing: when the marker occurs in the model's reply, the
    puzzle is the text before its first occurrence and the answer the text
    after it, both stripped; when it does not occur, the puzzle is the whole
    reply and the answer the placeholder; the parse never fails; and these
    are the [content] and [answer] of the record [generate_puzzle] returns. *)
Theorem puzzle_parsing (raw : pystr) :
  (forall before after,
     raw = before ++ ANSWER_MARKER ++ after ->
     (forall before' after', raw = before' ++ ANSWER_MARKER ++ after' ->
                             (length before <= length before')%nat) ->
     parse_puzzle raw = Ok (strip before, strip after)) /\
  ((forall before after, raw <> before ++ ANSWER_MARKER ++ after) ->
   parse_puzzle raw = Ok (raw, ANSWER_PLACEHOLDER)) /\
  (exists puzzle answer, parse_puzzle raw = Ok (puzzle, answer)) /\
  parse_puzzle (lit "Puzzle text." ++ nl ++ nl ++ lit "ANSWER: 42")
    = Ok (lit "Puzzle text.", lit "42") /\
  (forall h w p w',
     generate_puzzle h w = (Ok p, w') ->
     exists context topic reply puzzle answer summary,
       w_requests w' = w_requests w ++
         [Request Sonnet 1024 (PuzzlePrompt context topic) (Some reply);
          Request Haiku 100 (SummaryPrompt puzzle) (Some summary)] /\
       parse_puzzle reply = Ok (puzzle, answer) /\
       p !! "content" = Some (SStr puzzle) /\
       p !! "answer" = Some (SStr answer) /\
       p !! "mode" = Some (SStr (lit "puzzle"))).
Proof.
  split; [|split; [|split; [|split]]].
  - intros before after -> Hmin. unfold parse_puzzle.
    by rewrite contains_occurs, split_once_first.
  - intros Hno. unfold parse_puzzle. by rewrite contains_absent.
  - apply parse_puzzle_total.
  - vm_compute. reflexivity.
  - intros h w p w' Hg.
    apply generate_puzzle_Ok in Hg
      as (context & topic & reply & puzzle & answer & summary & Hreq & Hparse & ->).
    exists context, topic, reply, puzzle, answer, summary.
    repeat split; done.
Qed.

(** ** The selection policy *)

Lemma randbelow_lt (w : world) (n : nat) : (0 < n)%nat -> (randbelow w n < n)%nat.
Proof. intros Hn. unfold randbelow. apply Nat.mod_upper_bound. lia. Qed.

Lemma random_choice_Ok {A} (l : list A) (w : world) :
  l <> [] ->
  exists x, random_choice l w = (Ok x, tick w) /\
            l !! randbelow w (length l) = Some x.
Proof.
  intros Hl. unfold random_choice.
  destruct (lookup_lt_is_Some_2 l (randbelow w (length l))) as [x Hx].
  { apply randbelow_lt. destruct l; [done | simpl; lia]. }
  exists x. by rewrite Hx.
Qed.

Lemma fresh_options_elem (options : list pystr) (used : list scalar) (o : pystr) :
  o ∈ fresh_options options used <-> o ∈ options /\ SStr o ∉ used.
Proof.
  unfold fresh_options. rewrite list_elem_of_filter.
  split; intros [? ?]; by split.
Qed.

Lemma pick_fresh_Ok (options : list pystr) (used : list scalar) (w : world) :
  options <> [] ->
  exists x, pick_fresh options used w = (Ok x, tick w) /\ x ∈ options.
Proof.
  intros Hne. unfold pick_fresh.
  destruct (fresh_options options used) as [|o fresh] eqn:Hf.
  - destruct (random_choice_Ok options w Hne) as (x & Hrun & Hx).
    exists x. split; [done|]. by eapply list_elem_of_lookup_2.
  - destruct (random_choice_Ok (o :: fresh) w) as (x & Hrun & Hx); [done|].
    exists x. split; [done|].
    apply list_elem_of_lookup_2 in Hx. rewrite <- Hf in Hx.
    by apply fresh_options_elem in Hx as [Hx _].
Qed.

(** C3 (amended). For a non-empty list of options [pick_fresh] returns:
    its result is the element at the drawn index of the options that are
    not in [recently_used] (in their order in [options]) when there is
    one, and of the full list otherwise; either way it is a member of
    [options]. *)
Theorem pick_fresh_spec (options : list pystr) (used : list scalar) (w : world) :
  options <> [] ->
  (forall o, o ∈ fresh_options options used <-> o ∈ options /\ SStr o ∉ used) /\
  exists x,
    pick_fresh options used w = (Ok x, tick w) /\
    x ∈ options /\
    (fresh_options options used <> [] ->
     fresh_options options used
       !! randbelow w (length (fresh_options options used)) = Some x /\
     (randbelow w (length (fresh_options options used))
        < length (fresh_options options used))%nat /\
     SStr x ∉ used) /\
    (fresh_options options used = [] ->
     options !! randbelow w (length options) = Some x /\
     (randbelow w (length options) < length options)%nat).
Proof.
  intros Hne. split; [apply fresh_options_elem|].
  unfold pick_fresh. destruct (fresh_options options used) as [|o fresh] eqn:Hf.
  - destruct (random_choice_Ok options w Hne) as (x & Hrun & Hx).
    exists x. split; [done|]. split; [by eapply list_elem_of_lookup_2|].
    split; [done|]. intros _. split; [done|]. by eapply lookup_lt_Some.
  - destruct (random_choice_Ok (o :: fresh) w) as (x & Hrun & Hx); [done|].
    exists x. split; [done|].
    assert (Hin : x ∈ fresh_options options used).
    { rewrite Hf. by eapply list_elem_of_lookup_2. }
    apply fresh_options_elem in Hin as [Hin Hnot].
    split; [done|]. split; [|done].
    intros _. split; [done|]. split; [by eapply lookup_lt_Some | done].
Qed.

Lemma days_ago_dated (now : Z) (p : post) :
  dated p -> exists t, post_date p = Ok t /\
                       days_ago now p = Ok ((now - dt_us t) / day_us).
Proof.
  intros (t & Ht & Hna). exists t. split; [done|].
  unfold days_ago, days_since. rewrite Ht. simpl. by rewrite Hna.
Qed.

Lemma select_filter (test : post -> res bool) (f : post -> bool) (l : list post) :
  Forall (fun p => test p = Ok (f p)) l ->
  select test l = Ok (filter (fun p => f p = true) l).
Proof.
  induction 1 as [|p l Hp _ IH]; [done|].
  simpl. rewrite Hp, IH. simpl. rewrite filter_cons.
  destruct (f p); by case_decide.
Qed.

Lemma is_recent_within (now days : Z) (p : post) :
  dated p -> is_recent now days p = Ok (within now days p).
Proof.
  intros Hd. destruct (days_ago_dated now p Hd) as (t & _ & Ha).
  unfold is_recent, within. by rewrite Ha.
Qed.

Lemma is_callback_in_band (now : Z) (p : post) :
  dated p -> is_callback now p = Ok (in_band now p).
Proof.
  intros Hd. destruct (days_ago_dated now p Hd) as (t & _ & Ha).
  unfold is_callback, in_band. by rewrite Ha.
Qed.

Lemma get_recent_posts_Ok (h : history) (days : Z) (w : world) :
  Forall dated (posts h) ->
  get_recent_posts h days w =
  (Ok (filter (fun p => within (w_clock w (w_step w)) days p = true) (posts h)),
   match posts h with [] => w | _ :: _ => tick w end).
Proof.
  intros Hd. unfold get_recent_posts.
  destruct (posts h) as [|p l] eqn:Hp; [done|].
  rewrite bind_unfold. unfold utcnow, lift. cbv beta match.
  rewrite (select_filter _ (within (w_clock w (w_step w)) days)); [done|].
  eapply Forall_impl; [exact Hd|]. intros q Hq. by apply is_recent_within.
Qed.

Lemma days_ago_Ok_dated (now : Z) (p : post) (d : Z) :
  days_ago now p = Ok d -> dated p.
Proof.
  unfold days_ago, dated, days_since.
  destruct (post_date p) as [t|e]; [|done]. simpl.
  destruct (dt_aware t) eqn:Ha; [done|]. intros _. by exists t.
Qed.

Lemma select_Ok_Forall (test : post -> res bool) (P : post -> Prop)
    (l out : list post) :
  (forall p b, test p = Ok b -> P p) -> select test l = Ok out -> Forall P l.
Proof.
  intros HP. revert out. induction l as [|p l IH]; intros out; simpl.
  - intros _. constructor.
  - destruct (test p) as [b|e] eqn:Hp; [|done]. simpl.
    destruct (select test l) as [rest|e]; [|done]. intros _.
    constructor; [by eapply HP | by eapply IH].
Qed.

(** A loop over the posts that reads every date ends only when every
    post is dated. *)
Lemma get_recent_posts_Ok_dated (h : history) (days : Z) (w w' : world)
    (l : list post) :
  get_recent_posts h days w = (Ok l, w') -> Forall dated (posts h).
Proof.
  unfold get_recent_posts. destruct (posts h) as [|p ps]; [constructor|].
  rewrite bind_unfold. unfold utcnow, lift. cbv beta match.
  intros Hs. injection Hs as Hs _.
  eapply select_Ok_Forall; [|exact Hs]. intros q b Hq.
  unfold is_recent in Hq.
  destruct (days_ago (w_clock w (w_step w)) q) as [d|e] eqn:Hd; [|done].
  by eapply days_ago_Ok_dated.
Qed.

Lemma get_callback_candidate_Ok_dated (h : history) (w w' : world)
    (r : option post) :
  (7 <= length (posts h))%nat ->
  get_callback_candidate h w = (Ok r, w') -> Forall dated (posts h).
Proof.
  intros Hge. unfold get_callback_candidate.
  apply Nat.ltb_ge in Hge. rewrite Hge.
  rewrite bind_unfold. unfold utcnow. cbv beta match.
  rewrite bind_unfold. unfold lift.
  destruct (select (is_callback (w_clock w (w_step w))) (posts h))
    as [candidates|e] eqn:Hs; [|done].
  intros _. eapply select_Ok_Forall; [|exact Hs]. intros q b Hq.
  unfold is_callback in Hq.
  destruct (days_ago (w_clock w (w_step w)) q) as [d|e] eqn:Hd; [|done].
  by eapply days_ago_Ok_dated.
Qed.

(** C8 (amended). [get_recent_posts] returns exactly for the histories
    whose posts are all dated (each [date] parses to a naive datetime; a
    post without such a date makes it raise), and what it returns is the
    list of the posts whose whole-day age, the floor of [(now - date)] in
    days, is at most the window, in their original order; with window 7,
    posts of age 0, 6 and 8 days yield the first two. *)
Theorem recent_posts_spec (h : history) (days : Z) (w : world) :
  let now := w_clock w (w_step w) in
  (Forall dated (posts h) <->
   exists l w', get_recent_posts h days w = (Ok l, w')) /\
  (forall l w', get_recent_posts h days w = (Ok l, w') ->
     l = filter (fun p => within now days p = true) (posts h)) /\
  (Forall dated (posts h) ->
   (exists w', get_recent_posts h days w =
               (Ok (filter (fun p => within now days p = true) (posts h)), w')) /\
   (forall p, p ∈ posts h ->
      exists t, post_date p = Ok t /\
                (within now days p = true <-> (now - dt_us t) / day_us <= days)) /\
   (forall p0 p6 p8,
      posts h = [p0; p6; p8] ->
      days_ago now p0 = Ok 0 -> days_ago now p6 = Ok 6 -> days_ago now p8 = Ok 8 ->
      get_recent_posts h 7 w = (Ok [p0; p6], tick w))).
Proof.
  intros now. split; [split|split].
  - intros Hd. eexists _, _. by apply get_recent_posts_Ok.
  - intros (l & w' & Hrun). by eapply get_recent_posts_Ok_dated.
  - intros l w' Hrun.
    pose proof (get_recent_posts_Ok_dated _ _ _ _ _ Hrun) as Hd.
    rewrite (get_recent_posts_Ok _ _ _ Hd) in Hrun. by injection Hrun as <- _.
  - intros Hd. split; [|split].
    + eexists. by apply get_recent_posts_Ok.
    + intros p Hp. rewrite Forall_forall in Hd. specialize (Hd p Hp).
      destruct (days_ago_dated now p Hd) as (t & Ht & Ha).
      exists t. split; [done|]. unfold within. rewrite Ha. apply Z.leb_le.
    + intros p0 p6 p8 Hps H0 H6 H8.
      rewrite get_recent_posts_Ok by done. rewrite Hps.
      rewrite !filter_cons, filter_nil. unfold within. fold now.
      rewrite H0, H6, H8. reflexivity.
Qed.

(** C5 (amended). [get_callback_candidate] returns none when there are
    fewer than 7 posts, whatever they hold.  With 7 or more posts it
    returns exactly when every post is dated (a post without a date that
    parses makes it raise); it then returns none when no fact has a
    whole-day age in the band from 7 to 21, and otherwise the candidate at
    the drawn index of the list of the facts in that band. *)
Theorem callback_candidate_spec (h : history) (w : world) :
  ((length (posts h) < 7)%nat -> get_callback_candidate h w = (Ok None, w)) /\
  ((7 <= length (posts h))%nat ->
   (Forall dated (posts h) <->
    exists r w', get_callback_candidate h w = (Ok r, w'))) /\
  ((7 <= length (posts h))%nat -> Forall dated (posts h) ->
   let now := w_clock w (w_step w) in
   let candidates := filter (fun p => in_band now p = true) (posts h) in
   (forall p, p ∈ candidates <->
      p ∈ posts h /\ exists d, days_ago now p = Ok d /\ 7 <= d <= 21 /\
                               get p "mode" = SStr (lit "fact")) /\
   (candidates = [] -> get_callback_candidate h w = (Ok None, tick w)) /\
   (candidates <> [] ->
    exists p, get_callback_candidate h w = (Ok (Some p), tick (tick w)) /\
              candidates !! randbelow (tick w) (length candidates) = Some p /\
              (randbelow (tick w) (length candidates) < length candidates)%nat)).
Proof.
  assert (Hrun : (7 <= length (posts h))%nat -> Forall dated (posts h) ->
    let now := w_clock w (w_step w) in
    let candidates := filter (fun p => in_band now p = true) (posts h) in
    (candidates = [] -> get_callback_candidate h w = (Ok None, tick w)) /\
    (candidates <> [] ->
     exists p, get_callback_candidate h w = (Ok (Some p), tick (tick w)) /\
               candidates !! randbelow (tick w) (length candidates) = Some p /\
               (randbelow (tick w) (length candidates) < length candidates)%nat)).
  { intros Hge Hd now candidates. split.
    - intros Hnil. unfold get_callback_candidate.
      apply Nat.ltb_ge in Hge. rewrite Hge.
      rewrite bind_unfold. unfold utcnow. cbv beta match.
      rewrite bind_unfold. unfold lift.
      rewrite (select_filter _ (in_band now)).
      + fold candidates. by rewrite Hnil.
      + eapply Forall_impl; [exact Hd|]. intros q Hq. by apply is_callback_in_band.
    - intros Hne. unfold get_callback_candidate.
      apply Nat.ltb_ge in Hge. rewrite Hge.
      rewrite bind_unfold. unfold utcnow. cbv beta match.
      rewrite bind_unfold. unfold lift.
      rewrite (select_filter _ (in_band now)).
      + fold candidates.
        destruct (random_choice_Ok candidates (tick w) Hne) as (p & Hrun & Hp).
        exists p. destruct candidates as [|c cs] eqn:Hc; [done|].
        rewrite bind_unfold, Hrun. split; [done|]. split; [done|].
        by eapply lookup_lt_Some.
      + eapply Forall_impl; [exact Hd|]. intros q Hq. by apply is_callback_in_band. }
  split; [|split].
  - intros Hlt. unfold get_callback_candidate.
    apply Nat.ltb_lt in Hlt. by rewrite Hlt.
  - intros Hge. split.
    + intros Hd. destruct (Hrun Hge Hd) as [Hnil Hne].
      destruct (filter (fun p => in_band (w_clock w (w_step w)) p = true) (posts h))
        as [|c cs] eqn:Hc.
      * eexists _, _. by apply Hnil.
      * destruct Hne as (p & Hp & _); [done|]. by eexists _, _.
    + intros (r & w' & Hr). by eapply get_callback_candidate_Ok_dated.
  - intros Hge Hd now candidates. split; [|by apply Hrun].
    intros p. unfold candidates. rewrite list_elem_of_filter.
    unfold in_band. split.
    + intros [Hb Hp]. split; [done|].
      destruct (days_ago now p) as [d|]; [|done]. exists d.
      apply andb_true_iff in Hb as [Hb Hm].
      apply andb_true_iff in Hb as [H7 H21].
      apply bool_decide_eq_true in Hm. split; [done|]. split; [lia | done].
    + intros [Hp (d & -> & Hband & Hm)]. split; [|done].
      rewrite !andb_true_iff, bool_decide_eq_true. split; [lia | done].
Qed.

(** ** Generators *)

Lemma succeeds_bind {A B} (m : M A) (k : A -> M B) (Q : A -> Prop) (R : B -> Prop) :
  succeeds m Q -> (forall a, Q a -> succeeds (k a) R) -> succeeds (m ≫= k) R.
Proof.
  intros Hm Hk w Hw. destruct (Hm w Hw) as (a & w1 & Hrun & Hw1 & Ha).
  destruct (Hk a Ha w1 Hw1) as (b & w2 & Hrun' & Hw2 & Hb).
  exists b, w2. by rewrite (bind_Ok_intro _ _ _ _ _ Hrun).
Qed.

Lemma succeeds_ret {A} (a : A) (Q : A -> Prop) : Q a -> succeeds (mret a : M A) Q.
Proof. intros Ha w Hw. by exists a, w. Qed.

Lemma succeeds_weaken {A} (m : M A) (Q R : A -> Prop) :
  succeeds m Q -> (forall a, Q a -> R a) -> succeeds m R.
Proof.
  intros Hm HQR w Hw. destruct (Hm w Hw) as (a & w' & Hrun & Hw' & Ha).
  exists a, w'. auto.
Qed.

Lemma succeeds_quiet {A} (m : M A) (Q : A -> Prop) :
  quiet m -> (forall w, exists a w', m w = (Ok a, w') /\ Q a) -> succeeds m Q.
Proof.
  intros Hq Hm w Hw. destruct (Hm w) as (a & w' & Hrun & Ha).
  exists a, w'. split; [done|]. split; [|done].
  destruct (Hq w) as [(_ & _ & _ & Hllm & _) _]. rewrite Hrun in Hllm.
  intros k. simpl in Hllm. rewrite Hllm. apply Hw.
Qed.

Lemma succeeds_claude_create (m : model) (n : Z) (p : prompt) :
  succeeds (claude_create m n p) (fun _ => True).
Proof.
  intros w Hw. unfold claude_create.
  destruct (Hw (w_step w)) as [text ->]. by eexists _, _.
Qed.

Lemma succeeds_generate_summary (content : pystr) :
  succeeds (generate_summary content) (fun _ => True).
Proof.
  unfold generate_summary. eapply succeeds_bind; [apply succeeds_claude_create|].
  intros text _. by apply succeeds_ret.
Qed.

Lemma TOPICS_nonempty : TOPICS <> [].
Proof. done. Qed.

Lemma WONDER_TYPES_nonempty : WONDER_TYPES <> [].
Proof. done. Qed.

Lemma succeeds_pick_fresh (options : list pystr) (used : list scalar) :
  options <> [] -> succeeds (pick_fresh options used) (fun x => x ∈ options).
Proof.
  intros Hne. apply succeeds_quiet; [apply quiet_pick_fresh|].
  intros w. destruct (pick_fresh_Ok options used w Hne) as (x & Hrun & Hx).
  by exists x, (tick w).
Qed.

Lemma map_res_Ok {A B} (f : A -> res B) (l : list A) :
  Forall (fun a => exists b, f a = Ok b) l -> exists bs, map_res f l = Ok bs.
Proof.
  induction 1 as [|a l [b Hb] _ [bs IH]]; [by exists []|].
  exists (b :: bs). simpl. by rewrite Hb, IH.
Qed.

Lemma context_line_Ok (p : post) :
  well_formed p -> exists line, context_line p = Ok line.
Proof.
  intros [(t & Hdate & _) [s Hs]]. unfold context_line.
  unfold post_date in Hdate.
  destruct (getitem p "date") as [[| |d]|]; try done. simpl.
  rewrite Hs. simpl. by eexists.
Qed.

Lemma digest_line_Ok (p : post) :
  well_formed p -> exists line, digest_line p = Ok line.
Proof.
  intros [_ [s Hs]]. unfold digest_line. rewrite Hs. simpl. by eexists.
Qed.

Lemma well_formed_dated (l : list post) :
  Forall well_formed l -> Forall dated l.
Proof. intros Hl. eapply Forall_impl; [exact Hl|]. by intros p [Hd _]. Qed.

Lemma last_n_Forall {A} (P : A -> Prop) (n : nat) (l : list A) :
  Forall P l -> Forall P (last_n n l).
Proof. apply Forall_drop. Qed.

Lemma filter_Forall {A} (P : A -> Prop) (f : A -> bool) (l : list A) :
  Forall P l -> Forall P (filter (fun a => f a = true) l).
Proof.
  rewrite !Forall_forall. intros Hl a Ha.
  apply list_elem_of_filter in Ha as [_ Ha]. auto.
Qed.

Lemma succeeds_build_context_block (h : history) :
  Forall well_formed (posts h) ->
  succeeds (build_context_block h) (fun _ => True).
Proof.
  intros Hwf. apply succeeds_quiet; [apply quiet_build_context_block|].
  intros w. unfold build_context_block.
  rewrite bind_unfold, get_recent_posts_Ok by by apply well_formed_dated.
  set (recent := filter _ (posts h)).
  assert (Hrec : Forall well_formed recent) by by apply filter_Forall.
  destruct recent as [|r recent]; [by eexists _, _|].
  destruct (map_res_Ok context_line (last_n 10 (r :: recent))) as [lines Hl].
  { eapply Forall_impl; [by apply last_n_Forall|]. apply context_line_Ok. }
  rewrite bind_unfold. unfold lift. rewrite Hl. by eexists _, _.
Qed.

Lemma get_callback_candidate_Ok (h : history) (w : world) :
  Forall dated (posts h) ->
  exists o w', get_callback_candidate h w = (Ok o, w') /\
               forall c, o = Some c -> c ∈ posts h.
Proof.
  intros Hd. unfold get_callback_candidate.
  destruct (length (posts h) <? 7)%nat; [by eexists _, _|].
  rewrite bind_unfold. unfold utcnow. cbv beta match.
  rewrite bind_unfold. unfold lift.
  rewrite (select_filter _ (in_band (w_clock w (w_step w)))).
  - destruct (filter _ (posts h)) as [|c cs] eqn:Hc; [by eexists _, _|].
    destruct (random_choice_Ok (c :: cs) (tick w)) as (p & Hrun & Hp); [done|].
    rewrite bind_unfold, Hrun. eexists _, _. split; [done|].
    intros ? [= <-]. apply list_elem_of_lookup_2 in Hp. rewrite <- Hc in Hp.
    by apply list_elem_of_filter in Hp as [_ Hp].
  - eapply Forall_impl; [exact Hd|]. intros q Hq. by apply is_callback_in_band.
Qed.

Lemma succeeds_get_callback_candidate (h : history) :
  Forall dated (posts h) ->
  succeeds (get_callback_candidate h)
           (fun o => forall c, o = Some c -> dated c).
Proof.
  intros Hd. apply succeeds_quiet; [apply quiet_get_callback_candidate|].
  intros w. destruct (get_callback_candidate_Ok h w Hd) as (o & w' & Hrun & Ho).
  exists o, w'. split; [done|]. intros c Hc.
  rewrite Forall_forall in Hd. auto.
Qed.

Lemma succeeds_generate_fact (h : history) :
  Forall well_formed (posts h) ->
  succeeds (generate_fact h) (fun _ => True).
Proof.
  intros Hwf. pose proof (well_formed_dated _ Hwf) as Hd.
  unfold generate_fact.
  eapply succeeds_bind; [apply succeeds_pick_fresh, TOPICS_nonempty|].
  intros topic _.
  eapply succeeds_bind; [apply succeeds_pick_fresh, WONDER_TYPES_nonempty|].
  intros wonder _.
  eapply succeeds_bind; [by apply succeeds_build_context_block|].
  intros context _.
  eapply succeeds_bind.
  { apply (succeeds_quiet random_lt_03 (fun _ => True)); [apply quiet_random_lt_03|].
    intros w. by eexists _, _. }
  intros coin _.
  eapply succeeds_bind with (Q := fun _ => True).
  { destruct coin; [|by apply succeeds_ret].
    eapply succeeds_bind; [by apply succeeds_get_callback_candidate|].
    intros [c|] Hc; [|by apply succeeds_ret].
    specialize (Hc c eq_refl).
    apply succeeds_quiet.
    { walk @quiet_bind quiet_db. }
    intros w. rewrite bind_unfold. unfold utcnow. cbv beta match.
    destruct (days_ago_dated (w_clock w (w_step w)) c Hc) as (t & _ & Ha).
    rewrite bind_unfold. unfold lift. rewrite Ha. by eexists _, _. }
  intros [callback callback_text] _.
  eapply succeeds_bind; [apply succeeds_claude_create|].
  intros content _.
  eapply succeeds_bind; [apply succeeds_generate_summary|].
  intros summary _. by apply succeeds_ret.
Qed.

(** The record a successful [generate_fact] returns. *)
Lemma generate_fact_Ok (h : history) (w w' : world) (p : post) :
  generate_fact h w = (Ok p, w') ->
  exists topic wonder content summary callback,
    pick_fresh TOPICS (used_topics h) w = (Ok topic, tick w) /\
    pick_fresh WONDER_TYPES (used_wonders h) (tick w) = (Ok wonder, tick (tick w)) /\
    topic ∈ TOPICS /\ wonder ∈ WONDER_TYPES /\
    p = dict [("content", SStr content); ("mode", SStr (lit "fact"));
              ("topic", SStr topic); ("wonder_type", SStr wonder);
              ("summary", SStr summary); ("had_callback", SBool callback)].
Proof.
  unfold generate_fact. intros Hg.
  apply bind_Ok in Hg as (topic & w1 & Hpick & Hg).
  apply bind_Ok in Hg as (wonder & w2 & Hpick' & Hg).
  apply bind_Ok in Hg as (context & w3 & _ & Hg).
  apply bind_Ok in Hg as (coin & w4 & _ & Hg).
  apply bind_Ok in Hg as ([callback callback_text] & w5 & _ & Hg).
  apply bind_Ok in Hg as (content & w6 & _ & Hg).
  apply bind_Ok in Hg as (summary & w7 & _ & Hg).
  injection Hg as <- <-.
  destruct (pick_fresh_Ok TOPICS (used_topics h) w TOPICS_nonempty)
    as (x & Hrun & Hx).
  rewrite Hrun in Hpick. injection Hpick as -> <-.
  destruct (pick_fresh_Ok WONDER_TYPES (used_wonders h) (tick w)
              WONDER_TYPES_nonempty) as (y & Hrun' & Hy).
  rewrite Hrun' in Hpick'. injection Hpick' as -> <-.
  by eexists topic, wonder, content, summary, _.
Qed.

(** C6 (amended). Connections degradation: when fewer than 3 posts have a
    whole-day age of at most 7, every record that [generate_connections]
    returns is the one [generate_fact] returns: its [mode] is "fact", not
    "connections", with the topic and the wonder type that [pick_fresh]
    selects.  When every post is dated it is [generate_fact] outright (a
    post without a date that parses makes it raise instead), and it does
    return a record when in addition the posts have string summaries and
    the model answers. *)
Theorem connections_degrades (h : history) (w : world) :
  (length (filter (fun p => within (w_clock w (w_step w)) 7 p = true) (posts h))
     < 3)%nat ->
  let w1 := (get_recent_posts h 7 w).2 in
  (Forall dated (posts h) -> generate_connections h w = generate_fact h w1) /\
  (forall p w', generate_connections h w = (Ok p, w') ->
     generate_fact h w1 = (Ok p, w') /\
     p !! "mode" = Some (SStr (lit "fact")) /\
     p !! "mode" <> Some (SStr (lit "connections")) /\
     exists topic wonder,
       pick_fresh TOPICS (used_topics h) w1 = (Ok topic, tick w1) /\
       pick_fresh WONDER_TYPES (used_wonders h) (tick w1)
         = (Ok wonder, tick (tick w1)) /\
       topic ∈ TOPICS /\ wonder ∈ WONDER_TYPES /\
       p !! "topic" = Some (SStr topic) /\
       p !! "wonder_type" = Some (SStr wonder)) /\
  (Forall well_formed (posts h) -> llm_total w ->
   exists p w', generate_connections h w = (Ok p, w')).
Proof.
  intros Hfew w1.
  assert (Heq : Forall dated (posts h) ->
                generate_connections h w = generate_fact h w1).
  { intros Hd. unfold generate_connections, w1.
    rewrite bind_unfold, get_recent_posts_Ok by done.
    simpl. apply Nat.ltb_lt in Hfew. by rewrite Hfew. }
  split; [done|]. split.
  - intros p w' Hg.
    assert (Hd : Forall dated (posts h)).
    { unfold generate_connections in Hg.
      apply bind_Ok in Hg as (recent & w2 & Hrec & _).
      by eapply get_recent_posts_Ok_dated. }
    rewrite (Heq Hd) in Hg. split; [done|].
    apply generate_fact_Ok in Hg
      as (topic & wonder & content & summary & callback
          & Hpick & Hpick' & Ht & Hw & ->).
    split; [done|]. split; [done|]. by exists topic, wonder.
  - intros Hwf Hllm. rewrite (Heq (well_formed_dated _ Hwf)).
    destruct (succeeds_generate_fact h Hwf w1) as (p & w' & Hrun & _).
    + unfold w1. destruct (quiet_get_recent_posts h 7 w) as [(_ & _ & _ & Hl & _) _].
      intros k. rewrite Hl. apply Hllm.
    + by exists p, w'.
Qed.

(** ** Invocations *)

Lemma callfree_bind {A B} (m : M A) (k : A -> M B) :
  callfree m -> (forall a, callfree (k a)) -> callfree (m ≫= k).
Proof.
  intros Hm Hk w. rewrite bind_unfold. specialize (Hm w).
  destruct (m w) as [[a|e] w1]; simpl in *; [|done].
  by rewrite Hk.
Qed.

Lemma callfree_atomic {A} (m : M A) : callfree m -> atomic m.
Proof. intros Hm w Hf. exfalso. apply Hf. unfold failed_calls. by rewrite Hm. Qed.

Lemma atomic_bind {A B} (m : M A) (k : A -> M B) :
  calm m -> (forall a, atomic (k a)) -> atomic (m ≫= k).
Proof.
  intros Hm Hk w. rewrite bind_unfold. specialize (Hm w).
  destruct (m w) as [[a|e] w1]; simpl in *.
  - destruct Hm as [(Hfile & _ & _ & _ & _ & _ & _ & Hsent & _) Hf].
    rewrite <- Hfile, <- Hsent, <- Hf by done. apply Hk.
  - intros _. by destruct Hm as [(Hfile & _ & _ & _ & _ & _ & _ & Hsent & _) _].
Qed.

Lemma atomic_try_except (m : M unit) :
  atomic m -> atomic (try_except m (fun e => print (LogError e))).
Proof.
  intros Hm w. unfold try_except. specialize (Hm w).
  destruct (m w) as [[a|e] w1]; simpl in *; done.
Qed.

Lemma fileless_bind {A B} (m : M A) (k : A -> M B) :
  fileless m -> (forall a, fileless (k a)) -> fileless (m ≫= k).
Proof.
  intros Hm Hk f w. rewrite !bind_unfold, Hm.
  destruct (m w) as [[a|e] w1]; simpl; [apply Hk | done].
Qed.

Lemma callfree_ret {A} (a : A) : callfree (mret a : M A).
Proof. done. Qed.
Lemma callfree_lift {A} (r : res A) : callfree (lift r).
Proof. done. Qed.
Lemma callfree_utcnow : callfree utcnow.
Proof. done. Qed.
Lemma callfree_print (l : logline) : callfree (print l).
Proof. done. Qed.
Lemma callfree_save_history (h : history) : callfree (save_history h).
Proof. done. Qed.
Lemma callfree_load_history : callfree load_history.
Proof. done. Qed.
Lemma callfree_send_message (m : message) : callfree (send_message m).
Proof. intros w. unfold send_message. by destruct (w_send_ok w (w_step w)). Qed.
Lemma callfree_send (e : embed) : callfree (send e).
Proof. apply callfree_send_message. Qed.
Lemma callfree_send_text (s : pystr) : callfree (send_text s).
Proof. apply callfree_send_message. Qed.

Create HintDb callfree_db.
#[local] Hint Resolve callfree_ret callfree_lift callfree_utcnow callfree_print
  callfree_save_history callfree_load_history callfree_send
  callfree_send_text : callfree_db.

Lemma callfree_add_to_history (h : history) (p : post) :
  callfree (add_to_history h p).
Proof. unfold add_to_history. walk @callfree_bind callfree_db. Qed.

#[local] Hint Resolve callfree_add_to_history : callfree_db.

Lemma fileless_ret {A} (a : A) : fileless (mret a : M A).
Proof. done. Qed.
Lemma fileless_lift {A} (r : res A) : fileless (lift r).
Proof. done. Qed.
Lemma fileless_utcnow : fileless utcnow.
Proof. done. Qed.
Lemma fileless_random_lt_03 : fileless random_lt_03.
Proof. done. Qed.
Lemma fileless_random_choice {A} (l : list A) : fileless (random_choice l).
Proof.
  intros f w. unfold random_choice.
  change (randbelow (put_file f w)) with (randbelow w).
  by destruct (l !! randbelow w (length l)).
Qed.
Lemma fileless_claude_create (m : model) (n : Z) (p : prompt) :
  fileless (claude_create m n p).
Proof.
  intros f w. unfold claude_create. simpl.
  by destruct (w_llm w (w_step w)).
Qed.
Lemma fileless_send (e : embed) : fileless (send e).
Proof.
  intros f w. unfold send, send_message. simpl.
  by destruct (w_send_ok w (w_step w)).
Qed.

Create HintDb fileless_db.
#[local] Hint Resolve fileless_ret fileless_lift fileless_utcnow
  fileless_random_lt_03 fileless_random_choice fileless_claude_create
  fileless_send : fileless_db.

Lemma fileless_pick_fresh (options : list pystr) (used : list scalar) :
  fileless (pick_fresh options used).
Proof. unfold pick_fresh. walk @fileless_bind fileless_db. Qed.

Lemma fileless_get_recent_posts (h : history) (days : Z) :
  fileless (get_recent_posts h days).
Proof. unfold get_recent_posts. walk @fileless_bind fileless_db. Qed.

#[local] Hint Resolve fileless_pick_fresh fileless_get_recent_posts : fileless_db.

Lemma fileless_build_context_block (h : history) :
  fileless (build_context_block h).
Proof. unfold build_context_block. walk @fileless_bind fileless_db. Qed.

#[local] Hint Resolve fileless_build_context_block : fileless_db.

Lemma fileless_generate_summary (content : pystr) :
  fileless (generate_summary content).
Proof. unfold generate_summary. walk @fileless_bind fileless_db. Qed.

#[local] Hint Resolve fileless_generate_summary : fileless_db.



Lemma get_puzzle_run (author : pystr) (w : world) :
  get_puzzle author w =
  match generate_puzzle (loaded w) w with
  | (Ok result, w1) =>
      match title (get_or result "topic" (lit "Math & Physics")),
            getitem result "content" with
      | Ok t, Ok content =>
          let e := {| e_title := lit "Puzzle: " ++ t;
                      e_description := content;
                      e_color := 0xFEE75C;
                      e_timestamp := Some (w_clock w1 (w_step w1));
                      e_footer := Some (lit "Requested by " ++ author
                                          ++ lit " | Answer: use !answer");
                      e_fields := [] |} in
          let h' := set_temp_answer
                      (get_or result "answer" (lit "No answer available"))
                      (loaded w) in
          send e (write_file h' (tick w1))
      | Raise x, _ => (Raise x, w1)
      | Ok _, Raise x => (Raise x, w1)
      end
  | (Raise x, w1) => (Raise x, w1)
  end.
Proof.
  unfold get_puzzle. rewrite bind_unfold. unfold load_history at 1.
  cbv beta match. fold (loaded w). rewrite bind_unfold.
  destruct (generate_puzzle (loaded w) w) as [[result|x] w1]; [|done].
  rewrite bind_unfold. unfold lift at 1. cbv beta match.
  destruct (title _) as [t|x]; [|done].
  rewrite bind_unfold. unfold lift at 1. cbv beta match.
  destruct (getitem result "content") as [content|x]; [|done].
  reflexivity.
Qed.

Lemma send_file (e : embed) (w : world) : w_file (send e w).2 = w_file w.
Proof. unfold send, send_message. by destruct (w_send_ok w (w_step w)). Qed.




Lemma quiet_load_history : quiet load_history.
Proof. intros w. split; [apply same_outside_refl | done]. Qed.

Lemma quiet_get_channel : quiet get_channel.
Proof. intros w. split; [apply same_outside_refl | done]. Qed.

#[local] Hint Resolve quiet_load_history quiet_get_channel : quiet_db.
#[local] Hint Resolve calm_generate_content : calm_db.

(** Walk down an invocation: the steps up to the first one that touches
    the channel or the file are calm, the rest issues no model call. *)
Ltac calm_walk :=
  repeat first
    [ solve [auto with calm_db]
    | apply calm_bind; [| intros ?]
    | match goal with
      | |- context [match ?x with _ => _ end] => destruct x
      end ].

Ltac callfree_walk :=
  repeat first
    [ solve [auto with callfree_db]
    | apply callfree_bind; [| intros ?]
    | match goal with
      | |- context [match ?x with _ => _ end] => destruct x
      end ].

Ltac atomic_walk :=
  repeat first
    [ apply atomic_bind; [solve [calm_walk] | intros ?]
    | match goal with
      | |- context [let '(_, _) := ?x in _] => destruct x
      end ];
  try (apply callfree_atomic; solve [callfree_walk]).

Lemma atomic_daily_post_body : atomic daily_post_body.
Proof. unfold daily_post_body. atomic_walk. Qed.

Lemma atomic_daily_post : atomic daily_post.
Proof.
  unfold daily_post. apply atomic_bind; [calm_walk|].
  intros [|]; simpl.
  - apply atomic_try_except, atomic_daily_post_body.
  - apply callfree_atomic, callfree_print.
Qed.

Lemma atomic_get_fact (author : pystr) (topic : option pystr) :
  atomic (get_fact author topic).
Proof. unfold get_fact. atomic_walk. Qed.

Lemma atomic_get_what_if (author : pystr) : atomic (get_what_if author).
Proof. unfold get_what_if. atomic_walk. Qed.

Lemma atomic_get_puzzle (author : pystr) : atomic (get_puzzle author).
Proof. unfold get_puzzle. atomic_walk. Qed.

Lemma atomic_get_answer : atomic get_answer.
Proof. unfold get_answer. atomic_walk. Qed.

Lemma atomic_show_history (count : Z) : atomic (show_history count).
Proof. unfold show_history. atomic_walk. Qed.

Lemma atomic_show_schedule : atomic show_schedule.
Proof. unfold show_schedule. atomic_walk. Qed.

(** C2. Atomicity on failure: if a model call raised in the course of an
    invocation, nothing was sent and the history file is left as it was:
    the aggregate a later invocation loads has the same posts, rotation
    lists and pending answer. *)
Theorem failure_atomicity (i : invocation) (w : world) :
  failed_calls (run i w).2 <> failed_calls w ->
  w_file (run i w).2 = w_file w /\
  w_sent (run i w).2 = w_sent w /\
  posts (loaded (run i w).2) = posts (loaded w) /\
  used_wonders (loaded (run i w).2) = used_wonders (loaded w) /\
  used_topics (loaded (run i w).2) = used_topics (loaded w) /\
  pending_puzzle_answer (loaded (run i w).2) = pending_puzzle_answer (loaded w).
Proof.
  intros Hfail.
  assert (Hatomic : w_file (run i w).2 = w_file w /\
                    w_sent (run i w).2 = w_sent w).
  { destruct i; simpl in *.
    - by apply atomic_daily_post.
    - by apply atomic_get_fact.
    - by apply atomic_get_what_if.
    - by apply atomic_get_puzzle.
    - by apply atomic_get_answer.
    - by apply atomic_show_history.
    - by apply atomic_show_schedule. }
  destruct Hatomic as [Hfile Hsent]. unfold loaded. by rewrite Hfile.
Qed.

Lemma generate_content_puzzle (h : history) :
  generate_content (lit "puzzle") h = generate_puzzle h.
Proof. reflexivity. Qed.

Lemma send_Ok (e : embed) (w w' : world) :
  send e w = (Ok tt, w') -> w' = tick (record_sent (MsgEmbed e) w).
Proof.
  unfold send, send_message. destruct (w_send_ok w (w_step w)); by intros [= <-].
Qed.

(** C1 (amended). Deferred-answer slot: on a scheduled invocation that
    posts, a pending answer that is set (non-empty) is put, once, in the
    reveal block before the new content and is cleared from the saved
    aggregate; when the mode is puzzle and the newly parsed answer is not
    empty, that answer is what the saved aggregate holds as pending; in
    every other case the saved slot is the cleared one. *)
Theorem deferred_answer_slot (w w' : world) :
  w_channel w = true ->
  daily_post_body w = (Ok tt, w') ->
  let h := loaded w in
  let a0 := pending_puzzle_answer h in
  let h1 := if truthy a0 then set_pending SNone h else h in
  let mode := MODE_SCHEDULE (weekday (w_clock w (w_step w))) in
  daily_post w = (Ok tt, w') /\
  exists result w2 e h' today,
    generate_content mode h1 (tick w) = (Ok result, w2) /\
    w_sent w' = w_sent w ++ [MsgEmbed e] /\
    e_description e =
      (if truthy a0
       then SStr (lit "**Yesterday's puzzle answer:**" ++ nl ++ py_str a0
                    ++ nl ++ nl ++ lit "---" ++ nl ++ nl
                    ++ py_str (get result "content"))
       else get result "content") /\
    w_file w' = Some h' /\
    posts h' = posts h ++ [<["date" := SStr (isoformat today)]> result] /\
    pending_puzzle_answer h' =
      (if bool_decide (mode = lit "puzzle") && truthy (get result "answer")
       then get result "answer"
       else if truthy a0 then SNone else a0) /\
    (mode = lit "puzzle" ->
     exists context topic reply puzzle answer summary,
       w_requests w2 = w_requests w ++
         [Request Sonnet 1024 (PuzzlePrompt context topic) (Some reply);
          Request Haiku 100 (SummaryPrompt puzzle) (Some summary)] /\
       parse_puzzle reply = Ok (puzzle, answer) /\
       get result "answer" = SStr answer /\
       (answer <> [] -> pending_puzzle_answer h' = SStr answer) /\
       (answer = [] ->
        pending_puzzle_answer h' = if truthy a0 then SNone else a0)).
Proof.
  intros Hch Hbody h a0 h1 mode. split.
  { unfold daily_post. rewrite bind_unfold. unfold get_channel.
    cbv beta match. rewrite Hch. change (negb true) with false.
    cbv beta match. unfold try_except. by rewrite Hbody. }
  unfold daily_post_body in Hbody.
  apply bind_Ok in Hbody as (h_ & w0 & Hload & Hbody).
  unfold load_history in Hload. injection Hload as <- <-.
  fold (loaded w) in Hbody. fold h in Hbody. fold a0 in Hbody.
  apply bind_Ok in Hbody as (now & w1 & Hnow & Hbody).
  unfold utcnow in Hnow. injection Hnow as <- <-.
  fold mode in Hbody. fold h1 in Hbody.
  apply bind_Ok in Hbody as (result & w2 & Hgen & Hbody).
  apply bind_Ok in Hbody as (h2 & w3 & Hset & Hbody).
  assert (Hh2 : w3 = w2 /\
    pending_puzzle_answer h2 =
      (if bool_decide (mode = lit "puzzle") && truthy (get result "answer")
       then get result "answer" else pending_puzzle_answer h1) /\
    posts h2 = posts h).
  { destruct (bool_decide (mode = lit "puzzle") && truthy (get result "answer"))
      eqn:Hcond.
    - apply andb_true_iff in Hcond as [_ Htr].
      rewrite bind_unfold in Hset. unfold lift in Hset.
      rewrite (getitem_get _ _ Htr) in Hset. injection Hset as <- <-.
      split; [done|]. split; [done|]. unfold h1. by destruct (truthy a0).
    - injection Hset as <- <-. split; [done|]. split; [done|].
      unfold h1. by destruct (truthy a0). }
  destruct Hh2 as (-> & Hpend2 & Hposts2). clear Hset.
  apply bind_Ok in Hbody as (content & w4 & Hcontent & Hbody).
  apply lift_Ok in Hcontent as [Hcontent ->].
  assert (content = get result "content") as ->.
  { unfold getitem in Hcontent. unfold get.
    destruct (result !! "content"); [by injection Hcontent | done]. }
  apply bind_Ok in Hbody as (fact_topic & w4 & Ht1 & Hbody).
  apply lift_Ok in Ht1 as [_ ->].
  apply bind_Ok in Hbody as (puzzle_topic & w4 & Ht2 & Hbody).
  apply lift_Ok in Ht2 as [_ ->].
  apply bind_Ok in Hbody as (stamp & w4 & Hstamp & Hbody).
  unfold utcnow in Hstamp. injection Hstamp as <- <-.
  apply bind_Ok in Hbody as ([] & w5 & Hsend & Hbody).
  apply send_Ok in Hsend as ->.
  apply bind_Ok in Hbody as ([] & w6 & Hprint & Hbody).
  unfold print in Hprint. injection Hprint as <-.
  apply bind_Ok in Hbody as (today & w7 & Htoday & Hbody).
  unfold utcnow in Htoday. injection Htoday as <- <-.
  apply bind_Ok in Hbody as (h' & w8 & Hadd & Hbody).
  injection Hbody as <-.
  match type of Hadd with
  | add_to_history ?hh ?pp ?ww = _ =>
      destruct (add_to_history_Ok hh pp ww) as (h'' & Hap & Hadd')
  end.
  rewrite Hadd' in Hadd. injection Hadd as -> <-.
  rewrite append_post_Ok in Hap. injection Hap as Hh'.
  destruct (calm_generate_content mode h1 (tick w)) as [(_ & _ & _ & _ & _ & _ & _ & Hsent & _) _].
  rewrite Hgen in Hsent. simpl in Hsent.
  assert (Hpend : pending_puzzle_answer h' =
      (if bool_decide (mode = lit "puzzle") && truthy (get result "answer")
       then get result "answer"
       else if truthy a0 then SNone else a0)).
  { rewrite <- Hh'. simpl. rewrite Hpend2. unfold h1.
    destruct (_ && _); [done|]. by destruct (truthy a0). }
  eexists result, w2, _, h', _.
  split; [done|]. split; [simpl; by rewrite Hsent|].
  split.
  { cbn [e_description]. destruct (truthy a0) eqn:Ha0; [|done].
    cbn [truthy]. rewrite Ha0. unfold reveal. by rewrite <- ?app_assoc. }
  split; [done|]. split; [rewrite <- Hh'; simpl; by rewrite Hposts2|].
  split; [done|].
  intros Hmode. rewrite Hmode, generate_content_puzzle in Hgen.
  pose proof Hgen as Hgen'.
  apply generate_puzzle_Ok in Hgen'
    as (context & topic & reply & puzzle & answer & summary & Hreq & Hparse & Hres).
  exists context, topic, reply, puzzle, answer, summary.
  assert (Hans : get result "answer" = SStr answer) by by rewrite Hres.
  split; [done|]. split; [done|]. split; [done|].
  rewrite Hpend, Hans, Hmode. simpl truthy.
  split; intros Hanswer.
  - rewrite bool_decide_eq_true_2 by done.
    rewrite (bool_decide_eq_false_2 (answer = [])) by done. done.
  - rewrite (bool_decide_eq_true_2 (answer = [])) by done.
    by rewrite andb_false_r.
Qed.

(** ** What the generators ask and return *)

Lemma quiet_run {A} (m : M A) (w w' : world) (r : res A) :
  quiet m -> m w = (r, w') -> w_requests w' = w_requests w.
Proof. intros Hq Hrun. destruct (Hq w) as [_ Hreq]. by rewrite Hrun in Hreq. Qed.

Lemma claude_create_Ok (m : model) (n : Z) (p : prompt) (w w' : world) (text : pystr) :
  claude_create m n p w = (Ok text, w') ->
  w' = tick (record_request (Request m n p (Some text)) w).
Proof.
  unfold claude_create. destruct (w_llm w (w_step w)) as [t|]; [|done].
  by intros [= -> <-].
Qed.

Lemma generate_summary_Ok (content : pystr) (w w' : world) (s : pystr) :
  generate_summary content w = (Ok s, w') ->
  exists reply,
    s = strip reply /\
    w' = tick (record_request
                 (Request Haiku 100 (SummaryPrompt content) (Some reply)) w).
Proof.
  unfold generate_summary. intros Hs.
  apply bind_Ok in Hs as (reply & w1 & Hcall & Hs). injection Hs as <- <-.
  exists reply. split; [done|]. by apply claude_create_Ok.
Qed.

(** The end of every generator: the main call and the summary. *)
Lemma main_and_summary_Ok (p : prompt) (summarised : pystr) (w w1 w' : world)
    (content summary : pystr) :
  claude_create Sonnet 1024 p w = (Ok content, w1) ->
  generate_summary summarised w1 = (Ok summary, w') ->
  exists reply,
    summary = strip reply /\
    w_requests w' = w_requests w ++ two_calls p content summarised reply.
Proof.
  intros Hcall Hsum. apply claude_create_Ok in Hcall as ->.
  apply generate_summary_Ok in Hsum as (reply & -> & ->).
  exists reply. split; [done|]. simpl. by rewrite <- app_assoc.
Qed.

Lemma get_callback_candidate_few (h : history) (w : world) :
  (length (posts h) < 7)%nat -> get_callback_candidate h w = (Ok None, w).
Proof.
  intros Hlt. unfold get_callback_candidate.
  apply Nat.ltb_lt in Hlt. by rewrite Hlt.
Qed.

Lemma generate_fact_calls (h : history) (w w' : world) (r : post) :
  generate_fact h w = (Ok r, w') ->
  exists context topic wonder callback_text content reply,
    pick_fresh TOPICS (used_topics h) w = (Ok topic, tick w) /\
    pick_fresh WONDER_TYPES (used_wonders h) (tick w)
      = (Ok wonder, tick (tick w)) /\
    topic ∈ TOPICS /\ wonder ∈ WONDER_TYPES /\
    ((length (posts h) < 7)%nat -> callback_text = None) /\
    w_requests w' = w_requests w ++
      two_calls (FactPrompt context topic wonder callback_text)
                content content reply /\
    r = dict [("content", SStr content); ("mode", SStr (lit "fact"));
              ("topic", SStr topic); ("wonder_type", SStr wonder);
              ("summary", SStr (strip reply));
              ("had_callback", SBool (bool_decide (is_Some callback_text)))].
Proof.
  unfold generate_fact. intros Hg.
  apply bind_Ok in Hg as (topic & w1 & Hpick & Hg).
  apply bind_Ok in Hg as (wonder & w2 & Hpick' & Hg).
  apply bind_Ok in Hg as (context & w3 & Hctx & Hg).
  apply bind_Ok in Hg as (coin & w4 & Hcoin & Hg).
  apply bind_Ok in Hg as ([callback callback_text] & w5 & Hcb & Hg).
  apply bind_Ok in Hg as (content & w6 & Hcall & Hg).
  apply bind_Ok in Hg as (summary & w7 & Hsum & Hg).
  injection Hg as <- <-.
  destruct (pick_fresh_Ok TOPICS (used_topics h) w TOPICS_nonempty)
    as (x & Hrun & Hx).
  rewrite Hrun in Hpick. injection Hpick as -> <-.
  destruct (pick_fresh_Ok WONDER_TYPES (used_wonders h) (tick w)
              WONDER_TYPES_nonempty) as (y & Hrun' & Hy).
  rewrite Hrun' in Hpick'. injection Hpick' as -> <-.
  pose proof (quiet_run _ _ _ _ (quiet_pick_fresh _ _) Hrun) as Hr1.
  pose proof (quiet_run _ _ _ _ (quiet_pick_fresh _ _) Hrun') as Hr2.
  pose proof (quiet_run _ _ _ _ (quiet_build_context_block _) Hctx) as Hr3.
  pose proof (quiet_run _ _ _ _ quiet_random_lt_03 Hcoin) as Hr4.
  assert (Hcb' : w_requests w5 = w_requests w4 /\
                 (is_Some callback <-> is_Some callback_text) /\
                 ((length (posts h) < 7)%nat -> callback_text = None)).
  { destruct coin.
    - apply bind_Ok in Hcb as (o & w4' & Hcand & Hcb).
      pose proof (quiet_run _ _ _ _ (quiet_get_callback_candidate _) Hcand) as Hr5.
      destruct o as [c|].
      + apply bind_Ok in Hcb as (now & w4'' & Hnow & Hcb).
        unfold utcnow in Hnow. injection Hnow as <- <-.
        apply bind_Ok in Hcb as (d & w4'' & Hd & Hcb).
        apply lift_Ok in Hd as [_ ->]. injection Hcb as <- <- <-.
        split; [done|]. split; [done|]. intros Hlt.
        rewrite get_callback_candidate_few in Hcand by done. done.
      + injection Hcb as <- <- <-. done.
    - injection Hcb as <- <- <-. done. }
  destruct Hcb' as (Hr5 & Hsome & Hfew).
  destruct (main_and_summary_Ok _ _ _ _ _ _ _ Hcall Hsum) as (reply & -> & Hreq).
  rewrite (bool_decide_ext _ _ Hsome).
  exists context, topic, wonder, callback_text, content, reply.
  split; [done|]. split; [done|]. split; [done|]. split; [done|].
  split; [done|]. split; [|done]. rewrite Hreq. congruence.
Qed.

Lemma generate_what_if_calls (h : history) (w w' : world) (r : post) :
  generate_what_if h w = (Ok r, w') ->
  exists context topic content reply,
    pick_fresh TOPICS (used_topics h) w = (Ok topic, tick w) /\
    topic ∈ TOPICS /\
    w_requests w' = w_requests w ++
      two_calls (WhatIfPrompt context topic) content content reply /\
    r = dict [("content", SStr content); ("mode", SStr (lit "what_if"));
              ("topic", SStr topic); ("summary", SStr (strip reply))].
Proof.
  unfold generate_what_if. intros Hg.
  apply bind_Ok in Hg as (topic & w1 & Hpick & Hg).
  apply bind_Ok in Hg as (context & w2 & Hctx & Hg).
  apply bind_Ok in Hg as (content & w3 & Hcall & Hg).
  apply bind_Ok in Hg as (summary & w4 & Hsum & Hg).
  injection Hg as <- <-.
  destruct (pick_fresh_Ok TOPICS (used_topics h) w TOPICS_nonempty)
    as (x & Hrun & Hx).
  rewrite Hrun in Hpick. injection Hpick as -> <-.
  pose proof (quiet_run _ _ _ _ (quiet_pick_fresh _ _) Hrun) as Hr1.
  pose proof (quiet_run _ _ _ _ (quiet_build_context_block _) Hctx) as Hr2.
  destruct (main_and_summary_Ok _ _ _ _ _ _ _ Hcall Hsum) as (reply & -> & Hreq).
  exists context, topic, content, reply.
  split; [done|]. split; [done|]. split; [|done]. rewrite Hreq. congruence.
Qed.

Lemma generate_puzzle_calls (h : history) (w w' : world) (r : post) :
  generate_puzzle h w = (Ok r, w') ->
  exists context topic content puzzle answer reply,
    pick_fresh TOPICS (used_topics h) w = (Ok topic, tick w) /\
    topic ∈ TOPICS /\
    parse_puzzle content = Ok (puzzle, answer) /\
    w_requests w' = w_requests w ++
      two_calls (PuzzlePrompt context topic) content puzzle reply /\
    r = dict [("content", SStr puzzle); ("mode", SStr (lit "puzzle"));
              ("topic", SStr topic); ("summary", SStr (strip reply));
              ("answer", SStr answer)].
Proof.
  unfold generate_puzzle. intros Hg.
  apply bind_Ok in Hg as (topic & w1 & Hpick & Hg).
  apply bind_Ok in Hg as (context & w2 & Hctx & Hg).
  apply bind_Ok in Hg as (content & w3 & Hcall & Hg).
  apply bind_Ok in Hg as ([puzzle answer] & w4 & Hparse & Hg).
  apply lift_Ok in Hparse as [Hparse ->].
  apply bind_Ok in Hg as (summary & w5 & Hsum & Hg).
  injection Hg as <- <-.
  destruct (pick_fresh_Ok TOPICS (used_topics h) w TOPICS_nonempty)
    as (x & Hrun & Hx).
  rewrite Hrun in Hpick. injection Hpick as -> <-.
  pose proof (quiet_run _ _ _ _ (quiet_pick_fresh _ _) Hrun) as Hr1.
  pose proof (quiet_run _ _ _ _ (quiet_build_context_block _) Hctx) as Hr2.
  destruct (main_and_summary_Ok _ _ _ _ _ _ _ Hcall Hsum) as (reply & -> & Hreq).
  exists context, topic, content, puzzle, answer, reply.
  split; [done|]. split; [done|]. split; [done|]. split; [|done].
  rewrite Hreq. congruence.
Qed.

Lemma generate_connections_calls (h : history) (w w' : world) (r : post) :
  generate_connections h w = (Ok r, w') ->
  exists recent w1,
    get_recent_posts h 7 w = (Ok recent, w1) /\
    (((length recent < 3)%nat /\ generate_fact h w1 = (Ok r, w')) \/
     ((3 <= length recent)%nat /\
      exists lines content reply,
        map_res digest_line recent = Ok lines /\
        w_requests w' = w_requests w ++
          two_calls (ConnectionsPrompt (join nl lines)) content content reply /\
        r = dict [("content", SStr content); ("mode", SStr (lit "connections"));
                  ("topic", SStr (lit "weekly synthesis"));
                  ("summary", SStr (strip reply))])).
Proof.
  unfold generate_connections. intros Hg.
  apply bind_Ok in Hg as (recent & w1 & Hrec & Hg).
  exists recent, w1. split; [done|].
  destruct (length recent <? 3)%nat eqn:Hlen.
  - left. apply Nat.ltb_lt in Hlen. done.
  - right. apply Nat.ltb_ge in Hlen. split; [done|].
    apply bind_Ok in Hg as (lines & w2 & Hlines & Hg).
    apply lift_Ok in Hlines as [Hlines ->].
    apply bind_Ok in Hg as (content & w3 & Hcall & Hg).
    apply bind_Ok in Hg as (summary & w4 & Hsum & Hg).
    injection Hg as <- <-.
    pose proof (quiet_run _ _ _ _ (quiet_get_recent_posts _ _) Hrec) as Hr1.
    destruct (main_and_summary_Ok _ _ _ _ _ _ _ Hcall Hsum) as (reply & -> & Hreq).
    exists lines, content, reply.
    split; [done|]. split; [|done]. rewrite Hreq. congruence.
Qed.

Lemma TOPICS_not_empty_strings : Forall (fun t : pystr => t <> []) TOPICS.
Proof.
  unfold TOPICS. repeat (apply Forall_cons_2; [by vm_compute|]).
  apply Forall_nil_2.
Qed.

Lemma WONDER_TYPES_not_empty_strings :
  Forall (fun t : pystr => t <> []) WONDER_TYPES.
Proof.
  unfold WONDER_TYPES. repeat (apply Forall_cons_2; [by vm_compute|]).
  apply Forall_nil_2.
Qed.

Lemma generated_fact (content topic wonder summary : pystr) (b : bool) :
  topic ∈ TOPICS -> wonder ∈ WONDER_TYPES ->
  generated (dict [("content", SStr content); ("mode", SStr (lit "fact"));
                   ("topic", SStr topic); ("wonder_type", SStr wonder);
                   ("summary", SStr summary); ("had_callback", SBool b)]).
Proof.
  intros Ht Hw. exists content, summary, topic.
  pose proof TOPICS_not_empty_strings as Hne. rewrite Forall_forall in Hne.
  pose proof WONDER_TYPES_not_empty_strings as Hne'. rewrite Forall_forall in Hne'.
  split; [done|]. split; [done|]. split; [done|]. split; [by apply Hne|].
  split; [by left|]. split; [done|]. left. split; [done|].
  exists wonder. split; [done|]. split; [by apply Hne' | done].
Qed.

Lemma generated_other (content topic summary mode : pystr)
    (more : list (string * scalar)) :
  topic ∈ TOPICS \/ topic = lit "weekly synthesis" ->
  mode ∈ [lit "what_if"; lit "puzzle"; lit "connections"] ->
  more = [] \/ (exists answer, more = [("answer", SStr answer)]) ->
  generated (dict ([("content", SStr content); ("mode", SStr mode);
                    ("topic", SStr topic); ("summary", SStr summary)] ++ more)).
Proof.
  intros Ht Hm Hmore. exists content, summary, topic.
  pose proof TOPICS_not_empty_strings as Hne. rewrite Forall_forall in Hne.
  assert (Htopic : topic <> []).
  { destruct Ht as [Ht| ->]; [by apply Hne | done]. }
  destruct Hmore as [-> | [answer ->]]; simpl.
  - split; [done|]. split; [done|]. split; [done|]. split; [done|].
    split; [done|]. split; [done|]. right. split; [done|]. by exists mode.
  - split; [done|]. split; [done|]. split; [done|]. split; [done|].
    split; [done|]. split; [done|]. right. split; [done|]. by exists mode.
Qed.

Lemma generate_fact_generated (h : history) (w w' : world) (r : post) :
  generate_fact h w = (Ok r, w') -> generated r.
Proof.
  intros Hg. apply generate_fact_calls in Hg
    as (? & topic & wonder & ? & content & reply & _ & _ & Ht & Hw & _ & _ & ->).
  by apply generated_fact.
Qed.

(** Whatever the mode, a generator that returns has returned a record of
    the expected shape. *)
Lemma generate_content_generated (mode : pystr) (h : history) (w w' : world)
    (r : post) :
  generate_content mode h w = (Ok r, w') -> generated r.
Proof.
  unfold generate_content. intros Hg.
  repeat case_bool_decide.
  - by eapply generate_fact_generated.
  - apply generate_what_if_calls in Hg
      as (? & topic & content & reply & _ & Ht & _ & ->).
    apply (generated_other _ _ _ _ []); [by left | repeat constructor | by left].
  - apply generate_puzzle_calls in Hg
      as (? & topic & ? & puzzle & answer & reply & _ & Ht & _ & _ & ->).
    apply (generated_other _ _ _ _ [("answer", SStr answer)]);
      [by left | repeat constructor | right; by eexists].
  - apply generate_connections_calls in Hg as (recent & w1 & _ & [[_ Hg]|[_ Hg]]).
    + by eapply generate_fact_generated.
    + destruct Hg as (lines & content & reply & _ & _ & ->).
      apply (generated_other _ _ _ _ []); [by right | repeat constructor | by left].
  - by eapply generate_fact_generated.
Qed.

(** ** Freshness of the selection *)

#[local] Instance SStr_inj : Inj (=) (=) SStr.
Proof. by intros x y [= ->]. Qed.

Lemma fresh_options_nonempty (options : list pystr) (used : list scalar) :
  NoDup options -> (length used < length options)%nat ->
  fresh_options options used <> [].
Proof.
  intros Hnd Hlen Hnil.
  assert (Hall : forall v, v ∈ SStr <$> options -> v ∈ used).
  { intros v Hv. apply list_elem_of_fmap in Hv as (o & -> & Ho).
    destruct (decide (SStr o ∈ used)) as [|Hnot]; [done|]. exfalso.
    assert (Hin : o ∈ fresh_options options used)
      by by apply fresh_options_elem.
    rewrite Hnil in Hin. by apply elem_of_nil in Hin. }
  apply NoDup_submseteq in Hall; [|by apply (NoDup_fmap_2 _)].
  apply submseteq_length in Hall. rewrite length_fmap in Hall. lia.
Qed.

Lemma pick_fresh_unused (options : list pystr) (used : list scalar) (w : world) :
  NoDup options -> (length used < length options)%nat ->
  exists x, pick_fresh options used w = (Ok x, tick w) /\
            x ∈ options /\ (SStr x ∉ used).
Proof.
  intros Hnd Hlen. pose proof (fresh_options_nonempty _ _ Hnd Hlen) as Hne.
  unfold pick_fresh.
  destruct (fresh_options options used) as [|o fresh] eqn:Hf; [done|].
  destruct (random_choice_Ok (o :: fresh) w) as (x & Hrun & Hx); [done|].
  exists x. split; [done|].
  apply list_elem_of_lookup_2 in Hx. rewrite <- Hf in Hx.
  by apply fresh_options_elem in Hx.
Qed.

Lemma TOPICS_NoDup : NoDup TOPICS.
Proof. apply (bool_decide_unpack _). by vm_compute. Qed.

Lemma WONDER_TYPES_NoDup : NoDup WONDER_TYPES.
Proof. apply (bool_decide_unpack _). by vm_compute. Qed.

Lemma pick_topic_unused (h : history) (w : world) (topic : pystr) (w' : world) :
  bounded h -> pick_fresh TOPICS (used_topics h) w = (Ok topic, w') ->
  SStr topic ∉ used_topics h.
Proof.
  intros [_ Hb] Hpick.
  destruct (pick_fresh_unused TOPICS (used_topics h) w TOPICS_NoDup)
    as (x & Hrun & _ & Hx); [simpl; lia|].
  rewrite Hrun in Hpick. by injection Hpick as <- _.
Qed.

Lemma pick_wonder_unused (h : history) (w : world) (wonder : pystr) (w' : world) :
  bounded h -> pick_fresh WONDER_TYPES (used_wonders h) w = (Ok wonder, w') ->
  SStr wonder ∉ used_wonders h.
Proof.
  intros [Hb _] Hpick.
  destruct (pick_fresh_unused WONDER_TYPES (used_wonders h) w WONDER_TYPES_NoDup)
    as (x & Hrun & _ & Hx); [simpl; lia|].
  rewrite Hrun in Hpick. by injection Hpick as <- _.
Qed.

Lemma generate_fact_unused (h : history) (w w' : world) (r : post) :
  bounded h -> generate_fact h w = (Ok r, w') ->
  exists topic wonder,
    r !! "topic" = Some (SStr topic) /\ (SStr topic ∉ used_topics h) /\
    r !! "wonder_type" = Some (SStr wonder) /\ (SStr wonder ∉ used_wonders h).
Proof.
  intros Hb Hg. apply generate_fact_calls in Hg
    as (? & topic & wonder & ? & ? & ? & Ht & Hw & _ & _ & _ & _ & ->).
  exists topic, wonder. split; [done|].
  split; [by eapply pick_topic_unused|]. split; [done|].
  by eapply pick_wonder_unused.
Qed.

(** X1. Freshness: while the rotation lists are within their bounds (8
    topics, 5 wonder types) the fallback of [pick_fresh] is never taken,
    because there are 20 distinct topics and 10 distinct wonder types: the
    topic of every generated record is none of the recently used topics
    (the fixed topic of a connections post apart) and its wonder type, if
    it has one, none of the recently used wonder types. *)
Theorem fresh_pick_avoids_recent (mode : pystr) (h : history) (w w' : world)
    (r : post) :
  bounded h ->
  generate_content mode h w = (Ok r, w') ->
  (exists topic,
     r !! "topic" = Some (SStr topic) /\
     ((SStr topic ∉ used_topics h) \/
      (mode = lit "connections" /\ topic = lit "weekly synthesis"))) /\
  (forall wonder, r !! "wonder_type" = Some wonder -> wonder ∉ used_wonders h).
Proof.
  intros Hb. unfold generate_content.
  assert (Hfact : forall w0,
    generate_fact h w0 = (Ok r, w') ->
    (exists topic, r !! "topic" = Some (SStr topic) /\
       ((SStr topic ∉ used_topics h) \/
        (mode = lit "connections" /\ topic = lit "weekly synthesis"))) /\
    (forall wonder, r !! "wonder_type" = Some wonder -> wonder ∉ used_wonders h)).
  { intros w0 Hg.
    destruct (generate_fact_unused h w0 w' r Hb Hg)
      as (topic & wonder & Ht & Htn & Hw & Hwn).
    split; [exists topic; by auto|]. intros v Hv. congruence. }
  repeat case_bool_decide; intros Hg; try by eapply Hfact.
  - apply generate_what_if_calls in Hg
      as (? & topic & ? & ? & Hpick & _ & _ & ->).
    split; [|done]. exists topic. split; [done|]. left.
    by eapply pick_topic_unused.
  - apply generate_puzzle_calls in Hg
      as (? & topic & ? & ? & ? & ? & Hpick & _ & _ & _ & ->).
    split; [|done]. exists topic. split; [done|]. left.
    by eapply pick_topic_unused.
  - apply generate_connections_calls in Hg as (recent & w1 & _ & [[_ Hg]|[_ Hg]]).
    + by eapply Hfact.
    + destruct Hg as (lines & content & reply & _ & _ & ->).
      split; [|done]. exists (lit "weekly synthesis"). split; [done|]. by right.
Qed.

(** ** The two model calls of a generation *)

Lemma generate_fact_requests (h : history) (w w' : world) (r : post) :
  generate_fact h w = (Ok r, w') ->
  exists p content reply,
    w_requests w' = w_requests w ++ two_calls p content content reply /\
    r !! "content" = Some (SStr content) /\
    r !! "summary" = Some (SStr (strip reply)) /\
    r !! "mode" = Some (SStr (lit "fact")) /\ r !! "answer" = None.
Proof.
  intros Hg. apply generate_fact_calls in Hg
    as (? & ? & ? & ? & content & reply & _ & _ & _ & _ & _ & Hreq & ->).
  by eexists _, content, reply.
Qed.

(** X2. Every generation that returns has made exactly two model calls:
    the mode's prompt to the larger model with 1024 tokens, then the
    summary request to the smaller model with 100 tokens.  What is
    summarised is the record's [content]: for a puzzle the part of the
    reply before the answer (the answer is never sent back to the model),
    otherwise the reply as it came; the [summary] is the stripped second
    reply. *)
Theorem generation_requests (mode : pystr) (h : history) (w w' : world) (r : post) :
  generate_content mode h w = (Ok r, w') ->
  exists p reply content summary_reply,
    w_requests w' = w_requests w ++
      [Request Sonnet 1024 p (Some reply);
       Request Haiku 100 (SummaryPrompt content) (Some summary_reply)] /\
    failed_calls w' = failed_calls w /\
    r !! "content" = Some (SStr content) /\
    r !! "summary" = Some (SStr (strip summary_reply)) /\
    ((r !! "mode" = Some (SStr (lit "puzzle")) /\
      exists answer, parse_puzzle reply = Ok (content, answer) /\
                     r !! "answer" = Some (SStr answer)) \/
     (r !! "mode" <> Some (SStr (lit "puzzle")) /\ content = reply /\
      r !! "answer" = None)).
Proof.
  intros Hg.
  assert (Hfailed : failed_calls w' = failed_calls w).
  { destruct (calm_generate_content mode h w) as [_ Hf].
    rewrite Hg in Hf. by apply Hf. }
  assert (Hfact : forall w0,
    w_requests w0 = w_requests w ->
    generate_fact h w0 = (Ok r, w') ->
    exists p reply content summary_reply,
      w_requests w' = w_requests w ++
        [Request Sonnet 1024 p (Some reply);
         Request Haiku 100 (SummaryPrompt content) (Some summary_reply)] /\
      failed_calls w' = failed_calls w /\
      r !! "content" = Some (SStr content) /\
      r !! "summary" = Some (SStr (strip summary_reply)) /\
      ((r !! "mode" = Some (SStr (lit "puzzle")) /\
        exists answer, parse_puzzle reply = Ok (content, answer) /\
                       r !! "answer" = Some (SStr answer)) \/
       (r !! "mode" <> Some (SStr (lit "puzzle")) /\ content = reply /\
        r !! "answer" = None))).
  { intros w0 Hw0 Hf. apply generate_fact_requests in Hf
      as (p & content & reply & Hreq & Hc & Hs & Hm & Ha).
    exists p, content, content, reply. rewrite Hreq, Hw0.
    split; [done|]. split; [done|]. split; [done|]. split; [done|].
    right. rewrite Hm. done. }
  unfold generate_content in Hg. repeat case_bool_decide.
  - by apply (Hfact w).
  - apply generate_what_if_calls in Hg
      as (? & ? & content & reply & _ & _ & Hreq & ->).
    eexists _, content, content, reply.
    split; [done|]. split; [done|]. split; [done|]. split; [done|]. by right.
  - apply generate_puzzle_calls in Hg
      as (? & ? & content & puzzle & answer & reply & _ & _ & Hp & Hreq & ->).
    eexists _, content, puzzle, reply.
    split; [done|]. split; [done|]. split; [done|]. split; [done|].
    left. split; [done|]. by exists answer.
  - apply generate_connections_calls in Hg as (recent & w1 & Hrec & [[_ Hg]|[_ Hg]]).
    + apply (Hfact w1); [|done].
      by eapply quiet_run; [apply quiet_get_recent_posts|].
    + destruct Hg as (lines & content & reply & _ & Hreq & ->).
      eexists _, content, content, reply.
      split; [done|]. split; [done|]. split; [done|]. split; [done|]. by right.
  - by apply (Hfact w).
Qed.

(** X3. Callbacks: [had_callback] of a fact records exactly whether its
    prompt carried the callback paragraph, and with fewer than 7 posts in
    the history no fact ever has one, whatever the coin says. *)
Theorem callback_needs_history (h : history) (w w' : world) (r : post) :
  generate_fact h w = (Ok r, w') ->
  exists context topic wonder callback_text reply,
    w_requests w' !! length (w_requests w)
      = Some (Request Sonnet 1024
                (FactPrompt context topic wonder callback_text) (Some reply)) /\
    r !! "had_callback" = Some (SBool (bool_decide (is_Some callback_text))) /\
    ((length (posts h) < 7)%nat ->
     callback_text = None /\ r !! "had_callback" = Some (SBool false)).
Proof.
  intros Hg. apply generate_fact_calls in Hg
    as (context & topic & wonder & cb & content & reply
        & _ & _ & _ & _ & Hfew & Hreq & ->).
  exists context, topic, wonder, cb, content.
  split; [|split; [done|]].
  - rewrite Hreq. by rewrite lookup_app_r, Nat.sub_diag.
  - intros Hlt. rewrite (Hfew Hlt). done.
Qed.

(** ** The outcomes of the scheduled post *)

Lemma never_raises_bind {A B} (m : M A) (k : A -> M B) :
  never_raises m -> (forall a, never_raises (k a)) -> never_raises (m ≫= k).
Proof.
  intros Hm Hk w. rewrite bind_unfold. specialize (Hm w).
  destruct (m w) as [[a|e] w1]; [apply Hk | done].
Qed.

Lemma never_raises_ret {A} (a : A) : never_raises (mret a : M A).
Proof. done. Qed.
Lemma never_raises_utcnow : never_raises utcnow.
Proof. done. Qed.
Lemma never_raises_print (l : logline) : never_raises (print l).
Proof. done. Qed.
Lemma never_raises_add_to_history (h : history) (p : post) :
  never_raises (add_to_history h p).
Proof.
  intros w. destruct (add_to_history_Ok h p w) as (h' & _ & Hadd).
  by rewrite Hadd.
Qed.

Lemma abort_clean_bind {A B} (m : M A) (k : A -> M B) :
  calm m -> (forall a, abort_clean (k a)) -> abort_clean (m ≫= k).
Proof.
  intros Hm Hk w e w'. rewrite bind_unfold. specialize (Hm w).
  destruct (m w) as [[a|x] w1]; simpl in Hm.
  - destruct Hm as [(Hfile & _ & _ & _ & _ & _ & _ & Hsent & Hlog) _].
    intros Hrun. apply Hk in Hrun as (Hf & Hs & Hl).
    split; [|split]; congruence.
  - destruct Hm as [(Hfile & _ & _ & _ & _ & _ & _ & Hsent & Hlog) _].
    by intros [= _ <-].
Qed.

(** When what follows a [send] cannot raise, only a refused message makes
    the whole raise, and then nothing was sent. *)
Lemma abort_clean_send {A} (e : embed) (k : M A) :
  never_raises k -> abort_clean (send e ≫= fun _ => k).
Proof.
  intros Hk w x w'. rewrite bind_unfold. unfold send, send_message.
  destruct (w_send_ok w (w_step w)).
  - intros Hrun. specialize (Hk (tick (record_sent (MsgEmbed e) w))).
    by rewrite Hrun in Hk.
  - by intros [= _ <-].
Qed.

Lemma abort_clean_daily_post_body : abort_clean daily_post_body.
Proof.
  unfold daily_post_body.
  repeat (apply abort_clean_bind; [solve [calm_walk] | intros ?]).
  apply abort_clean_send.
  repeat first
    [ apply never_raises_add_to_history
    | apply never_raises_ret | apply never_raises_utcnow
    | apply never_raises_print
    | apply never_raises_bind; [| intros ?] ].
Qed.

(** The world a scheduled post that went through leaves. *)
Lemma daily_post_body_Ok (w w' : world) :
  daily_post_body w = (Ok tt, w') ->
  let h := loaded w in
  let a0 := pending_puzzle_answer h in
  let h1 := if truthy a0 then set_pending SNone h else h in
  let mode := MODE_SCHEDULE (weekday (w_clock w (w_step w))) in
  exists result w2 e h',
    generate_content mode h1 (tick w) = (Ok result, w2) /\
    append_post
      (if bool_decide (mode = lit "puzzle") && truthy (get result "answer")
       then set_pending (get result "answer") h1 else h1)
      (<["date" := SStr (isoformat (w_clock w2 (S (S (w_step w2)))))]> result)
      = Ok h' /\
    e_description e =
      (if truthy a0 then SStr (reveal a0 (get result "content"))
       else get result "content") /\
    w' = write_file h'
           (tick (record_log
                    (LogPosted mode (get_or result "topic" (lit "unknown")))
                    (tick (record_sent (MsgEmbed e) (tick w2))))).
Proof.
  intros Hbody h a0 h1 mode.
  unfold daily_post_body in Hbody.
  apply bind_Ok in Hbody as (h_ & w0 & Hload & Hbody).
  unfold load_history in Hload. injection Hload as <- <-.
  fold (loaded w) in Hbody. fold h in Hbody. fold a0 in Hbody.
  apply bind_Ok in Hbody as (now & w1 & Hnow & Hbody).
  unfold utcnow in Hnow. injection Hnow as <- <-.
  fold mode in Hbody. fold h1 in Hbody.
  apply bind_Ok in Hbody as (result & w2 & Hgen & Hbody).
  apply bind_Ok in Hbody as (h2 & w3 & Hset & Hbody).
  assert (Hh2 : w3 = w2 /\
    h2 = if bool_decide (mode = lit "puzzle") && truthy (get result "answer")
         then set_pending (get result "answer") h1 else h1).
  { destruct (bool_decide (mode = lit "puzzle") && truthy (get result "answer"))
      eqn:Hcond.
    - apply andb_true_iff in Hcond as [_ Htr].
      rewrite bind_unfold in Hset. unfold lift in Hset.
      rewrite (getitem_get _ _ Htr) in Hset. by injection Hset as <- <-.
    - by injection Hset as <- <-. }
  destruct Hh2 as (-> & ->). clear Hset.
  apply bind_Ok in Hbody as (content & w4 & Hcontent & Hbody).
  apply lift_Ok in Hcontent as [Hcontent ->].
  assert (content = get result "content") as ->.
  { unfold getitem in Hcontent. unfold get.
    destruct (result !! "content"); [by injection Hcontent | done]. }
  apply bind_Ok in Hbody as (fact_topic & w4 & Ht1 & Hbody).
  apply lift_Ok in Ht1 as [_ ->].
  apply bind_Ok in Hbody as (puzzle_topic & w4 & Ht2 & Hbody).
  apply lift_Ok in Ht2 as [_ ->].
  apply bind_Ok in Hbody as (stamp & w4 & Hstamp & Hbody).
  unfold utcnow in Hstamp. injection Hstamp as <- <-.
  apply bind_Ok in Hbody as ([] & w5 & Hsend & Hbody).
  apply send_Ok in Hsend as ->.
  apply bind_Ok in Hbody as ([] & w6 & Hprint & Hbody).
  unfold print in Hprint. injection Hprint as <-.
  apply bind_Ok in Hbody as (today & w7 & Htoday & Hbody).
  unfold utcnow in Htoday. injection Htoday as <- <-.
  apply bind_Ok in Hbody as (h' & w8 & Hadd & Hbody).
  injection Hbody as <-.
  match type of Hadd with
  | add_to_history ?hh ?pp ?ww = _ =>
      destruct (add_to_history_Ok hh pp ww) as (h'' & Hap & Hadd')
  end.
  rewrite Hadd' in Hadd. injection Hadd as -> <-.
  eexists result, w2, _, h'. split; [done|]. split; [exact Hap|].
  split; [|reflexivity].
  cbn [e_description]. destruct (truthy a0) eqn:Ha0; [|done].
  cbn [truthy]. by rewrite Ha0.
Qed.

(** The body of the scheduled post raises what the generation raises. *)
Lemma daily_post_body_generation_raises (w w2 : world) (e : exn) :
  generate_content (MODE_SCHEDULE (weekday (w_clock w (w_step w))))
    (if truthy (pending_puzzle_answer (loaded w))
     then set_pending SNone (loaded w) else loaded w) (tick w) = (Raise e, w2) ->
  daily_post_body w = (Raise e, w2).
Proof.
  intros Hgen. unfold daily_post_body.
  rewrite bind_unfold. unfold load_history at 1. cbv beta match.
  fold (loaded w). cbv zeta.
  rewrite bind_unfold. unfold utcnow at 1. cbv beta match.
  by rewrite bind_unfold, Hgen.
Qed.

(** After a generation that returned, a refused message is the error of
    the body. *)
Lemma daily_post_body_send_refused (w w2 : world) (result : post) :
  generate_content (MODE_SCHEDULE (weekday (w_clock w (w_step w))))
    (if truthy (pending_puzzle_answer (loaded w))
     then set_pending SNone (loaded w) else loaded w) (tick w) = (Ok result, w2) ->
  w_send_ok w (S (w_step w2)) = false ->
  daily_post_body w = (Raise SendError, tick (tick w2)).
Proof.
  intros Hgen Hno.
  destruct (calm_generate_content
              (MODE_SCHEDULE (weekday (w_clock w (w_step w))))
              (if truthy (pending_puzzle_answer (loaded w))
               then set_pending SNone (loaded w) else loaded w) (tick w))
    as [(_ & _ & _ & _ & _ & _ & Hsend & _) _].
  rewrite Hgen in Hsend. simpl in Hsend.
  pose proof (generate_content_generated _ _ _ _ _ Hgen)
    as (content & summary & topic & Hc & _ & Ht & _).
  unfold daily_post_body.
  rewrite bind_unfold. unfold load_history at 1. cbv beta match.
  fold (loaded w). cbv zeta.
  rewrite bind_unfold. unfold utcnow at 1. cbv beta match.
  rewrite bind_unfold, Hgen.
  rewrite bind_unfold.
  assert (Hstep : forall (hh : history),
    (if bool_decide (MODE_SCHEDULE (weekday (w_clock w (w_step w))) = lit "puzzle")
        && truthy (get result "answer")
     then a ← lift (getitem result "answer"); mret (set_pending a hh)
     else mret hh) w2
    = (Ok (if bool_decide (MODE_SCHEDULE (weekday (w_clock w (w_step w)))
                           = lit "puzzle") && truthy (get result "answer")
           then set_pending (get result "answer") hh else hh), w2)).
  { intros hh. destruct (_ && truthy (get result "answer")) eqn:Hcond; [|done].
    apply andb_true_iff in Hcond as [_ Htr].
    rewrite bind_unfold. unfold lift. by rewrite (getitem_get _ _ Htr). }
  rewrite Hstep.
  rewrite bind_unfold. unfold lift at 1. unfold getitem at 1. rewrite Hc.
  rewrite bind_unfold. unfold lift at 1. unfold get_or at 1. rewrite Ht.
  cbn [default id title].
  rewrite bind_unfold. unfold lift at 1. unfold get_or at 1. rewrite Ht.
  cbn [default id title].
  rewrite bind_unfold. unfold utcnow at 1. cbv beta match.
  rewrite bind_unfold. unfold send, send_message.
  cbn [w_send_ok w_step tick]. by rewrite Hsend, Hno.
Qed.

(** X4. The scheduled invocation never raises: its body runs inside a
    handler that logs whatever it raises.  Without a channel it only logs
    that.  When the generation raises (the model, a malformed post), or
    when the generation returns and the channel refuses the message, the
    run logs that error, has sent nothing and leaves the history file as
    it was.  When the body runs to its end, the run has sent one message,
    logged the post under the day's mode and saved the loaded aggregate
    with exactly one post appended, the previous posts and the manual
    answer slot unchanged. *)
Theorem daily_post_outcomes (w : world) :
  let h := loaded w in
  let h1 := if truthy (pending_puzzle_answer h) then set_pending SNone h else h in
  let mode := MODE_SCHEDULE (weekday (w_clock w (w_step w))) in
  (daily_post w).1 = Ok tt /\
  (w_channel w = false -> (daily_post w).2 = record_log LogNoChannel w) /\
  (w_channel w = true ->
   (forall e w2, generate_content mode h1 (tick w) = (Raise e, w2) ->
      w_log (daily_post w).2 = w_log w ++ [LogError e] /\
      w_sent (daily_post w).2 = w_sent w /\
      w_file (daily_post w).2 = w_file w) /\
   (forall result w2, generate_content mode h1 (tick w) = (Ok result, w2) ->
      w_send_ok w (S (w_step w2)) = false ->
      w_log (daily_post w).2 = w_log w ++ [LogError SendError] /\
      w_sent (daily_post w).2 = w_sent w /\
      w_file (daily_post w).2 = w_file w) /\
   (forall w', daily_post_body w = (Ok tt, w') ->
      daily_post w = (Ok tt, w') /\
      exists message topic stored h',
        w_log w' = w_log w ++ [LogPosted mode topic] /\
        w_sent w' = w_sent w ++ [message] /\
        w_file w' = Some h' /\
        posts h' = posts (loaded w) ++ [stored] /\
        temp_answer h' = temp_answer (loaded w))).
Proof.
  intros h h1 mode.
  assert (Hrun : w_channel w = true ->
                 daily_post w = try_except daily_post_body
                                  (fun e => print (LogError e)) w).
  { intros Hch. unfold daily_post. rewrite bind_unfold. unfold get_channel.
    cbv beta match. by rewrite Hch. }
  assert (Hraise : forall e w2, w_channel w = true ->
    daily_post_body w = (Raise e, w2) ->
    w_log (daily_post w).2 = w_log w ++ [LogError e] /\
    w_sent (daily_post w).2 = w_sent w /\
    w_file (daily_post w).2 = w_file w).
  { intros e w2 Hch Hbody. rewrite (Hrun Hch). unfold try_except.
    rewrite Hbody.
    apply abort_clean_daily_post_body in Hbody as (Hfile & Hsent & Hlog).
    simpl. by rewrite Hlog. }
  split; [|split].
  - unfold daily_post. rewrite bind_unfold. unfold get_channel. cbv beta match.
    destruct (w_channel w); [|done].
    change (negb true) with false. cbv beta match. unfold try_except.
    by destruct (daily_post_body w) as [[[]|e] w1].
  - intros Hch. unfold daily_post. rewrite bind_unfold. unfold get_channel.
    cbv beta match. by rewrite Hch.
  - intros Hch. split; [|split].
    + intros e w2 Hgen. apply (Hraise e w2 Hch).
      by apply daily_post_body_generation_raises.
    + intros result w2 Hgen Hno. apply (Hraise SendError (tick (tick w2)) Hch).
      by apply (daily_post_body_send_refused w w2 result).
    + intros w' Hbody. split.
      { rewrite (Hrun Hch). unfold try_except. by rewrite Hbody. }
      destruct (calm_generate_content mode h1 (tick w))
        as [(_ & _ & _ & _ & _ & _ & _ & Hsent & Hlog) _].
      apply daily_post_body_Ok in Hbody
        as (result & w2 & e & h' & Hgen & Hap & _ & ->).
      fold h h1 mode in Hgen. rewrite Hgen in Hsent, Hlog. simpl in Hsent, Hlog.
      rewrite append_post_Ok in Hap. injection Hap as <-.
      eexists _, _, _, _. simpl.
      rewrite Hsent, Hlog. split; [done|]. split; [done|]. split; [done|].
      split.
      * by destruct (_ && _), (truthy _).
      * by destruct (_ && _), (truthy (pending_puzzle_answer (loaded w))).
Qed.

(** ** What each invocation writes *)

Lemma read_only_bind {A B} (m : M A) (k : A -> M B) :
  read_only m -> (forall a, read_only (k a)) -> read_only (m ≫= k).
Proof.
  intros Hm Hk w. rewrite bind_unfold. specialize (Hm w).
  destruct (m w) as [[a|e] w1]; simpl in *; [|done].
  by rewrite Hk.
Qed.

Lemma calm_read_only {A} (m : M A) : calm m -> read_only m.
Proof. intros Hm w. by destruct (Hm w) as [(Hfile & _) _]. Qed.

Lemma read_only_send_message (m : message) : read_only (send_message m).
Proof. intros w. unfold send_message. by destruct (w_send_ok w (w_step w)). Qed.

Ltac read_only_walk :=
  repeat first
    [ apply calm_read_only; solve [calm_walk]
    | apply read_only_send_message
    | apply read_only_bind; [| intros ?]
    | match goal with
      | |- context [match ?x with _ => _ end] => destruct x
      end ].

Lemma read_only_get_fact (author : pystr) (topic : option pystr) :
  read_only (get_fact author topic).
Proof. unfold get_fact. read_only_walk. Qed.

Lemma read_only_get_what_if (author : pystr) : read_only (get_what_if author).
Proof. unfold get_what_if. read_only_walk. Qed.

Lemma read_only_get_answer : read_only get_answer.
Proof. unfold get_answer. read_only_walk. Qed.

Lemma read_only_show_history (count : Z) : read_only (show_history count).
Proof. unfold show_history. read_only_walk. Qed.

Lemma read_only_show_schedule : read_only show_schedule.
Proof. unfold show_schedule. read_only_walk. Qed.

Lemma get_puzzle_file (author : pystr) (w : world) :
  w_file (get_puzzle author w).2 = w_file w \/
  exists answer,
    w_file (get_puzzle author w).2 = Some (set_temp_answer answer (loaded w)).
Proof.
  rewrite get_puzzle_run.
  destruct (calm_generate_puzzle (loaded w) w) as [(Hf & _) _].
  destruct (generate_puzzle (loaded w) w) as [[result|x] w1]; simpl in Hf;
    [|by left].
  destruct (title _) as [t|x]; [|by left].
  destruct (getitem result "content") as [content|x]; [|by left].
  right. eexists. by rewrite send_file.
Qed.

Lemma daily_post_file (w : world) :
  w_file (daily_post w).2 = w_file w \/
  exists h' stored used_w used_t pending,
    w_file (daily_post w).2 = Some h' /\
    h' = {| posts := posts (loaded w) ++ [stored];
            used_wonders := used_w; used_topics := used_t;
            pending_puzzle_answer := pending;
            temp_answer := temp_answer (loaded w) |}.
Proof.
  unfold daily_post. rewrite bind_unfold. unfold get_channel. cbv beta match.
  destruct (w_channel w); [|by left].
  change (negb true) with false. cbv beta match. unfold try_except.
  destruct (daily_post_body w) as [[[]|e] w1] eqn:Hbody.
  - right. apply daily_post_body_Ok in Hbody
      as (result & w2 & e & h' & _ & Hap & _ & ->).
    rewrite append_post_Ok in Hap. injection Hap as <-.
    eexists _, _, _, _, _. split; [done|]. simpl.
    f_equal; by destruct (_ && _), (truthy (pending_puzzle_answer (loaded w))).
  - left. by apply abort_clean_daily_post_body in Hbody as (Hfile & _).
Qed.

(** X6. What each invocation can write: the scheduled post never changes
    the manual answer slot; [!puzzle] never changes the posts, the rotation
    lists or the pending answer; and [!fact], [!whatif], [!answer],
    [!history] and [!schedule] never write the history file at all, so
    facts given on demand are not recorded and do not rotate topics. *)
Theorem write_footprint (i : invocation) (w : world) :
  match i with
  | Scheduled =>
      temp_answer (loaded (run i w).2) = temp_answer (loaded w)
  | CmdPuzzle _ =>
      posts (loaded (run i w).2) = posts (loaded w) /\
      used_wonders (loaded (run i w).2) = used_wonders (loaded w) /\
      used_topics (loaded (run i w).2) = used_topics (loaded w) /\
      pending_puzzle_answer (loaded (run i w).2)
        = pending_puzzle_answer (loaded w)
  | _ => w_file (run i w).2 = w_file w
  end.
Proof.
  destruct i; simpl.
  - destruct (daily_post_file w) as [Hf|(h' & ? & ? & ? & ? & Hf & ->)];
      unfold loaded at 1; by rewrite Hf.
  - apply read_only_get_fact.
  - apply read_only_get_what_if.
  - destruct (get_puzzle_file author w) as [Hf|[answer Hf]];
      unfold loaded at 1 3 5 7; by rewrite Hf.
  - apply read_only_get_answer.
  - apply read_only_show_history.
  - apply read_only_show_schedule.
Qed.

(** ** The manual puzzle and its answer *)

Lemma run_temp_answer (i : invocation) (w : world) :
  (forall author, i <> CmdPuzzle author) ->
  temp_answer (loaded (run i w).2) = temp_answer (loaded w).
Proof.
  intros Hi. destruct i; simpl.
  - destruct (daily_post_file w) as [Hf|(h' & ? & ? & ? & ? & Hf & ->)];
      unfold loaded at 1; by rewrite Hf.
  - unfold loaded. by rewrite read_only_get_fact.
  - unfold loaded. by rewrite read_only_get_what_if.
  - by destruct (Hi author).
  - unfold loaded. by rewrite read_only_get_answer.
  - unfold loaded. by rewrite read_only_show_history.
  - unfold loaded. by rewrite read_only_show_schedule.
Qed.

Lemma run_all_temp_answer (others : list invocation) (w : world) :
  Forall (fun i => forall author, i <> CmdPuzzle author) others ->
  temp_answer (loaded (run_all others w)) = temp_answer (loaded w).
Proof.
  intros Hall. revert w. induction Hall as [|i others Hi _ IH]; intros w; [done|].
  simpl. by rewrite IH, run_temp_answer.
Qed.

Lemma get_answer_sends (w : world) :
  w_send_ok w (w_step w) = true ->
  get_answer w =
  (Ok tt,
   tick (record_sent
           (MsgEmbed (answer_embed
                        (default (SStr (lit "No recent puzzle to answer!"))
                                 (temp_answer (loaded w))))) w)).
Proof.
  intros Hok. unfold get_answer. rewrite bind_unfold. unfold load_history.
  cbv beta match. unfold send, send_message. by rewrite Hok.
Qed.

(** X7. Round trip of the manual slot: after a [!puzzle] that went through,
    and whatever invocations other than [!puzzle] follow (scheduled posts
    included), a delivered [!answer] shows the answer that was parsed from
    that puzzle's reply. *)
Theorem manual_answer_round_trip (author : pystr) (w w1 : world)
    (others : list invocation) :
  get_puzzle author w = (Ok tt, w1) ->
  Forall (fun i => forall author', i <> CmdPuzzle author') others ->
  w_send_ok (run_all others w1) (w_step (run_all others w1)) = true ->
  exists context topic reply puzzle answer summary_reply,
    w_requests w1 = w_requests w ++
      [Request Sonnet 1024 (PuzzlePrompt context topic) (Some reply);
       Request Haiku 100 (SummaryPrompt puzzle) (Some summary_reply)] /\
    parse_puzzle reply = Ok (puzzle, answer) /\
    temp_answer (loaded (run_all others w1)) = Some (SStr answer) /\
    get_answer (run_all others w1) =
      (Ok tt,
       tick (record_sent (MsgEmbed (answer_embed (SStr answer)))
                         (run_all others w1))).
Proof.
  intros Hrun Hothers Hok.
  pose proof (callfree_send_message) as Hcf.
  rewrite get_puzzle_run in Hrun.
  destruct (generate_puzzle (loaded w) w) as [[result|x] w2] eqn:Hg; [|done].
  pose proof Hg as Hcalls. apply generate_puzzle_calls in Hcalls
    as (context & topic & reply & puzzle & answer & sreply
        & _ & _ & Hparse & Hreq & ->).
  destruct (title _) as [t|x]; [|done].
  destruct (getitem _ "content") as [content|x]; [|done].
  cbv zeta in Hrun.
  assert (Hfile : w_file w1 = Some (set_temp_answer (SStr answer) (loaded w))).
  { apply (f_equal (fun x => w_file x.2)) in Hrun.
    rewrite send_file in Hrun. simpl snd in Hrun. by rewrite <- Hrun. }
  assert (Hreqs : w_requests w1 = w_requests w2).
  { apply (f_equal (fun x => w_requests x.2)) in Hrun.
    unfold send in Hrun. rewrite Hcf in Hrun. simpl snd in Hrun.
    by rewrite <- Hrun. }
  assert (Htemp : temp_answer (loaded (run_all others w1)) = Some (SStr answer)).
  { rewrite run_all_temp_answer by done. unfold loaded. by rewrite Hfile. }
  exists context, topic, reply, puzzle, answer, sreply.
  split; [by rewrite Hreqs, Hreq|].
  split; [done|]. split; [done|].
  rewrite get_answer_sends by done. by rewrite Htemp.
Qed.

(** X5. [!puzzle] saves before it sends: when the chat API refuses the
    message, the command raises with nothing delivered, yet the answer of
    the undelivered puzzle is already in the manual slot of the file (the
    scheduled post, which sends first, leaves the file alone in that
    case). *)
Theorem puzzle_saved_before_delivery (author : pystr) (w w1 : world) (r : post) :
  generate_puzzle (loaded w) w = (Ok r, w1) ->
  w_send_ok w (S (w_step w1)) = false ->
  exists answer w',
    r !! "answer" = Some (SStr answer) /\
    get_puzzle author w = (Raise SendError, w') /\
    w_sent w' = w_sent w /\
    w_file w' = Some (set_temp_answer (SStr answer) (loaded w)).
Proof.
  intros Hg Hrefused. rewrite get_puzzle_run, Hg.
  destruct (calm_generate_puzzle (loaded w) w)
    as [(_ & _ & _ & _ & _ & _ & Hok & Hsent & _) _].
  rewrite Hg in Hok, Hsent. simpl in Hok, Hsent.
  apply generate_puzzle_calls in Hg
    as (context & topic & reply & puzzle & answer & sreply
        & _ & _ & _ & _ & ->).
  exists answer. eexists. split; [done|].
  change (title (get_or _ "topic" _)) with (Ok (A:=pystr) (str_title topic)).
  change (getitem _ "content") with (Ok (SStr puzzle)).
  cbv beta iota zeta. unfold send, send_message.
  change (w_send_ok (write_file _ (tick w1)) (w_step (write_file _ (tick w1))))
    with (w_send_ok w1 (S (w_step w1))).
  rewrite Hok, Hrefused. split; [reflexivity|]. split; [exact Hsent|]. reflexivity.
Qed.

(** ** Malformed posts *)

Lemma select_first_error (test : post -> res bool) (good : list post)
    (bad : post) (rest : list post) (e : exn) :
  Forall (fun p => is_ok (test p) = true) good -> test bad = Raise e ->
  select test (good ++ bad :: rest) = Raise e.
Proof.
  intros Hgood Hbad. induction Hgood as [|p good Hp _ IH]; simpl.
  - by rewrite Hbad.
  - destruct (test p) as [b|x]; [|done]. simpl. by rewrite IH.
Qed.

Lemma select_error (test : post -> res bool) (l : list post) (p : post) :
  p ∈ l -> is_ok (test p) = false -> exists e, select test l = Raise e.
Proof.
  intros Hin Hp. induction l as [|q l IH]; [by apply elem_of_nil in Hin|].
  simpl. destruct (test q) as [b|x] eqn:Hq; [|by eexists]. simpl.
  apply elem_of_cons in Hin as [->|Hin]; [by rewrite Hq in Hp|].
  destruct (IH Hin) as [e ->]. by eexists.
Qed.

Lemma is_recent_dated_ok (now days : Z) (p : post) :
  dated p -> is_ok (is_recent now days p) = true.
Proof. intros Hd. by rewrite is_recent_within. Qed.

Lemma get_recent_posts_first_error (h : history) (days : Z) (w : world)
    (good : list post) (bad : post) (rest : list post) (e : exn) :
  posts h = good ++ bad :: rest -> Forall dated good ->
  days_ago (w_clock w (w_step w)) bad = Raise e ->
  get_recent_posts h days w = (Raise e, tick w).
Proof.
  intros Hposts Hgood Hbad. unfold get_recent_posts.
  destruct (posts h) as [|p l] eqn:Hp; [by destruct good|].
  rewrite bind_unfold. unfold utcnow, lift. cbv beta match.
  rewrite Hposts. rewrite (select_first_error _ good bad rest e); [done| |].
  - eapply Forall_impl; [exact Hgood|]. intros q Hq. by apply is_recent_dated_ok.
  - unfold is_recent. by rewrite Hbad.
Qed.

(** X9. How [get_recent_posts] fails: with no post at all it returns the
    empty list without reading the clock; otherwise the first post whose
    date is not usable makes it raise, whatever the window and whatever the
    age of that post: [KeyError] for a missing [date], [TypeError] for one
    that is not a string, [ValueError] for one that does not parse and
    [TypeError] for one with a UTC offset. *)
Theorem recent_posts_errors (h : history) (days : Z) (w : world) :
  (posts h = [] -> get_recent_posts h days w = (Ok [], w)) /\
  (forall good bad rest,
     posts h = good ++ bad :: rest -> Forall dated good ->
     (bad !! "date" = None ->
      get_recent_posts h days w = (Raise KeyError, tick w)) /\
     (forall v, bad !! "date" = Some v -> (forall s, v <> SStr s) ->
      get_recent_posts h days w = (Raise TypeError, tick w)) /\
     (forall s, bad !! "date" = Some (SStr s) -> fromisoformat s = None ->
      get_recent_posts h days w = (Raise ValueError, tick w)) /\
     (forall s t, bad !! "date" = Some (SStr s) -> fromisoformat s = Some t ->
      dt_aware t = true ->
      get_recent_posts h days w = (Raise TypeError, tick w))).
Proof.
  split.
  - intros Hnil. unfold get_recent_posts. by rewrite Hnil.
  - intros good bad rest Hposts Hgood.
    split; [|split; [|split]].
    + intros Hdate. eapply get_recent_posts_first_error; [done..|].
      unfold days_ago, post_date, getitem. by rewrite Hdate.
    + intros v Hdate Hv. eapply get_recent_posts_first_error; [done..|].
      unfold days_ago, post_date, getitem. rewrite Hdate. simpl.
      destruct v as [| |s]; [done..|]. by destruct (Hv s).
    + intros s Hdate Hparse. eapply get_recent_posts_first_error; [done..|].
      unfold days_ago, post_date, getitem. rewrite Hdate. simpl.
      by rewrite Hparse.
    + intros s t Hdate Hparse Haware.
      eapply get_recent_posts_first_error; [done..|].
      unfold days_ago, post_date, getitem, days_since. rewrite Hdate. simpl.
      rewrite Hparse. simpl. by rewrite Haware.
Qed.

Lemma get_recent_posts_undated (h : history) (days : Z) (w : world) (p : post) :
  p ∈ posts h -> p !! "date" = None ->
  exists e, get_recent_posts h days w = (Raise e, tick w).
Proof.
  intros Hin Hdate. unfold get_recent_posts.
  destruct (posts h) as [|q l] eqn:Hp; [by apply elem_of_nil in Hin|].
  rewrite bind_unfold. unfold utcnow, lift. cbv beta match.
  destruct (select_error (is_recent (w_clock w (w_step w)) days) (q :: l) p Hin)
    as [e He].
  - unfold is_recent, days_ago, post_date, getitem. by rewrite Hdate.
  - exists e. by rewrite He.
Qed.

Lemma build_context_block_undated (h : history) (w : world) (p : post) :
  p ∈ posts h -> p !! "date" = None ->
  exists e, build_context_block h w = (Raise e, tick w).
Proof.
  intros Hin Hdate.
  destruct (get_recent_posts_undated h 14 w p Hin Hdate) as [e He].
  exists e. unfold build_context_block. by rewrite bind_unfold, He.
Qed.

Lemma generate_fact_undated (h : history) (w : world) (p : post) :
  p ∈ posts h -> p !! "date" = None ->
  exists e w', generate_fact h w = (Raise e, w') /\
               w_requests w' = w_requests w.
Proof.
  intros Hin Hdate. unfold generate_fact.
  destruct (pick_fresh_Ok TOPICS (used_topics h) w TOPICS_nonempty)
    as (topic & Hrun & _).
  destruct (pick_fresh_Ok WONDER_TYPES (used_wonders h) (tick w)
              WONDER_TYPES_nonempty) as (wonder & Hrun' & _).
  destruct (build_context_block_undated h (tick (tick w)) p Hin Hdate) as [e He].
  rewrite bind_unfold, Hrun, bind_unfold, Hrun', bind_unfold, He.
  by eexists _, _.
Qed.

Lemma generate_content_undated (mode : pystr) (h : history) (w : world)
    (p : post) :
  p ∈ posts h -> p !! "date" = None ->
  exists e w', generate_content mode h w = (Raise e, w') /\
               w_requests w' = w_requests w.
Proof.
  intros Hin Hdate. unfold generate_content.
  destruct (pick_fresh_Ok TOPICS (used_topics h) w TOPICS_nonempty)
    as (topic & Hrun & _).
  destruct (build_context_block_undated h (tick w) p Hin Hdate) as [e He].
  repeat case_bool_decide.
  - by eapply generate_fact_undated.
  - unfold generate_what_if. rewrite bind_unfold, Hrun, bind_unfold, He.
    by eexists _, _.
  - unfold generate_puzzle. rewrite bind_unfold, Hrun, bind_unfold, He.
    by eexists _, _.
  - unfold generate_connections.
    destruct (get_recent_posts_undated h 7 w p Hin Hdate) as [e' He'].
    rewrite bind_unfold, He'. by eexists _, _.
  - by eapply generate_fact_undated.
Qed.

(** X8. One post without a [date] in the history blocks the bot: every
    generator raises before any model call is made, in every mode, and so
    every scheduled invocation only logs an error, sends nothing and leaves
    the file (the undated post included) as it is. *)
Theorem undated_post_blocks_generation (w : world) (p : post) :
  p ∈ posts (loaded w) -> p !! "date" = None ->
  (forall mode w0,
     exists e w', generate_content mode (loaded w) w0 = (Raise e, w') /\
                  w_requests w' = w_requests w0) /\
  (w_channel w = true ->
   exists e, w_log (daily_post w).2 = w_log w ++ [LogError e] /\
             w_sent (daily_post w).2 = w_sent w /\
             w_requests (daily_post w).2 = w_requests w /\
             w_file (daily_post w).2 = w_file w).
Proof.
  intros Hin Hdate. split.
  - intros mode w0. by eapply generate_content_undated.
  - intros Hch.
    set (h1 := if truthy (pending_puzzle_answer (loaded w))
               then set_pending SNone (loaded w) else loaded w).
    assert (Hin1 : p ∈ posts h1) by (unfold h1; by destruct (truthy _)).
    destruct (generate_content_undated
                (MODE_SCHEDULE (weekday (w_clock w (w_step w)))) h1 (tick w)
                p Hin1 Hdate) as (e & w' & Hgen & Hreq).
    assert (Hbody : daily_post_body w = (Raise e, w')).
    { unfold daily_post_body. rewrite bind_unfold. unfold load_history at 1.
      cbv beta match. fold (loaded w). rewrite bind_unfold.
      unfold utcnow at 1. cbv beta match. fold h1.
      by rewrite bind_unfold, Hgen. }
    unfold daily_post. rewrite bind_unfold. unfold get_channel. cbv beta match.
    rewrite Hch. change (negb true) with false. cbv beta match.
    unfold try_except. rewrite Hbody.
    apply abort_clean_daily_post_body in Hbody as (Hfile & Hsent & Hlog).
    exists e. simpl. by rewrite Hlog, Hsent, Hreq, Hfile.
Qed.

(** ** The context block *)

Lemma map_res_Forall2 {A B} (f : A -> res B) (l : list A) (bs : list B) :
  map_res f l = Ok bs -> Forall2 (fun a b => f a = Ok b) l bs.
Proof.
  revert bs. induction l as [|a l IH]; intros bs; simpl.
  - by intros [= <-].
  - destruct (f a) as [b|e] eqn:Ha; [|done]. simpl.
    destruct (map_res f l) as [bs'|e]; [|done]. simpl.
    intros [= <-]. constructor; [done | by apply IH].
Qed.

Lemma context_line_is (p : post) (line : pystr) :
  context_line p = Ok line -> is_context_line p line.
Proof.
  unfold context_line, getitem.
  destruct (p !! "date") as [[| |date]|] eqn:Hdate; try done. simpl.
  destruct (get_or p "summary" []) as [| |summary] eqn:Hsum; try done. simpl.
  intros [= <-]. by exists date, summary.
Qed.

(** X10. The context block of a well-formed history: empty when no post
    is at most 14 days old; otherwise the opening tag, one line for each of
    the last 10 of those posts (so at most 10 lines, oldest first), and the
    closing tag, each line carrying the first 10 characters of the date and
    the first 200 of the summary. *)
Theorem context_block_bounded (h : history) (w : world) :
  Forall well_formed (posts h) ->
  let recent :=
    filter (fun p => within (w_clock w (w_step w)) 14 p = true) (posts h) in
  exists w',
    (recent = [] -> build_context_block h w = (Ok [], w')) /\
    (recent <> [] ->
     exists lines,
       build_context_block h w =
         (Ok (join nl ([lit "<recent_posts>"] ++ lines ++ [lit "</recent_posts>"])),
          w') /\
       length lines = Nat.min (length recent) 10 /\
       Forall2 is_context_line (last_n 10 recent) lines).
Proof.
  intros Hwf recent. unfold build_context_block.
  rewrite bind_unfold, get_recent_posts_Ok by by apply well_formed_dated.
  fold recent. eexists. split.
  - by intros ->.
  - intros Hne.
    assert (Hrec : Forall well_formed recent) by by apply filter_Forall.
    destruct (map_res_Ok context_line (last_n 10 recent)) as [lines Hl].
    { eapply Forall_impl; [by apply last_n_Forall|]. apply context_line_Ok. }
    exists lines. destruct recent as [|r recent'] eqn:Hr; [done|].
    rewrite bind_unfold. unfold lift. rewrite Hl. split; [done|].
    apply map_res_Forall2 in Hl. split.
    + rewrite <- (Forall2_length _ _ _ Hl). apply last_n_length.
    + eapply Forall2_impl; [exact Hl|]. apply context_line_is.
Qed.

(** ** Rotation by the scheduled post *)

Lemma generated_dated_get (r : post) (k : string) (v : scalar) :
  k <> "date" -> get (<["date" := v]> r) k = get r k.
Proof. intros Hk. unfold get. by rewrite lookup_insert_ne. Qed.

Lemma generated_topic_truthy (r : post) :
  generated r -> truthy (get r "topic") = true.
Proof.
  intros (? & ? & topic & _ & _ & Ht & Hne & _). unfold get. rewrite Ht. simpl.
  by rewrite bool_decide_eq_false_2.
Qed.

Lemma generated_wonder_truthy (r : post) :
  generated r ->
  truthy (get r "wonder_type") = bool_decide (get r "mode" = SStr (lit "fact")).
Proof.
  intros (? & ? & ? & _ & _ & _ & _ & _ & _ & Hmode). unfold get.
  destruct Hmode as [[Hm (wonder & Hw & Hne & _)]|[Hw (mode & Hm & Hin)]];
    rewrite Hw, Hm; simpl.
  - by repeat case_bool_decide.
  - symmetry. apply bool_decide_eq_false_2. intros [= ->].
    rewrite !elem_of_cons, elem_of_nil in Hin.
    destruct Hin as [H|[H|[H|[]]]]; vm_compute in H; discriminate H.
Qed.

(** X12. Rotation by a scheduled post that went through: the generated
    record, with its date, is the one post appended; its topic always
    takes the newest place among the (at most 8) recent topics, the fixed
    topic of a connections post included; the recent wonder types change
    only when the record is a fact. *)
Theorem scheduled_post_rotation (w w' : world) :
  daily_post_body w = (Ok tt, w') ->
  exists result today h',
    generated result /\
    w_file w' = Some h' /\
    posts h' = posts (loaded w) ++ [<["date" := SStr (isoformat today)]> result] /\
    used_topics h'
      = last_n 8 (used_topics (loaded w) ++ [get result "topic"]) /\
    used_wonders h'
      = (if bool_decide (get result "mode" = SStr (lit "fact"))
         then last_n 5 (used_wonders (loaded w) ++ [get result "wonder_type"])
         else used_wonders (loaded w)).
Proof.
  intros Hbody. apply daily_post_body_Ok in Hbody
    as (result & w2 & e & h' & Hgen & Hap & _ & ->).
  apply generate_content_generated in Hgen.
  rewrite append_post_Ok in Hap. injection Hap as <-.
  rewrite !generated_dated_get by done.
  rewrite (generated_topic_truthy _ Hgen), (generated_wonder_truthy _ Hgen).
  eexists result, _, _. split; [done|]. split; [done|]. simpl.
  split; [by destruct (_ && _), (truthy (pending_puzzle_answer (loaded w)))|].
  split.
  - by destruct (_ && _), (truthy (pending_puzzle_answer (loaded w))).
  - destruct (bool_decide (get result "mode" = _));
      by destruct (_ && _), (truthy (pending_puzzle_answer (loaded w))).
Qed.

(** ** Invariants of the history file *)

Lemma steady_bind {A B} (m : M A) (k : A -> M B) :
  steady m -> (forall a, steady (k a)) -> steady (m ≫= k).
Proof.
  intros Hm Hk w. rewrite bind_unfold. specialize (Hm w).
  destruct (m w) as [[a|e] w1]; simpl in *; [|done].
  destruct Hm as (? & ? & ? & ? & ? & ?).
  destruct (Hk a w1) as (? & ? & ? & ? & ? & ?).
  repeat split; congruence.
Qed.

Lemma calm_steady {A} (m : M A) : calm m -> steady m.
Proof.
  intros Hm w. destruct (Hm w) as [(_ & ? & ? & ? & ? & ? & ? & _) _].
  by repeat split.
Qed.

Lemma steady_send_message (m : message) : steady (send_message m).
Proof. intros w. unfold send_message. by destruct (w_send_ok w (w_step w)). Qed.
Lemma steady_print (l : logline) : steady (print l).
Proof. done. Qed.
Lemma steady_save_history (h : history) : steady (save_history h).
Proof. done. Qed.

Lemma steady_try_except (m : M unit) :
  steady m -> steady (try_except m (fun e => print (LogError e))).
Proof.
  intros Hm w. unfold try_except. specialize (Hm w).
  by destruct (m w) as [[a|e] w1].
Qed.

Ltac steady_walk :=
  repeat first
    [ apply calm_steady; solve [calm_walk]
    | apply steady_send_message | apply steady_print
    | apply steady_save_history | apply steady_try_except
    | apply steady_bind; [| intros ?]
    | match goal with
      | |- context [match ?x with _ => _ end] => destruct x
      end ].

Lemma steady_run (i : invocation) : steady (run i).
Proof.
  destruct i; simpl.
  - unfold daily_post, daily_post_body, add_to_history. steady_walk.
  - unfold get_fact. steady_walk.
  - unfold get_what_if. steady_walk.
  - unfold get_puzzle. steady_walk.
  - unfold get_answer. steady_walk.
  - unfold show_history. steady_walk.
  - unfold show_schedule. steady_walk.
Qed.

Lemma append_post_bounded (h h' : history) (p : post) :
  bounded h -> append_post h p = Ok h' -> bounded h'.
Proof.
  intros [Hw Ht]. rewrite append_post_Ok. intros [= <-]. split; simpl.
  - destruct (truthy _); [rewrite last_n_length; lia | done].
  - destruct (truthy (get p "topic")); [rewrite last_n_length; lia | done].
Qed.

Lemma generated_stamped_well_formed (r : post) (t : Z) :
  generated r ->
  fromisoformat (isoformat t) = Some {| dt_us := t; dt_aware := false |} ->
  well_formed (<["date" := SStr (isoformat t)]> r).
Proof.
  intros (? & summary & ? & _ & Hs & _) Hrt. split.
  - exists {| dt_us := t; dt_aware := false |}. split; [|reflexivity].
    unfold post_date, getitem. rewrite lookup_insert_eq. simpl. by rewrite Hrt.
  - exists summary. unfold get_or. by rewrite lookup_insert_ne, Hs.
Qed.

(** The aggregate in the file after a scheduled invocation. *)
Lemma daily_post_loaded (w : world) :
  loaded (daily_post w).2 = loaded w \/
  exists result k h2 h',
    generated result /\
    posts h2 = posts (loaded w) /\
    used_wonders h2 = used_wonders (loaded w) /\
    used_topics h2 = used_topics (loaded w) /\
    append_post h2 (<["date" := SStr (isoformat (w_clock w k))]> result) = Ok h' /\
    loaded (daily_post w).2 = h'.
Proof.
  unfold daily_post. rewrite bind_unfold. unfold get_channel. cbv beta match.
  destruct (w_channel w); [|by left].
  change (negb true) with false. cbv beta match. unfold try_except.
  destruct (daily_post_body w) as [[[]|e] w1] eqn:Hbody.
  - right.
    destruct (calm_generate_content
                (MODE_SCHEDULE (weekday (w_clock w (w_step w))))
                (if truthy (pending_puzzle_answer (loaded w))
                 then set_pending SNone (loaded w) else loaded w) (tick w))
      as [(_ & _ & Hclock & _) _].
    apply daily_post_body_Ok in Hbody
      as (result & w2 & e & h' & Hgen & Hap & _ & ->).
    rewrite Hgen in Hclock. simpl in Hclock. rewrite Hclock in Hap.
    eexists result, _, _, h'.
    split; [by eapply generate_content_generated|].
    split; [|split; [|split; [|split; [exact Hap | done]]]];
      by destruct (_ && _), (truthy (pending_puzzle_answer (loaded w))).
  - left. apply abort_clean_daily_post_body in Hbody as (Hfile & _).
    unfold loaded. simpl. by rewrite Hfile.
Qed.

Lemma run_invariant (i : invocation) (w : world) :
  clock_round_trips w ->
  Forall well_formed (posts (loaded w)) -> bounded (loaded w) ->
  clock_round_trips (run i w).2 /\
  Forall well_formed (posts (loaded (run i w).2)) /\
  bounded (loaded (run i w).2).
Proof.
  intros Hclock Hwf Hb. split.
  { intros k. destruct (steady_run i w) as (_ & -> & _). apply Hclock. }
  assert (Hsame : forall w',
    w_file w' = w_file w ->
    Forall well_formed (posts (loaded w')) /\ bounded (loaded w')).
  { intros w' Hf. unfold loaded. by rewrite Hf. }
  destruct i; simpl.
  - destruct (daily_post_loaded w)
      as [->|(result & k & h2 & h' & Hgen & Hposts & Hw & Ht & Hap & ->)];
      [done|].
    split.
    + rewrite append_post_Ok in Hap. injection Hap as <-. simpl.
      rewrite Hposts. apply Forall_app. split; [done|].
      apply Forall_cons_2; [|apply Forall_nil_2].
      by apply generated_stamped_well_formed.
    + eapply append_post_bounded; [|exact Hap].
      destruct Hb. split; congruence.
  - apply Hsame, read_only_get_fact.
  - apply Hsame, read_only_get_what_if.
  - destruct (get_puzzle_file author w) as [Hf|[answer Hf]].
    + by apply Hsame.
    + unfold loaded at 1 2. by rewrite Hf.
  - apply Hsame, read_only_get_answer.
  - apply Hsame, read_only_show_history.
  - apply Hsame, read_only_show_schedule.
Qed.

(** X11. The history the bot keeps is always one it can read back: as
    long as [fromisoformat] reads back what [isoformat] writes for the
    clock's readings, any sequence of invocations that starts from a
    well-formed aggregate with rotation lists within their bounds (from no
    file at all, in particular) leaves such an aggregate in the file:
    every post has a date that parses and a string summary, at most 5
    wonder types and 8 topics are remembered. *)
Theorem history_stays_well_formed (invocations : list invocation) (w : world) :
  clock_round_trips w ->
  (Forall well_formed (posts (loaded w)) -> bounded (loaded w) ->
   Forall well_formed (posts (loaded (run_all invocations w))) /\
   bounded (loaded (run_all invocations w))) /\
  (w_file w = None ->
   Forall well_formed (posts (loaded (run_all invocations w))) /\
   bounded (loaded (run_all invocations w))).
Proof.
  intros Hclock.
  assert (Hgen : Forall well_formed (posts (loaded w)) -> bounded (loaded w) ->
    Forall well_formed (posts (loaded (run_all invocations w))) /\
    bounded (loaded (run_all invocations w))).
  { revert w Hclock. induction invocations as [|i rest IH];
      intros w Hclock Hwf Hb; [done|].
    destruct (run_invariant i w Hclock Hwf Hb) as (? & ? & ?).
    simpl. by apply IH. }
  split; [done|]. intros Hnone. apply Hgen; unfold loaded; rewrite Hnone.
  - apply Forall_nil_2.
  - split; simpl; lia.
Qed.

(** ** The listing and the fact on demand *)

Lemma history_line_is (p : post) (line : pystr) :
  history_line p = Ok line -> is_history_line p line.
Proof.
  unfold history_line.
  destruct (get_or p "date" []) as [| |date] eqn:Hdate; try done. simpl.
  intros [= <-]. by exists date.
Qed.

Lemma history_line_Ok (p : post) :
  (exists date, get_or p "date" [] = SStr date) ->
  exists line, history_line p = Ok line.
Proof. intros [date Hdate]. unfold history_line. rewrite Hdate. by eexists. Qed.

(** X13. [!history count] lists the [count] most recent posts, newest
    first, under a title that gives their number; a count larger than the
    history lists all of it, a count of 0 lists all of it as well, and a
    negative count all but the first posts.  A post without a date is
    listed with an empty date; only a date that is not a string makes the
    command raise.  With nothing to list it answers with a plain text. *)
Theorem show_history_lists (count : Z) (w : world) :
  w_send_ok w (w_step w) = true ->
  let all := posts (loaded w) in
  let shown := tail_slice count all in
  (0 < count -> shown = last_n (Z.to_nat count) all /\
                length shown = Nat.min (length all) (Z.to_nat count)) /\
  (count = 0 -> shown = all) /\
  (count < 0 -> shown = drop (Z.to_nat (- count)) all) /\
  (shown = [] ->
   show_history count w
   = (Ok tt, tick (record_sent (MsgText (lit "No posting history yet!")) w))) /\
  (shown <> [] ->
   Forall (fun p => exists date, get_or p "date" [] = SStr date) shown ->
   exists lines e,
     show_history count w = (Ok tt, tick (record_sent (MsgEmbed e) w)) /\
     e_title e = lit "Last " ++ lit (pretty (length shown)) ++ lit " Posts" /\
     e_description e = SStr (join nl lines) /\
     Forall2 is_history_line (rev shown) lines).
Proof.
  intros Hok all shown.
  split; [|split; [|split; [|split]]].
  - intros Hpos. unfold shown, tail_slice.
    apply Z.ltb_lt in Hpos. rewrite Hpos. split; [done | apply last_n_length].
  - intros ->. done.
  - intros Hneg. unfold shown, tail_slice.
    by replace (0 <? count) with false by (symmetry; apply Z.ltb_ge; lia).
  - intros Hnil. unfold show_history. rewrite bind_unfold.
    unfold load_history at 1. cbv beta match. fold (loaded w).
    fold all. fold shown. rewrite Hnil.
    unfold send_text, send_message. by rewrite Hok.
  - intros Hne Hdates. unfold show_history. rewrite bind_unfold.
    unfold load_history at 1. cbv beta match. fold (loaded w).
    fold all. fold shown.
    destruct (map_res_Ok history_line (rev shown)) as [lines Hl].
    { apply Forall_rev. eapply Forall_impl; [exact Hdates|].
      apply history_line_Ok. }
    destruct shown as [|p shown'] eqn:Hs; [done|].
    rewrite bind_unfold. unfold lift. rewrite Hl.
    unfold send, send_message. rewrite Hok.
    eexists lines, _. split; [reflexivity|]. split; [done|]. split; [done|].
    apply map_res_Forall2 in Hl. eapply Forall2_impl; [exact Hl|].
    apply history_line_is.
Qed.

(** X14. [!fact <topic>] with a non-empty topic does not use the history
    it loads.  For a history file that can be read (absent, or holding an
    aggregate; on a file that is not valid JSON [load_history], which the
    command calls first, raises) its run is the same whatever the aggregate
    is, malformed posts included, and it does not write the file: it makes
    one model call with the topic, no summary call, and, when that call
    answers and the message is delivered, sends the reply under the
    title-cased topic. *)
Theorem custom_fact_ignores_history (author topic : pystr) (w : world) :
  topic <> [] ->
  (forall f,
     get_fact author (Some topic) (put_file f w)
     = ((get_fact author (Some topic) w).1,
        put_file f (get_fact author (Some topic) w).2)) /\
  (forall reply,
     w_llm w (w_step w) = Some reply ->
     w_send_ok w (S (S (w_step w))) = true ->
     exists w',
       get_fact author (Some topic) w = (Ok tt, w') /\
       w_requests w' = w_requests w ++
         [Request Sonnet 1024 (CustomFactPrompt topic) (Some reply)] /\
       w_sent w' = w_sent w ++
         [MsgEmbed {| e_title := lit "Fact: " ++ str_title topic;
                      e_description := SStr reply;
                      e_color := 0x5865F2;
                      e_timestamp := Some (w_clock w (S (w_step w)));
                      e_footer := Some (lit "Requested by " ++ author);
                      e_fields := [] |}] /\
       w_file w' = w_file w).
Proof.
  intros Hne. destruct topic as [|c t]; [done|]. split.
  - intros f. unfold get_fact.
    repeat (progress (rewrite ?bind_unfold;
                      unfold lift, utcnow, load_history, claude_create; cbn)).
    destruct (w_llm w (w_step w)) as [reply|]; [|done].
    repeat (progress (rewrite ?bind_unfold; unfold lift, utcnow; cbn)).
    unfold send, send_message. cbn.
    by destruct (w_send_ok w (S (S (w_step w)))).
  - intros reply Hreply Hok. unfold get_fact.
    repeat (progress (rewrite ?bind_unfold;
                      unfold lift, utcnow, load_history, claude_create; cbn)).
    rewrite Hreply.
    repeat (progress (rewrite ?bind_unfold; unfold lift, utcnow; cbn)).
    unfold send, send_message. cbn. rewrite Hok. by eexists.
Qed.

(** ** What the puzzle parse keeps *)

Lemma lstrip_spec (s : pystr) :
  exists l, s = l ++ lstrip s /\ blank l /\
            forall c, head (lstrip s) = Some c -> isspace c = false.
Proof.
  induction s as [|c s (l & Heq & Hl & Hhead)]; simpl.
  - exists []. split; [done|]. split; [constructor | done].
  - destruct (isspace c) eqn:Hc.
    + exists (c :: l). split; [by rewrite Heq at 1|].
      split; [by constructor | done].
    + exists []. split; [done|]. split; [constructor|].
      simpl. by intros ? [= <-].
Qed.

Lemma strip_spec (s : pystr) :
  exists l r, s = l ++ strip s ++ r /\ blank l /\ blank r /\ trimmed (strip s).
Proof.
  unfold strip, rstrip.
  destruct (lstrip_spec s) as (l & Heq & Hl & Hhead).
  destruct (lstrip_spec (rev (lstrip s))) as (r & Heq' & Hr & Hlast).
  set (m := lstrip s) in *. set (k := lstrip (rev m)) in *.
  assert (Hm : m = rev k ++ rev r).
  { by rewrite <- rev_app_distr, <- Heq', rev_involutive. }
  exists l, (rev r). split; [by rewrite <- Hm|].
  split; [done|]. split; [by apply Forall_rev|]. split.
  - intros c Hc. apply Hhead. rewrite Hm.
    destruct (rev k); [done | by simpl in *].
  - intros c Hc. apply Hlast.
    destruct k as [|a k']; [done|]. simpl in Hc.
    rewrite last_snoc in Hc. by simpl.
Qed.

Lemma split_once_Some (pat s before after : pystr) :
  split_once pat s = Some (before, after) -> s = before ++ pat ++ after.
Proof.
  unfold split_once. destruct (str_find pat s) as [i|] eqn:Hfind; [|done].
  destruct (str_find_split _ _ _ Hfind) as (rest & Hsplit & Hlen).
  intros [= <- <-]. rewrite Hsplit at 1. do 2 f_equal.
  rewrite Hsplit at 1. rewrite <- drop_drop.
  rewrite <- Hlen at 1. rewrite drop_app_length. by rewrite drop_app_length.
Qed.

(** X15. The puzzle parse loses nothing but whitespace and the marker:
    when the reply holds the marker, the reply is the puzzle, the marker
    and the answer, in this order, separated and surrounded by whitespace
    only, and neither the puzzle nor the answer begins or ends with
    whitespace. *)
Theorem puzzle_parse_lossless (raw puzzle answer : pystr) :
  parse_puzzle raw = Ok (puzzle, answer) ->
  (exists before after, raw = before ++ ANSWER_MARKER ++ after) ->
  exists l1 r1 l2 r2,
    raw = l1 ++ puzzle ++ r1 ++ ANSWER_MARKER ++ l2 ++ answer ++ r2 /\
    blank l1 /\ blank r1 /\ blank l2 /\ blank r2 /\
    trimmed puzzle /\ trimmed answer.
Proof.
  intros Hparse (before & after & Hraw). unfold parse_puzzle in Hparse.
  rewrite Hraw, contains_occurs in Hparse. rewrite <- Hraw in Hparse.
  destruct (split_once ANSWER_MARKER raw) as [[b a]|] eqn:Hsplit; [|done].
  injection Hparse as <- <-.
  apply split_once_Some in Hsplit. rewrite Hsplit. clear Hraw Hsplit.
  destruct (strip_spec b) as (l1 & r1 & Hb & ? & ? & ?).
  destruct (strip_spec a) as (l2 & r2 & Ha & ? & ? & ?).
  exists l1, r1, l2, r2. split; [|done].
  rewrite Hb at 1. rewrite Ha at 1.
  by rewrite <- !app_assoc.
Qed.

(** ** The weekly synthesis *)

Lemma digest_line_is (p : post) (line : pystr) :
  digest_line p = Ok line -> is_digest_line p line.
Proof.
  unfold digest_line.
  destruct (get_or p "summary" []) as [| |summary] eqn:Hsum; try done. simpl.
  intros [= <-]. by exists summary.
Qed.

(** X16. The weekly synthesis: when at least 3 posts of a well-formed
    history have a whole-day age of at most 7, [generate_connections] asks
    the model to connect the week, with one bullet for every one of these
    posts in their order (no cap on their number, unlike the context block)
    and each summary cut to 200 characters; it then returns a record of
    mode "connections" under the fixed topic "weekly synthesis", with the
    reply as content and no wonder type, and it does return while the model
    answers. *)
Theorem connections_synthesis (h : history) (w : world) :
  Forall well_formed (posts h) ->
  let recent :=
    filter (fun p => within (w_clock w (w_step w)) 7 p = true) (posts h) in
  (3 <= length recent)%nat ->
  (forall r w', generate_connections h w = (Ok r, w') ->
     exists lines content reply,
       Forall2 is_digest_line recent lines /\
       w_requests w' = w_requests w ++
         [Request Sonnet 1024 (ConnectionsPrompt (join nl lines)) (Some content);
          Request Haiku 100 (SummaryPrompt content) (Some reply)] /\
       r = dict [("content", SStr content); ("mode", SStr (lit "connections"));
                 ("topic", SStr (lit "weekly synthesis"));
                 ("summary", SStr (strip reply))] /\
       r !! "wonder_type" = None) /\
  (llm_total w -> exists r w', generate_connections h w = (Ok r, w')).
Proof.
  intros Hwf recent Hlen.
  assert (Hrec : get_recent_posts h 7 w =
                 (Ok recent, match posts h with [] => w | _ :: _ => tick w end)).
  { apply get_recent_posts_Ok. by apply well_formed_dated. }
  split.
  - intros r w' Hg.
    apply generate_connections_calls in Hg as (recent' & w1 & Hrec' & Hg).
    rewrite Hrec in Hrec'. injection Hrec' as <- <-.
    destruct Hg as [[Hlt _]|[_ (lines & content & reply & Hlines & Hreq & ->)]];
      [lia|].
    exists lines, content, reply. split; [|done].
    apply map_res_Forall2 in Hlines.
    eapply Forall2_impl; [exact Hlines|]. apply digest_line_is.
  - intros Hllm. unfold generate_connections.
    rewrite bind_unfold, Hrec.
    apply Nat.ltb_ge in Hlen. rewrite Hlen.
    destruct (map_res_Ok digest_line recent) as [lines Hlines].
    { eapply Forall_impl; [by apply filter_Forall|]. apply digest_line_Ok. }
    rewrite bind_unfold. unfold lift at 1. rewrite Hlines.
    set (w1 := match posts h with [] => w | _ :: _ => tick w end).
    assert (Hllm1 : llm_total w1).
    { intros k. unfold w1. destruct (posts h); apply Hllm. }
    destruct (succeeds_claude_create Sonnet 1024
                (ConnectionsPrompt (join nl lines)) w1 Hllm1)
      as (content & w2 & Hcall & Hllm2 & _).
    rewrite bind_unfold, Hcall.
    destruct (succeeds_generate_summary content w2 Hllm2)
      as (summary & w3 & Hsum & _).
    rewrite bind_unfold, Hsum. by eexists _, _.
Qed.

(** ** The label of the scheduled post *)

(** The message a scheduled post that went through has sent, and its log
    line. *)
Lemma daily_post_body_embed (w w' : world) :
  daily_post_body w = (Ok tt, w') ->
  let h := loaded w in
  let a0 := pending_puzzle_answer h in
  let h1 := if truthy a0 then set_pending SNone h else h in
  let mode := MODE_SCHEDULE (weekday (w_clock w (w_step w))) in
  exists result w2 fact_topic puzzle_topic description,
    generate_content mode h1 (tick w) = (Ok result, w2) /\
    w_sent w' = w_sent w ++
      [MsgEmbed {| e_title := title_map (lit "Daily Wonder: " ++ fact_topic)
                                        (lit "Puzzle: " ++ puzzle_topic) mode;
                   e_description := description;
                   e_color := color_map mode;
                   e_timestamp := Some (w_clock w (w_step w2));
                   e_footer := Some (lit "Powered by Claude");
                   e_fields := [] |}] /\
    w_log w' = w_log w ++
      [LogPosted mode (get_or result "topic" (lit "unknown"))].
Proof.
  intros Hbody h a0 h1 mode.
  unfold daily_post_body in Hbody.
  apply bind_Ok in Hbody as (h_ & w0 & Hload & Hbody).
  unfold load_history in Hload. injection Hload as <- <-.
  fold (loaded w) in Hbody. fold h in Hbody. fold a0 in Hbody.
  apply bind_Ok in Hbody as (now & w1 & Hnow & Hbody).
  unfold utcnow in Hnow. injection Hnow as <- <-.
  fold mode in Hbody. fold h1 in Hbody.
  apply bind_Ok in Hbody as (result & w2 & Hgen & Hbody).
  apply bind_Ok in Hbody as (h2 & w3 & Hset & Hbody).
  assert (w3 = w2) as ->.
  { destruct (bool_decide (mode = lit "puzzle") && truthy (get result "answer")).
    - apply bind_Ok in Hset as (a & w4 & Ha & Hset).
      apply lift_Ok in Ha as [_ ->]. by injection Hset as _ <-.
    - by injection Hset as _ <-. }
  clear Hset.
  apply bind_Ok in Hbody as (content & w4 & Hcontent & Hbody).
  apply lift_Ok in Hcontent as [_ ->].
  apply bind_Ok in Hbody as (fact_topic & w4 & Ht1 & Hbody).
  apply lift_Ok in Ht1 as [_ ->].
  apply bind_Ok in Hbody as (puzzle_topic & w4 & Ht2 & Hbody).
  apply lift_Ok in Ht2 as [_ ->].
  apply bind_Ok in Hbody as (stamp & w4 & Hstamp & Hbody).
  unfold utcnow in Hstamp. injection Hstamp as <- <-.
  apply bind_Ok in Hbody as ([] & w5 & Hsend & Hbody).
  apply send_Ok in Hsend as ->.
  apply bind_Ok in Hbody as ([] & w6 & Hprint & Hbody).
  unfold print in Hprint. injection Hprint as <-.
  apply bind_Ok in Hbody as (today & w7 & Htoday & Hbody).
  unfold utcnow in Htoday. injection Htoday as <- <-.
  apply bind_Ok in Hbody as (h' & w8 & Hadd & Hbody).
  injection Hbody as <-.
  match type of Hadd with
  | add_to_history ?hh ?pp ?ww = _ =>
      destruct (add_to_history_Ok hh pp ww) as (h'' & Hap & Hadd')
  end.
  rewrite Hadd' in Hadd. injection Hadd as -> <-.
  destruct (calm_generate_content mode h1 (tick w))
    as [(_ & _ & Hclock & _ & _ & _ & _ & Hsent & Hlog) _].
  rewrite Hgen in Hsent, Hlog, Hclock. simpl in Hsent, Hlog, Hclock.
  eexists result, w2, fact_topic, puzzle_topic, _.
  split; [done|]. simpl. rewrite Hsent, Hlog, Hclock. done.
Qed.

(** X17. A Sunday that falls back to a fact keeps the Sunday label.  On a
    scheduled post of weekday 6 that went through with fewer than 3 posts
    of the last 7 days, the message is titled "Weekly Connections" in the
    connections colour and the log line names the mode "connections",
    while the post that is saved has the mode "fact", one of the
    configured topics, and a wonder type. *)
Theorem degraded_sunday_label (w w' : world) :
  daily_post_body w = (Ok tt, w') ->
  weekday (w_clock w (w_step w)) = 6 ->
  Forall dated (posts (loaded w)) ->
  (length (filter (fun p => within (w_clock w (S (w_step w))) 7 p = true)
                  (posts (loaded w))) < 3)%nat ->
  exists e topic wonder h' saved,
    w_sent w' = w_sent w ++ [MsgEmbed e] /\
    e_title e = lit "Weekly Connections " ++ [240; 376; 167; 181]%N /\
    e_color e = 0x57F287 /\
    w_log w' = w_log w ++ [LogPosted (lit "connections") (SStr topic)] /\
    topic ∈ TOPICS /\ wonder ∈ WONDER_TYPES /\
    w_file w' = Some h' /\ last (posts h') = Some saved /\
    saved !! "mode" = Some (SStr (lit "fact")) /\
    saved !! "topic" = Some (SStr topic) /\
    saved !! "wonder_type" = Some (SStr wonder).
Proof.
  intros Hbody Hsun Hd Hfew.
  pose proof (daily_post_body_embed _ _ Hbody)
    as (result & w2 & ft & pt & descr & Hgen & Hsent & Hlog).
  apply daily_post_body_Ok in Hbody
    as (result' & w2' & e' & h' & Hgen' & Hap & _ & Hw').
  assert (Hfile : w_file w' = Some h') by by rewrite Hw'.
  clear Hw' e'.
  rewrite Hgen in Hgen'. injection Hgen' as <- <-.
  rewrite Hsun in Hgen, Hsent, Hlog, Hap.
  change (MODE_SCHEDULE 6) with (lit "connections") in *.
  set (h1 := if truthy (pending_puzzle_answer (loaded w))
             then set_pending SNone (loaded w) else loaded w) in *.
  assert (Hposts : posts h1 = posts (loaded w)).
  { unfold h1. by destruct (truthy _). }
  change (generate_content (lit "connections") h1)
    with (generate_connections h1) in Hgen.
  apply generate_connections_calls in Hgen as (recent & w1 & Hrec & Hgen).
  rewrite get_recent_posts_Ok in Hrec by by rewrite Hposts.
  rewrite Hposts in Hrec. simpl in Hrec.
  assert (Hrecent : recent =
            filter (fun p => within (w_clock w (S (w_step w))) 7 p = true)
                   (posts (loaded w))) by congruence.
  destruct Hgen as [[_ Hfact]|[Hge _]]; [|rewrite Hrecent in Hge; lia].
  apply generate_fact_Ok in Hfact
    as (topic & wonder & content & summary & callback & _ & _ & Ht & Hw & ->).
  rewrite append_post_Ok in Hap. injection Hap as <-.
  eexists _, topic, wonder, _, _.
  split; [exact Hsent|]. split; [done|]. split; [done|].
  split; [exact Hlog|]. split; [done|]. split; [done|].
  split; [exact Hfile|]. simpl. rewrite last_snoc. done.
Qed.

End Bot.

(** * Examples *)

(** A scheduled run on a Friday with yesterday's answer pending: the
    answer is revealed and the new puzzle's answer takes the slot. *)
Lemma deferred_answer_slot_witness :
  let w := friday_world (Some awaiting_reveal) answering in
  daily_post iso_parse iso_format ascii_title w
  = (Ok tt, (daily_post_body iso_parse iso_format ascii_title w).2).
Proof.
  intros w.
  exact (proj1 (deferred_answer_slot iso_parse iso_format ascii_title w
                  (daily_post_body iso_parse iso_format ascii_title w).2
                  eq_refl
                  ltac:(vm_compute; reflexivity))).
Defined.

(** On a Friday the model leaves the answer section empty: the parsed
    answer is the empty string, and after the post the pending slot is
    null, not that answer. *)
Lemma deferred_answer_empty_not_stored :
  let w := friday_world (Some awaiting_reveal) answer_missing in
  let w' := (daily_post iso_parse iso_format ascii_title w).2 in
  MODE_SCHEDULE (weekday (w_clock w 0%nat)) = lit "puzzle" /\
  parse_puzzle (lit "Riddle me this. ANSWER:") = Ok (lit "Riddle me this.", []) /\
  w_log w' = [LogPosted (lit "puzzle") (SStr (lit "number theory"))] /\
  pending_puzzle_answer <$> w_file w' = Some SNone /\
  pending_puzzle_answer <$> w_file w' <> Some (SStr []).
Proof. vm_compute. repeat split; discriminate. Qed.

(** The model is down on a Friday: the file still holds yesterday's
    answer after the run. *)
Lemma failure_atomicity_witness :
  let w := friday_world (Some awaiting_reveal) unreachable in
  w_file (run iso_parse iso_format ascii_title Scheduled w).2 = Some awaiting_reveal.
Proof.
  intros w.
  refine (proj1 (failure_atomicity iso_parse iso_format ascii_title Scheduled w _)).
  vm_compute. discriminate.
Defined.

(** With no option to choose from, [pick_fresh] raises. *)
Lemma pick_fresh_no_options :
  pick_fresh [] [] (friday_world None answering)
  = (Raise IndexError, friday_world None answering).
Proof. reflexivity. Qed.

Lemma pick_fresh_spec_witness :
  let w := friday_world None answering in
  exists x, pick_fresh TOPICS [SStr (lit "quantum mechanics")] w = (Ok x, tick w) /\
            x ∈ TOPICS.
Proof.
  intros w.
  destruct (pick_fresh_spec TOPICS [SStr (lit "quantum mechanics")] w)
    as [_ (x & Hrun & Hx & _)]; [discriminate|].
  by exists x.
Defined.

(** Seven posts with a wonder type leave five in the rotation list. *)
Lemma rotation_window_witness :
  let ps := replicate 7 post_today in
  exists h w', add_all empty_history ps (friday_world None answering) = (Ok h, w') /\
               length (used_wonders h) = 5%nat.
Proof.
  intros ps.
  destruct (rotation_window ps (friday_world None answering))
    as [(h & w' & Hall & _ & _ & _ & _ & Hw & _) _].
  exists h, w'. split; [exact Hall|].
  destruct Hw as [Hlen _]; [|exact Hlen].
  repeat constructor.
Defined.

(** A reply with the marker in the middle. *)
Lemma puzzle_parsing_witness :
  parse_puzzle (lit "Puzzle text." ++ nl ++ nl ++ lit "ANSWER: 42")
  = Ok (strip (lit "Puzzle text." ++ nl ++ nl), strip (lit " 42")).
Proof.
  destruct (puzzle_parsing iso_parse
              (lit "Puzzle text." ++ nl ++ nl ++ lit "ANSWER: 42"))
    as [Hfirst _].
  apply Hfirst; [reflexivity|].
  intros before' after' Heq.
  destruct (str_find_occurs ANSWER_MARKER before' after') as (k & Hk & Hle).
  rewrite <- Heq in Hk. vm_compute in Hk. injection Hk as <-. exact Hle.
Defined.

Ltac dated_now := eexists; split; [vm_compute; reflexivity | reflexivity].

Lemma three_posts_well_formed : Forall (well_formed iso_parse) (posts three_posts).
Proof.
  repeat first
    [ apply Forall_nil_2
    | apply Forall_cons_2; [split; [dated_now | by eexists]|] ].
Qed.

Lemma eight_posts_dated : Forall (dated iso_parse) (posts eight_posts).
Proof. repeat first [apply Forall_nil_2 | apply Forall_cons_2; [dated_now|]]. Qed.

(** Posts of today, of 6 days ago and of 8 days ago: the first two are
    recent. *)
Lemma recent_posts_spec_witness :
  let w := friday_world None answering in
  get_recent_posts iso_parse three_posts 7 w
  = (Ok [post_today; post_6_days], tick w).
Proof.
  intros w.
  destruct (recent_posts_spec iso_parse three_posts 7 w) as (_ & _ & Hdated).
  destruct Hdated as (_ & _ & Hex).
  - apply well_formed_dated, three_posts_well_formed.
  - apply (Hex post_today post_6_days post_8_days);
      [reflexivity | vm_compute; reflexivity ..].
Defined.

(** A dated post followed by one without a date: the claim's filter would
    give the first post; the lookup of the missing date raises. *)
Lemma recent_posts_undated_raises :
  let w := friday_world None answering in
  filter (fun p => within iso_parse (w_clock w 0%nat) 7 p = true) (posts with_undated)
  = [post_today] /\
  get_recent_posts iso_parse with_undated 7 w = (Raise KeyError, tick w).
Proof. split; vm_compute; reflexivity. Qed.

(** Eight posts, four of them facts between 7 and 21 days old: one of them
    is the candidate. *)
Lemma callback_candidate_spec_witness :
  let w := friday_world None answering in
  exists p, get_callback_candidate iso_parse eight_posts w
            = (Ok (Some p), tick (tick w)) /\
            get p "mode" = SStr (lit "fact").
Proof.
  intros w.
  destruct (callback_candidate_spec iso_parse eight_posts w) as (_ & _ & Hge).
  destruct Hge as (Hmem & _ & Hsome); [simpl; lia | apply eight_posts_dated |].
  destruct Hsome as (p & Hrun & Hp & _).
  { intros Hnil. apply (f_equal length) in Hnil. vm_compute in Hnil.
    discriminate Hnil. }
  exists p. split; [exact Hrun|].
  apply list_elem_of_lookup_2, Hmem in Hp as (_ & d & _ & _ & Hmode).
  exact Hmode.
Defined.

(** Seven posts of which none is a fact in the band, so that the claim
    predicts none; one of them has no date and the lookup raises. *)
Lemma callback_candidate_undated_raises :
  let w := friday_world None answering in
  length (posts seven_with_undated) = 7%nat /\
  filter (fun p => in_band iso_parse (w_clock w 0%nat) p = true)
         (posts seven_with_undated) = [] /\
  get_callback_candidate iso_parse seven_with_undated w = (Raise KeyError, tick w).
Proof. split; [|split]; vm_compute; reflexivity. Qed.

(** Two posts in the last 7 days: the connections generator returns a
    fact. *)
Lemma connections_degrades_witness :
  let w := friday_world None answering in
  exists p w', generate_connections iso_parse three_posts w = (Ok p, w') /\
               p !! "mode" = Some (SStr (lit "fact")).
Proof.
  intros w.
  destruct (connections_degrades iso_parse three_posts w) as (_ & Hmode & Hrun).
  - vm_compute. lia.
  - destruct Hrun as (p & w' & Hrun);
      [apply three_posts_well_formed | intros k; by eexists |].
    exists p, w'. split; [exact Hrun|].
    by destruct (Hmode p w' Hrun) as (_ & Hfact & _).
Defined.

(** One post in the last 7 days and a post without a date: no record is
    produced, the lookup of the date raises. *)
Lemma connections_undated_raises :
  let w := friday_world None answering in
  (length (filter (fun p => within iso_parse (w_clock w 0%nat) 7 p = true)
                  (posts with_undated)) < 3)%nat /\
  generate_connections iso_parse with_undated w = (Raise KeyError, tick w).
Proof. split; [vm_compute; lia | vm_compute; reflexivity]. Qed.


(** ** Examples of the further properties *)

(** The model is down on a Friday: the scheduled run logs the error of
    the generation, sends nothing and leaves the file. *)
Lemma daily_post_outcomes_witness :
  let w := friday_world (Some awaiting_reveal) unreachable in
  let w' := (daily_post iso_parse iso_format ascii_title w).2 in
  w_log w' = w_log w ++ [LogError ModelError] /\
  w_sent w' = w_sent w /\ w_file w' = w_file w.
Proof.
  intros w w'.
  destruct (daily_post_outcomes iso_parse iso_format ascii_title w)
    as (_ & _ & Hchannel).
  destruct Hchannel as (Hgen & _ & _); [reflexivity|].
  apply (Hgen ModelError
           (generate_content iso_parse (lit "puzzle")
              (set_pending SNone awaiting_reveal) (tick w)).2).
  vm_compute. reflexivity.
Defined.

(** A what-if on an empty file whose rotation list names one topic: the
    topic drawn is another one. *)
Lemma fresh_pick_avoids_recent_witness :
  let h := set_used_topics [SStr (lit "quantum mechanics")] empty_history in
  exists r w' topic,
    generate_content iso_parse (lit "what_if") h (friday_world None answering)
    = (Ok r, w') /\
    r !! "topic" = Some (SStr topic) /\ topic <> lit "quantum mechanics".
Proof.
  intros h.
  pose (out := generate_content iso_parse (lit "what_if") h
                (friday_world None answering)).
  pose (r := match out.1 with Ok r => r | Raise _ => ∅ end).
  pose (w' := out.2).
  assert (Hg : generate_content iso_parse (lit "what_if") h
                 (friday_world None answering) = (Ok r, w'))
    by (vm_compute; reflexivity).
  destruct (fresh_pick_avoids_recent iso_parse (lit "what_if") h
              (friday_world None answering) w' r) as [(topic & Ht & Hfresh) _].
  - split; simpl; lia.
  - exact Hg.
  - exists r, w', topic. split; [exact Hg|]. split; [exact Ht|].
    destruct Hfresh as [Hn|[Hm _]].
    + intros ->. apply Hn. constructor.
    + vm_compute in Hm. discriminate Hm.
Defined.

(** A puzzle generated on an empty file has made two requests. *)
Lemma generation_requests_witness :
  exists r w',
    generate_content iso_parse (lit "puzzle") empty_history
      (friday_world None answering) = (Ok r, w') /\
    length (w_requests w') = 2%nat.
Proof.
  pose (out := generate_content iso_parse (lit "puzzle") empty_history
                (friday_world None answering)).
  pose (r := match out.1 with Ok r => r | Raise _ => ∅ end).
  pose (w' := out.2).
  assert (Hg : generate_content iso_parse (lit "puzzle") empty_history
                 (friday_world None answering) = (Ok r, w'))
    by (vm_compute; reflexivity).
  destruct (generation_requests iso_parse (lit "puzzle") empty_history
              (friday_world None answering) w' r Hg)
    as (p & reply & content & summary_reply & Hreq & _).
  exists r, w'. split; [exact Hg|]. rewrite Hreq. reflexivity.
Defined.

(** With three posts on file a fact carries no callback. *)
Lemma callback_needs_history_witness :
  exists r w',
    generate_fact iso_parse three_posts (friday_world None answering) = (Ok r, w') /\
    r !! "had_callback" = Some (SBool false).
Proof.
  pose (out := generate_fact iso_parse three_posts (friday_world None answering)).
  pose (r := match out.1 with Ok r => r | Raise _ => ∅ end).
  pose (w' := out.2).
  assert (Hg : generate_fact iso_parse three_posts (friday_world None answering)
               = (Ok r, w'))
    by (vm_compute; reflexivity).
  destruct (callback_needs_history iso_parse three_posts
              (friday_world None answering) w' r Hg)
    as (context & topic & wonder & callback_text & reply & _ & _ & Hfew).
  exists r, w'. split; [exact Hg|]. apply Hfew. simpl. lia.
Defined.

(** [!puzzle] when the chat API refuses the message: the command raises,
    nothing is delivered, and the answer is on file. *)
Lemma puzzle_saved_before_delivery_witness :
  let w := undelivered_world None answering in
  exists answer w',
    get_puzzle iso_parse ascii_title (lit "ada") w = (Raise SendError, w') /\
    w_sent w' = w_sent w /\
    w_file w' = Some (set_temp_answer (SStr answer) (loaded w)).
Proof.
  intros w.
  pose (out := generate_puzzle iso_parse (loaded w) w).
  pose (r := match out.1 with Ok r => r | Raise _ => ∅ end).
  pose (w1 := out.2).
  assert (Hg : generate_puzzle iso_parse (loaded w) w = (Ok r, w1))
    by (vm_compute; reflexivity).
  destruct (puzzle_saved_before_delivery iso_parse ascii_title (lit "ada") w w1 r Hg)
    as (answer & w' & _ & Hrun & Hsent & Hfile); [reflexivity|].
  exists answer, w'. split; [exact Hrun|]. split; [exact Hsent | exact Hfile].
Defined.

(** [!puzzle], then a fact on demand, a scheduled post and a listing:
    [!answer] still delivers the answer of that puzzle. *)
Lemma manual_answer_round_trip_witness :
  let w := friday_world None answering in
  let w1 := (get_puzzle iso_parse ascii_title (lit "ada") w).2 in
  let w2 := run_all iso_parse iso_format ascii_title
              [CmdFact (lit "bob") None; Scheduled; CmdHistory 5] w1 in
  exists answer,
    get_answer w2
    = (Ok tt, tick (record_sent (MsgEmbed (answer_embed (SStr answer))) w2)).
Proof.
  intros w w1 w2.
  destruct (manual_answer_round_trip iso_parse iso_format ascii_title (lit "ada")
              w w1 [CmdFact (lit "bob") None; Scheduled; CmdHistory 5])
    as (context & topic & reply & puzzle & answer & summary_reply
        & _ & _ & _ & Hanswer).
  - vm_compute. reflexivity.
  - repeat (apply Forall_cons_2; [intros author'; discriminate|]).
    apply Forall_nil_2.
  - vm_compute. reflexivity.
  - exists answer. exact Hanswer.
Defined.

(** A scheduled run on a file that holds an undated post logs the error
    and leaves the file as it was. *)
Lemma undated_post_blocks_generation_witness :
  let w := friday_world (Some with_undated) answering in
  exists e,
    w_log (daily_post iso_parse iso_format ascii_title w).2
    = w_log w ++ [LogError e] /\
    w_file (daily_post iso_parse iso_format ascii_title w).2 = w_file w.
Proof.
  intros w.
  destruct (undated_post_blocks_generation iso_parse iso_format ascii_title
              w post_undated) as [_ Hrun].
  - apply elem_of_cons. right. apply elem_of_cons. by left.
  - vm_compute. reflexivity.
  - destruct Hrun as (e & Hlog & _ & _ & Hfile); [reflexivity|].
    exists e. split; [exact Hlog | exact Hfile].
Defined.

(** The undated post after a dated one: the lookup of its date raises. *)
Lemma recent_posts_errors_witness :
  let w := friday_world None answering in
  get_recent_posts iso_parse with_undated 7 w = (Raise KeyError, tick w).
Proof.
  intros w.
  destruct (recent_posts_errors iso_parse with_undated 7 w) as [_ Hbad].
  destruct (Hbad [post_today] post_undated []) as [Hkey _].
  - reflexivity.
  - apply Forall_cons_2; [dated_now | apply Forall_nil_2].
  - apply Hkey. vm_compute. reflexivity.
Defined.

(** Three posts of the last 14 days give a block of three lines. *)
Lemma context_block_bounded_witness :
  let w := friday_world None answering in
  exists lines w',
    build_context_block iso_parse three_posts w
    = (Ok (join nl ([lit "<recent_posts>"] ++ lines ++ [lit "</recent_posts>"])),
       w') /\
    length lines = 3%nat.
Proof.
  intros w.
  destruct (context_block_bounded iso_parse three_posts w three_posts_well_formed)
    as (w' & _ & Hblock).
  destruct Hblock as (lines & Hrun & Hlen & _).
  - intros Hnil. apply (f_equal length) in Hnil. vm_compute in Hnil.
    discriminate Hnil.
  - exists lines, w'. split; [exact Hrun|]. rewrite Hlen. vm_compute. reflexivity.
Defined.

(** A scheduled post, a manual puzzle and another scheduled post from an
    absent file. *)
Lemma history_stays_well_formed_witness :
  let w := friday_world None answering in
  let w' := run_all iso_parse iso_format ascii_title
              [Scheduled; CmdPuzzle (lit "ada"); Scheduled] w in
  Forall (well_formed iso_parse) (posts (loaded w')) /\ bounded (loaded w').
Proof.
  intros w w'.
  destruct (history_stays_well_formed iso_parse iso_format ascii_title
              [Scheduled; CmdPuzzle (lit "ada"); Scheduled] w) as [_ Hnone].
  - intros k. vm_compute. reflexivity.
  - apply Hnone. reflexivity.
Defined.

(** The Friday post on a file without posts: one post and one recent
    topic afterwards. *)
Lemma scheduled_post_rotation_witness :
  let w := friday_world (Some awaiting_reveal) answering in
  let w' := (daily_post_body iso_parse iso_format ascii_title w).2 in
  exists h', w_file w' = Some h' /\
             length (posts h') = 1%nat /\ length (used_topics h') = 1%nat.
Proof.
  intros w w'.
  destruct (scheduled_post_rotation iso_parse iso_format ascii_title w w')
    as (result & today & h' & _ & Hfile & Hposts & Htopics & _).
  - vm_compute. reflexivity.
  - exists h'. split; [exact Hfile|]. rewrite Hposts, Htopics.
    split; reflexivity.
Defined.

(** [!history 2] on three posts. *)
Lemma show_history_lists_witness :
  let w := friday_world (Some three_posts) answering in
  exists e,
    show_history 2 w = (Ok tt, tick (record_sent (MsgEmbed e) w)) /\
    e_title e = lit "Last 2 Posts".
Proof.
  intros w.
  destruct (show_history_lists 2 w) as (_ & _ & _ & _ & Hshown); [reflexivity|].
  destruct Hshown as (lines & e & Hrun & Htitle & _).
  - intros Hnil. apply (f_equal length) in Hnil. vm_compute in Hnil.
    discriminate Hnil.
  - change (tail_slice 2 (posts (loaded w))) with [post_6_days; post_8_days].
    repeat (apply Forall_cons_2; [by eexists|]). apply Forall_nil_2.
  - exists e. split; [exact Hrun|]. rewrite Htitle. vm_compute. reflexivity.
Defined.

(** [!fact tides] on an absent file. *)
Lemma custom_fact_ignores_history_witness :
  let w := friday_world None answering in
  exists w',
    get_fact iso_parse ascii_title (lit "ada") (Some (lit "tides")) w = (Ok tt, w') /\
    w_file w' = None.
Proof.
  intros w.
  destruct (custom_fact_ignores_history iso_parse ascii_title
              (lit "ada") (lit "tides") w) as [_ Hrun].
  - vm_compute. discriminate.
  - edestruct Hrun as (w' & Hget & _ & _ & Hfile); [reflexivity | reflexivity |].
    exists w'. split; [exact Hget | exact Hfile].
Defined.

(** A reply with the marker in the middle and blank lines before it. *)
Lemma puzzle_parse_lossless_witness :
  exists l1 r1 l2 r2,
    lit "Puzzle text." ++ nl ++ nl ++ lit "ANSWER: 42"
    = l1 ++ lit "Puzzle text." ++ r1 ++ ANSWER_MARKER ++ l2 ++ lit "42" ++ r2 /\
    blank l1 /\ blank r1 /\ blank l2 /\ blank r2.
Proof.
  destruct (puzzle_parse_lossless
              (lit "Puzzle text." ++ nl ++ nl ++ lit "ANSWER: 42")
              (lit "Puzzle text.") (lit "42"))
    as (l1 & r1 & l2 & r2 & Heq & H1 & H2 & H3 & H4 & _).
  - vm_compute. reflexivity.
  - exists (lit "Puzzle text." ++ nl ++ nl), (lit " 42"). reflexivity.
  - exists l1, r1, l2, r2. split; [exact Heq|]. split; [exact H1|].
    split; [exact H2|]. split; [exact H3 | exact H4].
Defined.

Lemma eight_posts_well_formed : Forall (well_formed iso_parse) (posts eight_posts).
Proof.
  repeat first
    [ apply Forall_nil_2
    | apply Forall_cons_2; [split; [dated_now | by eexists]|] ].
Qed.

(** Four posts of the last 7 days: the connections generator writes the
    weekly synthesis. *)
Lemma connections_synthesis_witness :
  let w := friday_world None answering in
  exists r w',
    generate_connections iso_parse eight_posts w = (Ok r, w') /\
    r !! "mode" = Some (SStr (lit "connections")).
Proof.
  intros w.
  destruct (connections_synthesis iso_parse eight_posts w eight_posts_well_formed)
    as [Hshape Hrun]; [vm_compute; lia|].
  destruct Hrun as (r & w' & Hrun); [intros k; by eexists|].
  destruct (Hshape r w' Hrun) as (lines & content & reply & _ & _ & Hr & _).
  exists r, w'. split; [exact Hrun|]. rewrite Hr. reflexivity.
Defined.

(** A Sunday with one post in the last 7 days: the message has the
    connections colour, the saved post is a fact. *)
Lemma degraded_sunday_label_witness :
  let w := sunday_world (Some three_posts) answering in
  let w' := (daily_post_body iso_parse iso_format ascii_title w).2 in
  exists e h' saved,
    w_sent w' = w_sent w ++ [MsgEmbed e] /\ e_color e = 0x57F287 /\
    w_file w' = Some h' /\ last (posts h') = Some saved /\
    saved !! "mode" = Some (SStr (lit "fact")).
Proof.
  intros w w'.
  destruct (degraded_sunday_label iso_parse iso_format ascii_title w w')
    as (e & topic & wonder & h' & saved
        & Hsent & _ & Hcolor & _ & _ & _ & Hfile & Hlast & Hmode & _).
  - vm_compute. reflexivity.
  - vm_compute. reflexivity.
  - apply well_formed_dated, three_posts_well_formed.
  - vm_compute. lia.
  - exists e, h', saved. split; [exact Hsent|]. split; [exact Hcolor|].
    split; [exact Hfile|]. split; [exact Hlast | exact Hmode].
Defined.
